(** * Localyse translation proxy: the Cloudflare worker

    A shallow embedding of the request pipeline of [worker/index.js]
    (rate limiting on the KV namespace, the abbreviation dictionary, the
    Azure Translator call, the optional GPT refinement and the [fetch]
    handler), followed by the properties of that pipeline.

    Conventions of the model.
    - A JavaScript string is a [string]; only equality on strings is taken
      from Rocq.  What the engine computes on strings ([trim],
      [toUpperCase], [indexOf], [JSON.parse], ...) is the interface
      [Runtime]; [asciiRuntime] implements it for ASCII text.
    - Values of unknown shape (the target locale of a request, the bodies
      answered by Azure and OpenAI) are [jsval]s and are read with the
      dynamic rules of the language: a property read on [null] throws, [?.]
      short-cuts on [null] and [undefined], [||] tests truthiness.
    - The elements of a [textLayers] array are taken at the type the plugin
      sends, [{id, layerName, text}] with string fields, or the array has a
      [null] among its elements, on which the handler throws.  [localeLabel]
      and [localeCurrencies] are seen through what [refineWithLLM] does
      with them before its [try]: a falsy value, a truthy value with its
      text, or a value that has no text; a value with nothing to join, an
      array with the texts of its elements, or a value that cannot be
      joined.
    - A JavaScript array that may have holes ([new Array(n)]) is a list of
      options, [None] being a hole.
    - An [async] function is a state transformer over the KV namespace and
      the log of outbound calls; a rejected promise is [Throw].  What Azure
      and OpenAI answer is given by a [Network].
    - The KV namespace is a map from keys to a value and an expiry, read
      as it was last written; [now] is the time, in seconds, at which it
      serves a call.  A call of the handler runs to its end; the
      interleaving of two calls is studied on [checkRateLimit], with
      [runSchedule]. *)

From Stdlib Require Import ZArith Ascii String.
From stdpp Require Import gmap strings list pretty.

Open Scope string_scope.
Open Scope list_scope.

#[local] Set Warnings "-register-all".

(** ** Values *)

Inductive jsval : Type :=
| JUndefined
| JNull
| JBool (b : bool)
| JNum (n : Z)
| JStr (s : string)
| JArr (items : list jsval)
| JObj (props : list (string * jsval))
| JNative (name : string).

(** [JNum] keeps the integers: the worker only tests numbers it did not
    produce for truthiness and type.  [JObj] lists the own properties of an
    object, one binding per name.  [JNative] is a built-in function or
    object reached through the prototype chain; [undefined] and [JNative]
    never occur in parsed JSON. *)

Definition truthy (v : jsval) : bool :=
  match v with
  | JUndefined | JNull => false
  | JBool b => b
  | JNum n => negb (n =? 0)%Z
  | JStr s => negb (String.eqb s EmptyString)
  | JArr _ | JObj _ | JNative _ => true
  end.

(** [a || b] *)
Definition jsOr (a b : jsval) : jsval := if truthy a then a else b.

Definition isArray (v : jsval) : bool :=
  match v with JArr _ => true | _ => false end.

Definition nullish (v : jsval) : bool :=
  match v with JUndefined | JNull => true | _ => false end.

(** ** Exceptions *)

Inductive exn : Type :=
| TypeError
| SyntaxError
| NetworkError
| AzureTranslatorError (status : Z) (detail : string).

Inductive outcome (A : Type) : Type :=
| Ok (a : A)
| Throw (e : exn).
Arguments Ok {A} a.
Arguments Throw {A} e.

#[global] Instance outcome_ret : MRet outcome := fun A a => Ok a.
#[global] Instance outcome_bind : MBind outcome := fun A B f m =>
  match m with Ok a => f a | Throw e => Throw e end.
#[global] Instance outcome_fmap : FMap outcome := fun A B f m =>
  match m with Ok a => Ok (f a) | Throw e => Throw e end.

(** ** Property reads *)

(** Own property of an object literal or of a parsed JSON object. *)
Fixpoint assoc {A : Type} (props : list (string * A)) (k : string) : option A :=
  match props with
  | [] => None
  | (k', v) :: rest => if String.eqb k' k then Some v else assoc rest k
  end.

(** The property names every object inherits from [Object.prototype]; each
    of them reads as a function, or as the prototype itself for
    [__proto__]: a truthy value that is not a string. *)
Definition objectPrototypeNames : list string :=
  ["constructor"; "hasOwnProperty"; "isPrototypeOf"; "propertyIsEnumerable";
   "toLocaleString"; "toString"; "valueOf"; "__proto__";
   "__defineGetter__"; "__defineSetter__"; "__lookupGetter__"; "__lookupSetter__"].

Definition inherited (k : string) : jsval :=
  if bool_decide (k ∈ objectPrototypeNames) then JNative k else JUndefined.

(** [obj[k]] on a plain object with own properties [props]. *)
Definition objGet (props : list (string * jsval)) (k : string) : jsval :=
  match assoc props k with
  | Some v => v
  | None => inherited k
  end.

(** ** Data *)

Module TextItem.
Record t : Type := mk {
  id : string;
  layerName : string;
  text : string
}.
End TextItem.

(** [{id, translated}].  [translated] is a string on every path but one:
    the dictionary can hand out a member of [Object.prototype]. *)
Module Translation.
Record t : Type := mk {
  id : string;
  translated : jsval
}.
End Translation.

(** [{id, layerName, original, azureTranslation}], the tuples of the
    refinement prompt. *)
Module Pair.
Record t : Type := mk {
  id : string;
  layerName : string;
  original : string;
  azureTranslation : jsval
}.
End Pair.

Record RateCheck : Type := {
  allowed : bool;
  remaining : Z
}.

(** ** The world outside the worker *)

(** An entry of the KV namespace.  The namespace holds the decimal numerals
    that [put] wrote with [String(current + 1)]; the model keeps the number
    [parseInt] reads back.  [expiration] is the time, in seconds, from which
    [get] answers [null]. *)
Record KvEntry : Type := {
  value : Z;
  expiration : Z
}.

(** What the refinement prompt is built from. *)
Record OpenAIRequest : Type := {
  promptLocale : string;
  promptLabel : string;
  currencyHint : string;
  userPrompt : list (option Pair.t)
}.

(** The secrets of the deployment; [None] is a secret that was never put. *)
Record Env : Type := {
  AZURE_TRANSLATOR_KEY : option string;
  AZURE_TRANSLATOR_REGION : option string;
  OPENAI_API_KEY : option string
}.

(** [!secret] is true of an absent secret and of the empty string. *)
Definition configured (secret : option string) : bool :=
  match secret with
  | Some s => negb (String.eqb s EmptyString)
  | None => false
  end.

(** An outbound request: the Azure one with its subscription key and
    region, its [to] parameter and the texts of its body; the OpenAI one
    with its bearer key and what its prompt is built from. *)
Inductive Call : Type :=
| AzureCall (key region : option string) (to : string) (azureBody : list string)
| OpenAICall (key : option string) (prompt : OpenAIRequest).

(** The answer to the Azure request: [fetch] rejects, the status is not a
    success ([errText] is [response.text()]), or the status is a success
    and [response.json()] yields a value ([None] when it rejects). *)
Inductive AzureReply : Type :=
| AzureUnreachable
| AzureStatus (status : Z) (errText : string)
| AzureJson (azureResults : option jsval).

Inductive OpenAIReply : Type :=
| OpenAIUnreachable
| OpenAIStatus (status : Z)
| OpenAIJson (data : option jsval).

Record Network : Type := {
  azure : string -> list string -> AzureReply;
  openai : OpenAIRequest -> OpenAIReply
}.

Record State : Type := {
  RATE_LIMIT : gmap string KvEntry;
  outbound : list Call
}.

(** ** Asynchronous computations *)

Definition Eff (A : Type) : Type := State -> outcome A * State.

#[global] Instance Eff_ret : MRet Eff := fun A a σ => (Ok a, σ).
#[global] Instance Eff_bind : MBind Eff := fun A B f m σ =>
  match m σ with
  | (Ok a, σ') => f a σ'
  | (Throw e, σ') => (Throw e, σ')
  end.

Definition throw {A : Type} (e : exn) : Eff A := fun σ => (Throw e, σ).

Definition lift {A : Type} (o : outcome A) : Eff A := fun σ => (o, σ).

(** [try { m } catch (err) { h err }] *)
Definition try_catch {A : Type} (m : Eff A) (h : exn -> Eff A) : Eff A := fun σ =>
  match m σ with
  | (Ok a, σ') => (Ok a, σ')
  | (Throw e, σ') => h e σ'
  end.

Definition call (c : Call) : Eff unit := fun σ =>
  (Ok tt, {| RATE_LIMIT := RATE_LIMIT σ; outbound := outbound σ ++ [c] |}).

(** ** The engine's string primitives *)

Class Runtime : Type := {
  (** [s.trim()] *)
  trim : string -> string;
  (** [s.toUpperCase()] and [s.toLowerCase()] *)
  toUpperCase : string -> string;
  toLowerCase : string -> string;
  (** [s[i]]: the code unit at index [i], [None] for [undefined] *)
  codeUnitAt : string -> nat -> option string;
  (** [s.length] *)
  strLength : string -> Z;
  (** [s.indexOf(t)], [-1] when [t] does not occur *)
  indexOf : string -> string -> Z;
  (** [s.substring(n)] and [s.slice(n)] for [0 <= n] *)
  substringFrom : string -> Z -> string;
  (** [s.slice(0, n)] *)
  sliceTo : string -> Z -> string;
  (** [s.replace(re, empty)] for the two patterns [/^```json\s*/i] and
      [/```\s*$/i] that remove a Markdown code fence *)
  replaceFenceOpen : string -> string;
  replaceFenceClose : string -> string;
  (** [JSON.parse(s)], [None] when it throws a [SyntaxError] *)
  JSON_parse : string -> option jsval
}.

(** [s.split("-")[0]]: the text before the first hyphen. *)
Fixpoint beforeHyphen (s : string) : string :=
  match s with
  | EmptyString => EmptyString
  | String c rest => if Ascii.eqb c "-"%char then EmptyString else String c (beforeHyphen rest)
  end.

(** [s.startsWith(p)] *)
Definition startsWith (s p : string) : bool := String.prefix p s.

(** [m.f()] for a string method [f]: a value that is not a string has no
    such method, the call throws. *)
Definition strMethod (f : string -> string) (m : jsval) : outcome jsval :=
  match m with
  | JStr s => Ok (JStr (f s))
  | _ => Throw TypeError
  end.

(** ** Constants *)

Definition DAILY_LIMIT : Z := 25.
Definition DAY_IN_SECONDS : Z := 86400.

(** ** Abbreviation dictionary *)

Definition ABBREV_DICT : list (string * list (string * string)) :=
 [
  ("JAN",
    [("fr", "JANV"); ("de", "JAN"); ("es", "ENE"); ("it", "GEN"); ("pt", "JAN"); ("nl", "JAN");
     ("pl", "STY"); ("cs", "LED"); ("da", "JAN"); ("sv", "JAN"); ("nb", "JAN"); ("fi", "TAMMI");
     ("ro", "IAN"); ("hu", "JAN"); ("tr", "OCA"); ("ru", "ЯНВ"); ("uk", "СІЧ"); ("ar", "يناير");
     ("ja", "1月"); ("ko", "1월"); ("zh", "1月"); ("hi", "जन"); ("th", "ม.ค."); ("vi", "Th1");
     ("id", "JAN"); ("ms", "JAN"); ("bg", "ЯНУ"); ("hr", "SIJ"); ("sk", "JAN"); ("sl", "JAN");
     ("lt", "SAU"); ("lv", "JAN"); ("et", "JAAN"); ("el", "ΙΑΝ"); ("he", "ינו")]);
  ("FEB",
    [("fr", "FÉV"); ("de", "FEB"); ("es", "FEB"); ("it", "FEB"); ("pt", "FEV"); ("nl", "FEB");
     ("pl", "LUT"); ("cs", "ÚNO"); ("da", "FEB"); ("sv", "FEB"); ("nb", "FEB"); ("fi", "HELMI");
     ("ro", "FEB"); ("hu", "FEB"); ("tr", "ŞUB"); ("ru", "ФЕВ"); ("uk", "ЛЮТ");
     ("ar", "فبراير"); ("ja", "2月"); ("ko", "2월"); ("zh", "2月"); ("hi", "फर"); ("th", "ก.พ.");
     ("vi", "Th2"); ("id", "FEB"); ("ms", "FEB"); ("bg", "ФЕВ"); ("hr", "VEL"); ("sk", "FEB");
     ("sl", "FEB"); ("lt", "VAS"); ("lv", "FEB"); ("et", "VEEBR"); ("el", "ΦΕΒ"); ("he", "פבר")]);
  ("MAR",
    [("fr", "MARS"); ("de", "MÄR"); ("es", "MAR"); ("it", "MAR"); ("pt", "MAR"); ("nl", "MRT");
     ("pl", "MAR"); ("cs", "BŘE"); ("da", "MAR"); ("sv", "MAR"); ("nb", "MAR");
     ("fi", "MAALIS"); ("ro", "MAR"); ("hu", "MÁR"); ("tr", "MAR"); ("ru", "МАР");
     ("uk", "БЕР"); ("ar", "مارس"); ("ja", "3月"); ("ko", "3월"); ("zh", "3月"); ("hi", "मार्च");
     ("th", "มี.ค."); ("vi", "Th3"); ("id", "MAR"); ("ms", "MAC"); ("bg", "МАР"); ("hr", "OŽU");
     ("sk", "MAR"); ("sl", "MAR"); ("lt", "KOV"); ("lv", "MAR"); ("et", "MÄRTS"); ("el", "ΜΑΡ");
     ("he", "מרץ")]);
  ("APR",
    [("fr", "AVR"); ("de", "APR"); ("es", "ABR"); ("it", "APR"); ("pt", "ABR"); ("nl", "APR");
     ("pl", "KWI"); ("cs", "DUB"); ("da", "APR"); ("sv", "APR"); ("nb", "APR"); ("fi", "HUHTI");
     ("ro", "APR"); ("hu", "ÁPR"); ("tr", "NİS"); ("ru", "АПР"); ("uk", "КВІ"); ("ar", "أبريل");
     ("ja", "4月"); ("ko", "4월"); ("zh", "4月"); ("hi", "अप्रै"); ("th", "เม.ย."); ("vi", "Th4");
     ("id", "APR"); ("ms", "APR"); ("bg", "АПР"); ("hr", "TRA"); ("sk", "APR"); ("sl", "APR");
     ("lt", "BAL"); ("lv", "APR"); ("et", "APR"); ("el", "ΑΠΡ"); ("he", "אפר")]);
  ("MAY",
    [("fr", "MAI"); ("de", "MAI"); ("es", "MAY"); ("it", "MAG"); ("pt", "MAI"); ("nl", "MEI");
     ("pl", "MAJ"); ("cs", "KVĚ"); ("da", "MAJ"); ("sv", "MAJ"); ("nb", "MAI"); ("fi", "TOUKO");
     ("ro", "MAI"); ("hu", "MÁJ"); ("tr", "MAY"); ("ru", "МАЙ"); ("uk", "ТРА"); ("ar", "مايو");
     ("ja", "5月"); ("ko", "5월"); ("zh", "5月"); ("hi", "मई"); ("th", "พ.ค."); ("vi", "Th5");
     ("id", "MEI"); ("ms", "MEI"); ("bg", "МАЙ"); ("hr", "SVI"); ("sk", "MÁJ"); ("sl", "MAJ");
     ("lt", "GEG"); ("lv", "MAI"); ("et", "MAI"); ("el", "ΜΑΪ"); ("he", "מאי")]);
  ("JUN",
    [("fr", "JUIN"); ("de", "JUN"); ("es", "JUN"); ("it", "GIU"); ("pt", "JUN"); ("nl", "JUN");
     ("pl", "CZE"); ("cs", "ČER"); ("da", "JUN"); ("sv", "JUN"); ("nb", "JUN"); ("fi", "KESÄ");
     ("ro", "IUN"); ("hu", "JÚN"); ("tr", "HAZ"); ("ru", "ИЮН"); ("uk", "ЧЕР"); ("ar", "يونيو");
     ("ja", "6月"); ("ko", "6월"); ("zh", "6月"); ("hi", "जून"); ("th", "มิ.ย."); ("vi", "Th6");
     ("id", "JUN"); ("ms", "JUN"); ("bg", "ЮНИ"); ("hr", "LIP"); ("sk", "JÚN"); ("sl", "JUN");
     ("lt", "BIR"); ("lv", "JŪN"); ("et", "JUUNI"); ("el", "ΙΟΥΝ"); ("he", "יונ")]);
  ("JUL",
    [("fr", "JUIL"); ("de", "JUL"); ("es", "JUL"); ("it", "LUG"); ("pt", "JUL"); ("nl", "JUL");
     ("pl", "LIP"); ("cs", "ČVC"); ("da", "JUL"); ("sv", "JUL"); ("nb", "JUL"); ("fi", "HEINÄ");
     ("ro", "IUL"); ("hu", "JÚL"); ("tr", "TEM"); ("ru", "ИЮЛ"); ("uk", "ЛИП"); ("ar", "يوليو");
     ("ja", "7月"); ("ko", "7월"); ("zh", "7月"); ("hi", "जुल"); ("th", "ก.ค."); ("vi", "Th7");
     ("id", "JUL"); ("ms", "JUL"); ("bg", "ЮЛИ"); ("hr", "SRP"); ("sk", "JÚL"); ("sl", "JUL");
     ("lt", "LIE"); ("lv", "JŪL"); ("et", "JUULI"); ("el", "ΙΟΥΛ"); ("he", "יול")]);
  ("AUG",
    [("fr", "AOÛT"); ("de", "AUG"); ("es", "AGO"); ("it", "AGO"); ("pt", "AGO"); ("nl", "AUG");
     ("pl", "SIE"); ("cs", "SRP"); ("da", "AUG"); ("sv", "AUG"); ("nb", "AUG"); ("fi", "ELO");
     ("ro", "AUG"); ("hu", "AUG"); ("tr", "AĞU"); ("ru", "АВГ"); ("uk", "СЕР"); ("ar", "أغسطس");
     ("ja", "8月"); ("ko", "8월"); ("zh", "8月"); ("hi", "अग"); ("th", "ส.ค."); ("vi", "Th8");
     ("id", "AGT"); ("ms", "OGS"); ("bg", "АВГ"); ("hr", "KOL"); ("sk", "AUG"); ("sl", "AVG");
     ("lt", "RGP"); ("lv", "AUG"); ("et", "AUG"); ("el", "ΑΥΓ"); ("he", "אוג")]);
  ("SEP",
    [("fr", "SEPT"); ("de", "SEP"); ("es", "SEP"); ("it", "SET"); ("pt", "SET"); ("nl", "SEP");
     ("pl", "WRZ"); ("cs", "ZÁŘ"); ("da", "SEP"); ("sv", "SEP"); ("nb", "SEP"); ("fi", "SYYS");
     ("ro", "SEP"); ("hu", "SZEP"); ("tr", "EYL"); ("ru", "СЕН"); ("uk", "ВЕР");
     ("ar", "سبتمبر"); ("ja", "9月"); ("ko", "9월"); ("zh", "9月"); ("hi", "सित"); ("th", "ก.ย.");
     ("vi", "Th9"); ("id", "SEP"); ("ms", "SEP"); ("bg", "СЕП"); ("hr", "RUJ"); ("sk", "SEP");
     ("sl", "SEP"); ("lt", "RGS"); ("lv", "SEP"); ("et", "SEPT"); ("el", "ΣΕΠ"); ("he", "ספט")]);
  ("OCT",
    [("fr", "OCT"); ("de", "OKT"); ("es", "OCT"); ("it", "OTT"); ("pt", "OUT"); ("nl", "OKT");
     ("pl", "PAŹ"); ("cs", "ŘÍJ"); ("da", "OKT"); ("sv", "OKT"); ("nb", "OKT"); ("fi", "LOKA");
     ("ro", "OCT"); ("hu", "OKT"); ("tr", "EKİ"); ("ru", "ОКТ"); ("uk", "ЖОВ");
     ("ar", "أكتوبر"); ("ja", "10月"); ("ko", "10월"); ("zh", "10月"); ("hi", "अक्टू");
     ("th", "ต.ค."); ("vi", "Th10"); ("id", "OKT"); ("ms", "OKT"); ("bg", "ОКТ"); ("hr", "LIS");
     ("sk", "OKT"); ("sl", "OKT"); ("lt", "SPL"); ("lv", "OKT"); ("et", "OKT"); ("el", "ΟΚΤ");
     ("he", "אוק")]);
  ("NOV",
    [("fr", "NOV"); ("de", "NOV"); ("es", "NOV"); ("it", "NOV"); ("pt", "NOV"); ("nl", "NOV");
     ("pl", "LIS"); ("cs", "LIS"); ("da", "NOV"); ("sv", "NOV"); ("nb", "NOV");
     ("fi", "MARRAS"); ("ro", "NOI"); ("hu", "NOV"); ("tr", "KAS"); ("ru", "НОЯ");
     ("uk", "ЛИС"); ("ar", "نوفمبر"); ("ja", "11月"); ("ko", "11월"); ("zh", "11月"); ("hi", "नव");
     ("th", "พ.ย."); ("vi", "Th11"); ("id", "NOV"); ("ms", "NOV"); ("bg", "НОЕ"); ("hr", "STU");
     ("sk", "NOV"); ("sl", "NOV"); ("lt", "LAP"); ("lv", "NOV"); ("et", "NOV"); ("el", "ΝΟΕ");
     ("he", "נוב")]);
  ("DEC",
    [("fr", "DÉC"); ("de", "DEZ"); ("es", "DIC"); ("it", "DIC"); ("pt", "DEZ"); ("nl", "DEC");
     ("pl", "GRU"); ("cs", "PRO"); ("da", "DEC"); ("sv", "DEC"); ("nb", "DES"); ("fi", "JOULU");
     ("ro", "DEC"); ("hu", "DEC"); ("tr", "ARA"); ("ru", "ДЕК"); ("uk", "ГРУ");
     ("ar", "ديسمبر"); ("ja", "12月"); ("ko", "12월"); ("zh", "12月"); ("hi", "दिस");
     ("th", "ธ.ค."); ("vi", "Th12"); ("id", "DES"); ("ms", "DIS"); ("bg", "ДЕК"); ("hr", "PRO");
     ("sk", "DEC"); ("sl", "DEC"); ("lt", "GRD"); ("lv", "DEC"); ("et", "DETS"); ("el", "ΔΕΚ");
     ("he", "דצמ")]);
  ("MON",
    [("fr", "LUN"); ("de", "MO"); ("es", "LUN"); ("it", "LUN"); ("pt", "SEG"); ("nl", "MA");
     ("pl", "PON"); ("cs", "PO"); ("da", "MAN"); ("sv", "MÅN"); ("nb", "MAN"); ("fi", "MA");
     ("ro", "LUN"); ("hu", "HÉT"); ("tr", "PZT"); ("ru", "ПН"); ("uk", "ПН"); ("ar", "اثن");
     ("ja", "月"); ("ko", "월"); ("zh", "一"); ("hi", "सोम"); ("th", "จ."); ("vi", "T2");
     ("id", "SEN"); ("ms", "ISN")]);
  ("TUE",
    [("fr", "MAR"); ("de", "DI"); ("es", "MAR"); ("it", "MAR"); ("pt", "TER"); ("nl", "DI");
     ("pl", "WT"); ("cs", "ÚT"); ("da", "TIR"); ("sv", "TIS"); ("nb", "TIR"); ("fi", "TI");
     ("ro", "MAR"); ("hu", "KED"); ("tr", "SAL"); ("ru", "ВТ"); ("uk", "ВТ"); ("ar", "ثلا");
     ("ja", "火"); ("ko", "화"); ("zh", "二"); ("hi", "मंगल"); ("th", "อ."); ("vi", "T3");
     ("id", "SEL"); ("ms", "SEL")]);
  ("WED",
    [("fr", "MER"); ("de", "MI"); ("es", "MIÉ"); ("it", "MER"); ("pt", "QUA"); ("nl", "WO");
     ("pl", "ŚR"); ("cs", "ST"); ("da", "ONS"); ("sv", "ONS"); ("nb", "ONS"); ("fi", "KE");
     ("ro", "MIE"); ("hu", "SZE"); ("tr", "ÇAR"); ("ru", "СР"); ("uk", "СР"); ("ar", "أرب");
     ("ja", "水"); ("ko", "수"); ("zh", "三"); ("hi", "बुध"); ("th", "พ."); ("vi", "T4");
     ("id", "RAB"); ("ms", "RAB")]);
  ("THU",
    [("fr", "JEU"); ("de", "DO"); ("es", "JUE"); ("it", "GIO"); ("pt", "QUI"); ("nl", "DO");
     ("pl", "CZW"); ("cs", "ČT"); ("da", "TOR"); ("sv", "TOR"); ("nb", "TOR"); ("fi", "TO");
     ("ro", "JOI"); ("hu", "CSÜ"); ("tr", "PER"); ("ru", "ЧТ"); ("uk", "ЧТ"); ("ar", "خمي");
     ("ja", "木"); ("ko", "목"); ("zh", "四"); ("hi", "गुरु"); ("th", "พฤ."); ("vi", "T5");
     ("id", "KAM"); ("ms", "KHA")]);
  ("FRI",
    [("fr", "VEN"); ("de", "FR"); ("es", "VIE"); ("it", "VEN"); ("pt", "SEX"); ("nl", "VR");
     ("pl", "PT"); ("cs", "PÁ"); ("da", "FRE"); ("sv", "FRE"); ("nb", "FRE"); ("fi", "PE");
     ("ro", "VIN"); ("hu", "PÉN"); ("tr", "CUM"); ("ru", "ПТ"); ("uk", "ПТ"); ("ar", "جمع");
     ("ja", "金"); ("ko", "금"); ("zh", "五"); ("hi", "शुक्र"); ("th", "ศ."); ("vi", "T6");
     ("id", "JUM"); ("ms", "JUM")]);
  ("SAT",
    [("fr", "SAM"); ("de", "SA"); ("es", "SÁB"); ("it", "SAB"); ("pt", "SÁB"); ("nl", "ZA");
     ("pl", "SOB"); ("cs", "SO"); ("da", "LØR"); ("sv", "LÖR"); ("nb", "LØR"); ("fi", "LA");
     ("ro", "SÂM"); ("hu", "SZO"); ("tr", "CUM"); ("ru", "СБ"); ("uk", "СБ"); ("ar", "سبت");
     ("ja", "土"); ("ko", "토"); ("zh", "六"); ("hi", "शनि"); ("th", "ส."); ("vi", "T7");
     ("id", "SAB"); ("ms", "SAB")]);
  ("SUN",
    [("fr", "DIM"); ("de", "SO"); ("es", "DOM"); ("it", "DOM"); ("pt", "DOM"); ("nl", "ZO");
     ("pl", "NIE"); ("cs", "NE"); ("da", "SØN"); ("sv", "SÖN"); ("nb", "SØN"); ("fi", "SU");
     ("ro", "DUM"); ("hu", "VAS"); ("tr", "PAZ"); ("ru", "ВС"); ("uk", "НД"); ("ar", "أحد");
     ("ja", "日"); ("ko", "일"); ("zh", "日"); ("hi", "रवि"); ("th", "อา."); ("vi", "CN");
     ("id", "MIN"); ("ms", "AHD")])
 ].

(** ** Requests and responses *)

(** The [textLayers] property of a request body: any JSON value, or
    [undefined] when the property is missing; the elements of an array are
    [TextItem]s, or there is a [null] among them ([LayersArrNull]: the
    handler reads a property of every element it comes to, and no element
    has it do anything but throw a [TypeError] before it comes to the
    [null]). *)
Inductive layersField : Type :=
| LayersUndefined
| LayersNull
| LayersBool (b : bool)
| LayersNum (n : Z)
| LayersStr (s : string)
| LayersObj (props : list (string * jsval))
| LayersArr (items : list TextItem.t)
| LayersArrNull.

Definition truthyLayers (f : layersField) : bool :=
  match f with
  | LayersUndefined | LayersNull => false
  | LayersBool b => b
  | LayersNum n => negb (n =? 0)%Z
  | LayersStr s => negb (String.eqb s EmptyString)
  | LayersObj _ | LayersArr _ | LayersArrNull => true
  end.

Definition isArrayLayers (f : layersField) : bool :=
  match f with LayersArr _ | LayersArrNull => true | _ => false end.

Definition hasNull (f : layersField) : bool :=
  match f with LayersArrNull => true | _ => false end.

Definition elements (f : layersField) : list TextItem.t :=
  match f with LayersArr items => items | _ => [] end.

(** The [localeLabel] property of a body, as the system prompt prints it
    ([localeLabel || unknown] inside a template): a falsy value or none
    (the empty string is one); a truthy value, with the text the template
    prints for it (a string that is not empty is its own text, the text of
    an empty array is empty); or a truthy value that has no text (an
    object whose [toString] is not a function), on which the template
    throws. *)
Inductive labelField : Type :=
| LabelFalsy
| LabelTruthy (text : string)
| LabelNoText.

(** The [localeCurrencies] property of a body, as the currency hint reads
    it ([localeCurrencies && localeCurrencies.length > 0 ?
    localeCurrencies.join(...) : empty]): a value that is falsy or whose
    [length] is not above 0; an array that is not empty, with the texts
    that [join] prints for its elements; or a value whose [length] is
    above 0 and that cannot be joined (a string that is not empty, an
    object with such a [length]: they have no [join]; an array with an
    element that has no text), on which the hint throws. *)
Inductive currenciesField : Type :=
| CurrenciesNone
| CurrenciesArr (cs : list string)
| CurrenciesNoJoin.

(** What the handler destructures from the body. *)
Record Payload : Type := {
  textLayers : layersField;
  targetLocale : jsval;
  localeLabel : labelField;
  localeCurrencies : currenciesField
}.

(** The body of a request: text that is not JSON, the JSON value [null],
    or any other JSON value, seen through the four properties read from
    it (all [undefined] on a number, a string, a boolean or an array). *)
Inductive Body : Type :=
| NotJson
| JsonNull
| Json (p : Payload).

(** [const {textLayers, ...} = await request.json()] *)
Definition requestJson (b : Body) : outcome Payload :=
  match b with
  | NotJson => Throw SyntaxError
  | JsonNull => Throw TypeError
  | Json p => Ok p
  end.

Record Request : Type := {
  method : string;
  pathname : string;
  X_User_Id : option string;
  body : Body
}.

Inductive ErrorKind : Type :=
| ServerMisconfigured
| DailyLimitReached
| InvalidRequest
| TranslationError (err : exn).

Inductive ResponseBody : Type :=
| NoBody
| PlainText (s : string)
| PrivacyPolicyHtml
| JsonError (error : ErrorKind) (rateLimited : bool)
| JsonTranslations (translations : list (option Translation.t)).

Record Response : Type := {
  status : Z;
  content : ResponseBody;
  X_RateLimit_Remaining : option Z
}.

Section Worker.
Context {rt : Runtime} (net : Network).

(** [entry[k]] for an entry of the dictionary: an own string, or what
    [Object.prototype] has under that name. *)
Definition entryGet (entry : list (string * string)) (k : string) : jsval :=
  match assoc entry k with
  | Some s => JStr s
  | None => inherited k
  end.

(** [ABBREV_DICT[upper]] is read as an own property: [upper] is an
    upper-cased string and every name of [objectPrototypeNames] has a
    lower-case letter.  [Ok None] is [null]. *)
Definition lookupAbbrev (text targetLocale : string) : outcome (option jsval) :=
  let upper := toUpperCase (trim text) in
  match assoc ABBREV_DICT upper with
  | None => Ok None
  | Some entry =>
      let baseLang := toLowerCase (beforeHyphen targetLocale) in
      let match_ := jsOr (entryGet entry targetLocale) (entryGet entry baseLang) in
      if negb (truthy match_) then Ok None
      else if String.eqb text (toUpperCase text) then Some <$> strMethod toUpperCase match_
      else if String.eqb text (toLowerCase text) then Some <$> strMethod toLowerCase match_
      else
        match codeUnitAt text 0 with
        | None => Throw TypeError
        | Some c =>
            if String.eqb c (toUpperCase c) then
              Some <$> strMethod (fun m =>
                toUpperCase (default EmptyString (codeUnitAt m 0))
                  +:+ toLowerCase (substringFrom m 1)) match_
            else Ok (Some match_)
        end
  end.

(** ** Smart context formatting *)

Definition contextText (layer : TextItem.t) : string :=
  "[" +:+ TextItem.layerName layer +:+ "] " +:+ TextItem.text layer.

Definition stripContext (translatedText layerName : string) : string :=
  let bracketEnd := indexOf translatedText "] " in
  if negb (bracketEnd =? -1)%Z && (bracketEnd <? strLength layerName + 20)%Z
  then trim (substringFrom translatedText (bracketEnd + 2))
  else trim translatedText.

(** ** Rate limiting *)

(** What [get] answers at time [now]: the value of a key that has not
    expired. *)
Definition kvRead (now : Z) (key : string) (kv : gmap string KvEntry) : option Z :=
  match kv !! key with
  | Some e => if (now <? expiration e)%Z then Some (value e) else None
  | None => None
  end.

Definition kvGet (now : Z) (key : string) : Eff (option Z) := fun σ =>
  (Ok (kvRead now key (RATE_LIMIT σ)), σ).

Definition kvPut (now : Z) (key : string) (v : Z) (expirationTtl : Z) : Eff unit := fun σ =>
  (Ok tt,
   {| RATE_LIMIT :=
        <[key := {| value := v; expiration := (now + expirationTtl)%Z |}]> (RATE_LIMIT σ);
      outbound := outbound σ |}).

(** [parseInt(stored) || 0]: an absent or expired key reads [null], whose
    [parseInt] is [NaN]. *)
Definition checkRateLimit (now : Z) (userId : string) : Eff RateCheck :=
  let key := "rate:" +:+ userId in
  stored ← kvGet now key;
  let current := default 0%Z stored in
  if (DAILY_LIMIT <=? current)%Z then
    mret {| allowed := false; remaining := 0 |}
  else
    _ ← kvPut now key (current + 1)%Z DAY_IN_SECONDS;
    mret {| allowed := true; remaining := (DAILY_LIMIT - current - 1)%Z |}.

(** ** Reading parsed values *)

(** [v.k] for [v] neither [null] nor [undefined], at the names the worker
    reads ([translations], [text], [choices], [message], [content], [id],
    [translated]): an own property of an object, nothing on a string, a
    number, a boolean or an array. *)
Definition field (v : jsval) (k : string) : jsval :=
  match v with
  | JObj props => objGet props k
  | _ => inherited k
  end.

(** [v[i]] for [v] neither [null] nor [undefined]. *)
Definition index (v : jsval) (i : nat) : jsval :=
  match v with
  | JArr items => default JUndefined (items !! i)
  | JStr s => from_option JStr JUndefined (codeUnitAt s i)
  | JObj props => objGet props (pretty i)
  | _ => JUndefined
  end.

(** [v.k] and [v[i]]: a [TypeError] on [null] and [undefined]. *)
Definition getField (v : jsval) (k : string) : outcome jsval :=
  if nullish v then Throw TypeError else Ok (field v k).

Definition getIndex (v : jsval) (i : nat) : outcome jsval :=
  if nullish v then Throw TypeError else Ok (index v i).

(** [v?.k] and [v?.[i]] *)
Definition optField (v : jsval) (k : string) : jsval :=
  if nullish v then JUndefined else field v k.

Definition optIndex (v : jsval) (i : nat) : jsval :=
  if nullish v then JUndefined else index v i.

(** ** Arrays with holes *)

(** [a[i] = x] *)
Definition arraySet {A : Type} (a : list (option A)) (i : nat) (x : A) : list (option A) :=
  if bool_decide (i < length a)%nat then <[i := Some x]> a
  else a ++ replicate (i - length a) None ++ [Some x].

(** [a.map(f)] skips the holes and keeps them. *)
Definition arrayMap {A B : Type} (f : nat -> A -> B) (a : list (option A)) : list (option B) :=
  imap (fun i => fmap (f i)) a.

(** ** Azure Translator *)

(** The first loop of [translateWithAzure], from index [i] on. *)
Fixpoint splitLayers (i : nat) (textLayers : list TextItem.t) (targetLocale : string)
    (results : list (option Translation.t)) (azureLayers : list (nat * TextItem.t))
    : outcome (list (option Translation.t) * list (nat * TextItem.t)) :=
  match textLayers with
  | [] => Ok (results, azureLayers)
  | layer :: rest =>
      dictMatch ← lookupAbbrev (TextItem.text layer) targetLocale;
      match dictMatch with
      | Some m =>
          splitLayers (S i) rest targetLocale
            (arraySet results i (Translation.mk (TextItem.id layer) m)) azureLayers
      | None =>
          splitLayers (S i) rest targetLocale results (azureLayers ++ [(i, layer)])
      end
  end.

(** [azureResults[i]?.translations?.[0]?.text] *)
Definition azureText (azureResults : jsval) (i : nat) : outcome jsval :=
  r ← getIndex azureResults i;
  Ok (optField (optIndex (optField r "translations") 0) "text").

(** The [forEach] that merges the answers back, from position [i] on.
    [stripContext] calls [indexOf] and [trim] on its argument: a value
    that is not a string makes it throw. *)
Fixpoint mergeAzure (i : nat) (azureLayers : list (nat * TextItem.t)) (azureResults : jsval)
    (results : list (option Translation.t)) : outcome (list (option Translation.t)) :=
  match azureLayers with
  | [] => Ok results
  | (originalIndex, layer) :: rest =>
      found ← azureText azureResults i;
      match jsOr found (JStr (TextItem.text layer)) with
      | JStr translated =>
          mergeAzure (S i) rest azureResults
            (arraySet results originalIndex
               (Translation.mk (TextItem.id layer)
                  (JStr (stripContext translated (TextItem.layerName layer)))))
      | _ => Throw TypeError
      end
  end.

Definition translateWithAzure (env : Env) (textLayers : list TextItem.t) (targetLocale : string)
    : Eff (list (option Translation.t)) :=
  '(results, azureLayers) ←
     lift (splitLayers 0 textLayers targetLocale (replicate (length textLayers) None) []);
  match azureLayers with
  | [] => mret results
  | _ :: _ =>
      let azureBody := map (fun '(_, layer) => contextText layer) azureLayers in
      _ ← call (AzureCall (AZURE_TRANSLATOR_KEY env) (AZURE_TRANSLATOR_REGION env)
                  targetLocale azureBody);
      match azure net targetLocale azureBody with
      | AzureUnreachable => throw NetworkError
      | AzureStatus status errText => throw (AzureTranslatorError status (sliceTo errText 200))
      | AzureJson None => throw SyntaxError
      | AzureJson (Some azureResults) => lift (mergeAzure 0 azureLayers azureResults results)
      end
  end.

(** ** LLM contextual refinement *)

(** Key equality of a [Map].  Objects and arrays are compared by
    reference, and two values parsed apart are never the same object. *)
Definition sameValueZero (a b : jsval) : bool :=
  match a, b with
  | JUndefined, JUndefined => true
  | JNull, JNull => true
  | JBool x, JBool y => Bool.eqb x y
  | JNum x, JNum y => (x =? y)%Z
  | JStr x, JStr y => String.eqb x y
  | JNative x, JNative y => String.eqb x y
  | _, _ => false
  end.

(** [m.set(k, v)] and [m.get(k)] on a [Map] in insertion order. *)
Fixpoint mapSet (m : list (jsval * string)) (k : jsval) (v : string) : list (jsval * string) :=
  match m with
  | [] => [(k, v)]
  | (k', v') :: rest =>
      if sameValueZero k' k then (k', v) :: rest else (k', v') :: mapSet rest k v
  end.

Fixpoint mapGet (m : list (jsval * string)) (k : jsval) : option string :=
  match m with
  | [] => None
  | (k', v') :: rest => if sameValueZero k' k then Some v' else mapGet rest k
  end.

(** [data.choices?.[0]?.message?.content?.trim()], [None] for [undefined]. *)
Definition contentOf (data : jsval) : outcome (option string) :=
  choices ← getField data "choices";
  let content := optField (optField (optIndex choices 0) "message") "content" in
  if nullish content then Ok None
  else match content with
       | JStr s => Ok (Some (trim s))
       | _ => Throw TypeError
       end.

(** The loop [for (const r of refined)] that fills [refinedMap]. *)
Fixpoint collectRefined (refined : list jsval) (refinedMap : list (jsval * string))
    : outcome (list (jsval * string)) :=
  match refined with
  | [] => Ok refinedMap
  | r :: rest =>
      rid ← getField r "id";
      if truthy rid then
        match field r "translated" with
        | JStr t => collectRefined rest (mapSet refinedMap rid t)
        | _ => collectRefined rest refinedMap
        end
      else collectRefined rest refinedMap
  end.

(** [azureResults.map(r => ({id: r.id, translated: refinedMap.get(r.id) || r.translated}))] *)
Definition mergeRefined (refinedMap : list (jsval * string))
    (azureResults : list (option Translation.t)) : list (option Translation.t) :=
  arrayMap (fun _ r =>
    Translation.mk (Translation.id r)
      (jsOr (from_option JStr JUndefined (mapGet refinedMap (JStr (Translation.id r))))
            (Translation.translated r))) azureResults.

(** The part of [refineWithLLM] that follows a parsed answer. *)
Definition mergeById (refined : jsval) (azureResults : list (option Translation.t))
    : outcome (list (option Translation.t)) :=
  match refined with
  | JArr rs =>
      refinedMap ← collectRefined rs [];
      Ok (mergeRefined refinedMap azureResults)
  | _ => Ok azureResults
  end.

(** What is sent to OpenAI: [pairs], [currencyHint] and the label of the
    system prompt. *)
Definition refinementPrompt (textLayers : list TextItem.t)
    (azureResults : list (option Translation.t)) (targetLocale : string)
    (localeLabel : option string) (localeCurrencies : option (list string)) : OpenAIRequest :=
  let pairs := arrayMap (fun i r =>
    Pair.mk (Translation.id r)
      (default EmptyString (TextItem.layerName <$> textLayers !! i))
      (default EmptyString (TextItem.text <$> textLayers !! i))
      (Translation.translated r)) azureResults in
  let currencyHint :=
    match localeCurrencies with
    | Some (c :: cs) =>
        "The target locale uses these currencies: " +:+ String.concat ", " (c :: cs) +:+ "."
    | _ => EmptyString
    end in
  let label :=
    match localeLabel with
    | Some l => if String.eqb l EmptyString then "unknown" else l
    | None => "unknown"
    end in
  {| promptLocale := targetLocale; promptLabel := label;
     currencyHint := currencyHint; userPrompt := pairs |}.

(** [refineWithLLM] from its [try] on: the request with the prompt, what
    is done with the answer, and the [catch]. *)
Definition refineRequest (env : Env) (prompt : OpenAIRequest)
    (azureResults : list (option Translation.t)) : Eff (list (option Translation.t)) :=
  try_catch
    (_ ← call (OpenAICall (OPENAI_API_KEY env) prompt);
     match openai net prompt with
     | OpenAIUnreachable => throw NetworkError
     | OpenAIStatus _ => mret azureResults
     | OpenAIJson None => throw SyntaxError
     | OpenAIJson (Some data) =>
         content ← lift (contentOf data);
         match content with
         | None => mret azureResults
         | Some content =>
             if String.eqb content EmptyString then mret azureResults
             else
               let cleaned := trim (replaceFenceClose (replaceFenceOpen content)) in
               match JSON_parse cleaned with
               | None => mret azureResults
               | Some refined => lift (mergeById refined azureResults)
               end
         end
     end)
    (fun err => mret azureResults).

(** [refineWithLLM] on a label and currencies of the types the plugin
    sends: a string or nothing, an array of strings or nothing. *)
Definition refineWithLLM (env : Env) (textLayers : list TextItem.t)
    (azureResults : list (option Translation.t)) (targetLocale : string)
    (localeLabel : option string) (localeCurrencies : option (list string))
    : Eff (list (option Translation.t)) :=
  if negb (configured (OPENAI_API_KEY env)) then mret azureResults
  else
    let prompt :=
      refinementPrompt textLayers azureResults targetLocale localeLabel localeCurrencies in
    refineRequest env prompt azureResults.

(** [refineWithLLM] on what a body can hold under [localeLabel] and
    [localeCurrencies].  Without a key it returns before it reads them.
    With a key it evaluates the currency hint, then the system prompt,
    before its [try]: a value that cannot be joined, or a label that has
    no text, throws there, out of the function.  On the other values the
    prompt has the pairs and the currency hint of [refinementPrompt] and,
    for its label, the text printed for [localeLabel || unknown]. *)
Definition currenciesOf (f : currenciesField) : outcome (option (list string)) :=
  match f with
  | CurrenciesNone => Ok None
  | CurrenciesArr cs => Ok (Some cs)
  | CurrenciesNoJoin => Throw TypeError
  end.

Definition labelOf (f : labelField) : outcome string :=
  match f with
  | LabelFalsy => Ok "unknown"
  | LabelTruthy text => Ok text
  | LabelNoText => Throw TypeError
  end.

Definition stagePrompt (textLayers : list TextItem.t)
    (azureResults : list (option Translation.t)) (targetLocale : string)
    (label : string) (currencies : option (list string)) : OpenAIRequest :=
  let typed := refinementPrompt textLayers azureResults targetLocale None currencies in
  {| promptLocale := targetLocale; promptLabel := label;
     currencyHint := currencyHint typed; userPrompt := userPrompt typed |}.

Definition refineStage (env : Env) (textLayers : list TextItem.t)
    (azureResults : list (option Translation.t)) (targetLocale : string)
    (localeLabel : labelField) (localeCurrencies : currenciesField)
    : Eff (list (option Translation.t)) :=
  if negb (configured (OPENAI_API_KEY env)) then mret azureResults
  else
    currencies ← lift (currenciesOf localeCurrencies);
    label ← lift (labelOf localeLabel);
    refineRequest env (stagePrompt textLayers azureResults targetLocale label currencies)
      azureResults.

(** How a label and currencies of the types the plugin sends are seen. *)
Definition labelView (localeLabel : option string) : labelField :=
  match localeLabel with
  | Some l => if String.eqb l EmptyString then LabelFalsy else LabelTruthy l
  | None => LabelFalsy
  end.

Definition currenciesView (localeCurrencies : option (list string)) : currenciesField :=
  match localeCurrencies with
  | Some (c :: cs) => CurrenciesArr (c :: cs)
  | _ => CurrenciesNone
  end.

(** ** Main handler *)

(** [request.headers.get(name) || anonymous] for the header [X-User-Id]. *)
Definition userIdOf (request : Request) : string :=
  match X_User_Id request with
  | Some u => if String.eqb u EmptyString then "anonymous" else u
  | None => "anonymous"
  end.

(** The [try] block of [fetch]: what an admitted request goes through.
    On an array with a [null] among its elements, the [map] of the source
    language throws when it reads [l.id] on it, and the first loop of
    [translateWithAzure] throws on it, or on an element before it, when it
    reads [layer.text] or looks the text up: a [TypeError] either way,
    before anything is sent. *)
Definition translation (env : Env) (request : Request) (rateCheck : RateCheck) : Eff Response :=
  p ← lift (requestJson (body request));
  if negb (truthyLayers (textLayers p)) || negb (isArrayLayers (textLayers p))
     || negb (truthy (targetLocale p)) then
    mret {| status := 400; content := JsonError InvalidRequest false;
            X_RateLimit_Remaining := None |}
  else
    match targetLocale p with
    | JStr locale =>
        let isSourceLanguage := String.eqb locale "en" || startsWith locale "en-" in
        if hasNull (textLayers p) then throw TypeError
        else
        azureTranslations ←
          (if isSourceLanguage then
             mret (map (fun l => Some (Translation.mk (TextItem.id l) (JStr (TextItem.text l))))
                       (elements (textLayers p)))
           else translateWithAzure env (elements (textLayers p)) locale);
        translations ←
          refineStage env (elements (textLayers p)) azureTranslations locale
            (localeLabel p) (localeCurrencies p);
        mret {| status := 200; content := JsonTranslations translations;
                X_RateLimit_Remaining := Some (remaining rateCheck) |}
    | _ => throw TypeError
    end.

Definition fetch (now : Z) (request : Request) (env : Env) : Eff Response :=
  if String.eqb (method request) "OPTIONS" then
    mret {| status := 204; content := NoBody; X_RateLimit_Remaining := None |}
  else if String.eqb (method request) "GET" && String.eqb (pathname request) "/privacy" then
    mret {| status := 200; content := PrivacyPolicyHtml; X_RateLimit_Remaining := None |}
  else if negb (String.eqb (method request) "POST") then
    mret {| status := 405; content := PlainText "Method not allowed";
            X_RateLimit_Remaining := None |}
  else if negb (configured (AZURE_TRANSLATOR_KEY env))
          || negb (configured (AZURE_TRANSLATOR_REGION env)) then
    mret {| status := 500; content := JsonError ServerMisconfigured false;
            X_RateLimit_Remaining := None |}
  else
    let userId := userIdOf request in
    rateCheck ← checkRateLimit now userId;
    if negb (allowed rateCheck) then
      mret {| status := 429; content := JsonError DailyLimitReached true;
              X_RateLimit_Remaining := Some 0%Z |}
    else
      try_catch (translation env request rateCheck)
        (fun err =>
           mret {| status := 502; content := JsonError (TranslationError err) false;
                   X_RateLimit_Remaining := None |}).

(** ** [checkRateLimit] at the grain of its two [await]s *)

(** Where a call of [checkRateLimit] stands: before [get] resolves, before
    [put] resolves with the count it read, or returned. *)
Inductive admission : Type :=
| AwaitGet (userId : string)
| AwaitPut (userId : string) (current : Z)
| Returned (r : RateCheck).

(** One step of a call: the code between two [await]s, run at time [now]. *)
Definition admissionStep (now : Z) (a : admission) : Eff admission :=
  match a with
  | AwaitGet userId =>
      stored ← kvGet now ("rate:" +:+ userId);
      let current := default 0%Z stored in
      if (DAILY_LIMIT <=? current)%Z then mret (Returned {| allowed := false; remaining := 0 |})
      else mret (AwaitPut userId current)
  | AwaitPut userId current =>
      _ ← kvPut now ("rate:" +:+ userId) (current + 1)%Z DAY_IN_SECONDS;
      mret (Returned {| allowed := true; remaining := (DAILY_LIMIT - current - 1)%Z |})
  | Returned r => mret (Returned r)
  end.

(** Calls in flight, and a schedule: which call takes its next step, and
    when. *)
Fixpoint runSchedule (schedule : list (nat * Z)) (calls : list admission)
    : Eff (list admission) :=
  match schedule with
  | [] => mret calls
  | (i, now) :: rest =>
      match calls !! i with
      | Some a =>
          a' ← admissionStep now a;
          runSchedule rest (<[i := a']> calls)
      | None => runSchedule rest calls
      end
  end.

End Worker.

(** ** The string primitives on ASCII text *)

Module Ascii7.

Definition isSpace (c : ascii) : bool :=
  let n := nat_of_ascii c in
  ((9 <=? n) && (n <=? 13) || (n =? 32))%nat.

Definition upper (c : ascii) : ascii :=
  let n := nat_of_ascii c in
  if ((97 <=? n) && (n <=? 122))%nat then ascii_of_nat (n - 32) else c.

Definition lower (c : ascii) : ascii :=
  let n := nat_of_ascii c in
  if ((65 <=? n) && (n <=? 90))%nat then ascii_of_nat (n + 32) else c.

Fixpoint mapChars (f : ascii -> ascii) (s : string) : string :=
  match s with
  | EmptyString => EmptyString
  | String c rest => String (f c) (mapChars f rest)
  end.

Fixpoint trimStart (s : string) : string :=
  match s with
  | EmptyString => EmptyString
  | String c rest => if isSpace c then trimStart rest else s
  end.

Definition reverse (s : string) : string :=
  string_of_list_ascii (rev (list_ascii_of_string s)).

Definition trimEnd (s : string) : string := reverse (trimStart (reverse s)).

Definition trim (s : string) : string := trimEnd (trimStart s).

Definition codeUnitAt (s : string) (i : nat) : option string :=
  (fun c => String c EmptyString) <$> String.get i s.

Definition strLength (s : string) : Z := Z.of_nat (String.length s).

Definition indexOf (s t : string) : Z :=
  match String.index 0 t s with
  | Some i => Z.of_nat i
  | None => (-1)%Z
  end.

Definition substringFrom (s : string) (n : Z) : string :=
  String.substring (Z.to_nat n) (String.length s - Z.to_nat n) s.

Definition sliceTo (s : string) (n : Z) : string :=
  String.substring 0 (Z.to_nat n) s.

Definition replaceFenceOpen (s : string) : string :=
  if String.eqb (mapChars lower (String.substring 0 7 s)) "```json"
  then trimStart (String.substring 7 (String.length s - 7) s)
  else s.

Definition replaceFenceClose (s : string) : string :=
  let t := trimEnd s in
  let n := String.length t in
  if String.eqb (String.substring (n - 3) 3 t) "```" then String.substring 0 (n - 3) t else s.

End Ascii7.

(** The engine restricted to ASCII text, with a given [JSON.parse]. *)
Definition asciiRuntime (parse : string -> option jsval) : Runtime := {|
  trim := Ascii7.trim;
  toUpperCase := Ascii7.mapChars Ascii7.upper;
  toLowerCase := Ascii7.mapChars Ascii7.lower;
  codeUnitAt := Ascii7.codeUnitAt;
  strLength := Ascii7.strLength;
  indexOf := Ascii7.indexOf;
  substringFrom := Ascii7.substringFrom;
  sliceTo := Ascii7.sliceTo;
  replaceFenceOpen := Ascii7.replaceFenceOpen;
  replaceFenceClose := Ascii7.replaceFenceClose;
  JSON_parse := parse
|}.

(** ** Vocabulary of the properties *)

(** The count [checkRateLimit] reads for an identity at time [now]. *)
Definition currentCount (now : Z) (userId : string) (σ : State) : Z :=
  default 0%Z (kvRead now ("rate:" +:+ userId) (RATE_LIMIT σ)).



(** Calls of [checkRateLimit] for one identity, one after the other, at
    the given times. *)
Fixpoint admissions (userId : string) (times : list Z) : Eff (list RateCheck) :=
  match times with
  | [] => mret []
  | now :: rest =>
      r ← checkRateLimit now userId;
      rs ← admissions userId rest;
      mret (r :: rs)
  end.

Section Resolution.
Context {rt : Runtime}.

(** The dictionary has an answer for the text of an item, or has none
    ([null]); the third case is a lookup that throws. *)
Definition resolves (targetLocale : string) (layer : TextItem.t) : bool :=
  match lookupAbbrev (TextItem.text layer) targetLocale with
  | Ok (Some _) => true
  | _ => false
  end.

Definition misses (targetLocale : string) (layer : TextItem.t) : bool :=
  match lookupAbbrev (TextItem.text layer) targetLocale with
  | Ok None => true
  | _ => false
  end.

(** The slot of an item after the dictionary pass. *)
Definition dictionaryResult (targetLocale : string) (layer : TextItem.t)
    : option Translation.t :=
  match lookupAbbrev (TextItem.text layer) targetLocale with
  | Ok (Some m) => Some (Translation.mk (TextItem.id layer) m)
  | _ => None
  end.

(** The items the dictionary misses, with their positions counted from [i]. *)
Fixpoint missesFrom (i : nat) (targetLocale : string) (layers : list TextItem.t)
    : list (nat * TextItem.t) :=
  match layers with
  | [] => []
  | layer :: rest =>
      if misses targetLocale layer then (i, layer) :: missesFrom (S i) targetLocale rest
      else missesFrom (S i) targetLocale rest
  end.

End Resolution.

(** The ids along an array of results, hole by hole. *)
Definition ids (a : list (option Translation.t)) : list (option string) :=
  (fun r : option Translation.t => Translation.id <$> r) <$> a.

(** Between the two loops of [translateWithAzure]: every item has its id
    in its slot of [results], or waits in [azureLayers]. *)
Definition filledOrQueued (layers : list TextItem.t) (results : list (option Translation.t))
    (azureLayers : list (nat * TextItem.t)) : Prop :=
  length results = length layers
  /\ forall j layer, layers !! j = Some layer ->
       (exists r, results !! j = Some (Some r) /\ Translation.id r = TextItem.id layer)
       \/ (j, layer) ∈ azureLayers.

Section Refinement.
Context {rt : Runtime}.

(** The list that the content of an OpenAI answer parses to, when there
    is a content and it parses to a list. *)
Definition refinedList (data : jsval) : option (list jsval) :=
  match contentOf data with
  | Ok (Some content) =>
      if String.eqb content EmptyString then None
      else match JSON_parse (trim (replaceFenceClose (replaceFenceOpen content))) with
           | Some (JArr rs) => Some rs
           | _ => None
           end
  | _ => None
  end.

End Refinement.

(** The text a record of the refinement answer gives for the id [i]: the
    record has that id, not empty, and a string under [translated]. *)
Definition refinedRecord (i : string) (r : jsval) : option string :=
  match field r "id", field r "translated" with
  | JStr i', JStr t => if String.eqb i' i && negb (String.eqb i EmptyString) then Some t else None
  | _, _ => None
  end.

(** The text of the last record of the answer that gives one for [i]. *)
Fixpoint refinedText (rs : list jsval) (i : string) : option string :=
  match rs with
  | [] => None
  | r :: rest =>
      match refinedText rest i with
      | Some t => Some t
      | None => refinedRecord i r
      end
  end.

(** ** A deployment to run the handler on *)

Module Scenario.

(** The one document the refinement answers with. *)
Definition refinedRecords : list jsval :=
  [JObj [("id", JStr "a"); ("translated", JStr "Bienvenue !")]].

Definition refined : jsval := JArr refinedRecords.

Definition parse (s : string) : option jsval :=
  if String.eqb s "[refined]" then Some refined else None.

Definition rt : Runtime := asciiRuntime parse.

Definition env : Env :=
  {| AZURE_TRANSLATOR_KEY := Some "key"; AZURE_TRANSLATOR_REGION := Some "westeurope";
     OPENAI_API_KEY := Some "sk" |}.

Definition envNoOpenAI : Env :=
  {| AZURE_TRANSLATOR_KEY := Some "key"; AZURE_TRANSLATOR_REGION := Some "westeurope";
     OPENAI_API_KEY := None |}.

(** Azure echoes the context prefix in French; OpenAI fences its answer. *)
Definition net : Network :=
  {| azure := fun _ azureBody =>
       AzureJson (Some (JArr (map (fun _ =>
         JObj [("translations", JArr [JObj [("text", JStr "[Titre] Bienvenue")]])]) azureBody)));
     openai := fun _ =>
       OpenAIJson (Some (JObj [("choices", JArr [JObj [("message",
         JObj [("content", JStr "```json [refined] ```")])]])])) |}.

Definition offline : Network :=
  {| azure := fun _ _ => AzureUnreachable; openai := fun _ => OpenAIUnreachable |}.

Definition fresh : State := {| RATE_LIMIT := ∅; outbound := [] |}.

Definition layers : list TextItem.t :=
  [TextItem.mk "a" "Heading" "Welcome"; TextItem.mk "b" "Date" "JAN"].

Definition post (userId : string) (b : Body) : Request :=
  {| method := "POST"; pathname := "/"; X_User_Id := Some userId; body := b |}.

Definition payload (items : list TextItem.t) (locale : string) : Payload :=
  {| textLayers := LayersArr items; targetLocale := JStr locale;
     localeLabel := LabelFalsy; localeCurrencies := CurrenciesNone |}.

Definition translate (locale : string) : Body := Json (payload layers locale).

(** A body without [textLayers]. *)
Definition noLayers : Payload :=
  {| textLayers := LayersUndefined; targetLocale := JStr "fr";
     localeLabel := LabelFalsy; localeCurrencies := CurrenciesNone |}.

(** What the provider stage hands to the refinement in the examples. *)
Definition provided : list (option Translation.t) :=
  [Some (Translation.mk "a" (JStr "Bienvenue")); Some (Translation.mk "b" (JStr "JANV"))].

(** A refinement answer that has a record for [a] with an empty text. *)
Definition emptied : list jsval :=
  [JObj [("id", JStr "a"); ("translated", JStr EmptyString)]].

End Scenario.


(** ** More of the repository

    The worker as it was before it had a dictionary and a refinement, and
    the parts of the plugin that compute: the thumbnail of a frame written
    in base64, the text nodes of a frame, and the loop that writes the
    translations to the text nodes of a clone.  A [Uint8Array] is a list of
    integers, bytes when they are between 0 and 255; a node of the document
    is the tree of its children, and what the plugin writes to the text
    nodes of a clone is read off the list of these nodes after the loop. *)

(** [addContext]: each layer with its context text. *)
Module ContextLayer.
Record t : Type := mk {
  layer : TextItem.t;
  contextText : string
}.
End ContextLayer.

Definition addContext (textLayers : list TextItem.t) : list ContextLayer.t :=
  map (fun layer =>
         ContextLayer.mk layer
           ("[" +:+ TextItem.layerName layer +:+ "] " +:+ TextItem.text layer))
      textLayers.

(** The earlier worker, without dictionary and without refinement: every
    layer goes to Azure. *)
Module AzureOnly.
Section Worker.
Context {rt : Runtime} (net : Network).

(** [textLayers.map((layer, i) => ...)] over the answer of Azure, from
    index [i] on. *)
Fixpoint mapLayers (i : nat) (textLayers : list TextItem.t) (results : jsval)
    : outcome (list Translation.t) :=
  match textLayers with
  | [] => Ok []
  | layer :: rest =>
      found ← azureText results i;
      match jsOr found (JStr (TextItem.text layer)) with
      | JStr translated =>
          mapped ← mapLayers (S i) rest results;
          Ok (Translation.mk (TextItem.id layer)
                (JStr (stripContext translated (TextItem.layerName layer))) :: mapped)
      | _ => Throw TypeError
      end
  end.

Definition translateWithAzure (env : Env) (textLayers : list TextItem.t) (targetLocale : string)
    : Eff (list Translation.t) :=
  let layersWithContext := addContext textLayers in
  let azureBody := map ContextLayer.contextText layersWithContext in
  _ ← call (AzureCall (AZURE_TRANSLATOR_KEY env) (AZURE_TRANSLATOR_REGION env)
              targetLocale azureBody);
  match azure net targetLocale azureBody with
  | AzureUnreachable => throw NetworkError
  | AzureStatus status errText => throw (AzureTranslatorError status (sliceTo errText 200))
  | AzureJson None => throw SyntaxError
  | AzureJson (Some results) => lift (mapLayers 0 textLayers results)
  end.

End Worker.
End AzureOnly.

(** ** The plugin: the thumbnail sent to the UI, the text nodes of a frame *)

Module Plugin.

Definition CHARS : string :=
  "ABCDEFGHIJKLMNOPQRSTUVWXYZabcdefghijklmnopqrstuvwxyz0123456789+/".

(** [result += CHARS[i]]: what is appended is [undefined] when [i] is no
    index of the string. *)
Definition CHARS_at (i : Z) : string :=
  match (if (i <? 0)%Z then None else String.get (Z.to_nat i) CHARS) with
  | Some c => String c EmptyString
  | None => "undefined"
  end.

(** One turn of the loop of [uint8ArrayToBase64] on the byte [a] at [i];
    [b] and [c] are [None] when [i + 1] and [i + 2] are not below [len]. *)
Definition group (a : Z) (b c : option Z) : string :=
  let b' := default 0%Z b in
  let c' := default 0%Z c in
  CHARS_at (Z.shiftr a 2)
  +:+ CHARS_at (Z.lor (Z.shiftl (Z.land a 3) 4) (Z.shiftr b' 4))
  +:+ match b with
      | Some _ => CHARS_at (Z.lor (Z.shiftl (Z.land b' 15) 2) (Z.shiftr c' 6))
      | None => "="
      end
  +:+ match c with
      | Some _ => CHARS_at (Z.land c' 63)
      | None => "="
      end.

(** The loop steps by three bytes. *)
Fixpoint uint8ArrayToBase64 (bytes : list Z) : string :=
  match bytes with
  | [] => EmptyString
  | [a] => group a None None
  | [a; b] => group a (Some b) None
  | a :: b :: c :: rest => group a (Some b) (Some c) +:+ uint8ArrayToBase64 rest
  end.

(** A node of the document: the properties the plugin reads and writes
    ([characters] and [textAlignHorizontal] are those of a text node), and
    its children when it has the property [children]. *)
Inductive SceneNode : Type :=
| Node (id name type characters textAlignHorizontal : string)
       (children : option (list SceneNode)).

Definition nodeId (node : SceneNode) : string :=
  match node with Node id _ _ _ _ _ => id end.

Definition nodeType (node : SceneNode) : string :=
  match node with Node _ _ type _ _ _ => type end.

Definition characters (node : SceneNode) : string :=
  match node with Node _ _ _ characters _ _ => characters end.

Definition textAlignHorizontal (node : SceneNode) : string :=
  match node with Node _ _ _ _ align _ => align end.

Fixpoint collectTextNodes (node : SceneNode) : list SceneNode :=
  match node with
  | Node _ _ type _ _ children =>
      (if String.eqb type "TEXT" then [node] else [])
      ++ match children with
         | Some children => concat (map collectTextNodes children)
         | None => []
         end
  end.

Definition RTL_CODES : list string := ["ar"; "he"; "fa"; "ur"; "ps"; "yi"; "sd"; "ku"].

Definition isRtlLocale {rt : Runtime} (code : string) : bool :=
  if String.eqb code EmptyString then false
  else bool_decide (toLowerCase (beforeHyphen code) ∈ RTL_CODES).

(** [layerMap]: the [Map] from the id of a source node to its translated
    text, filled in the order of [t.layers]. *)
Definition layerMapOf (layers : list (string * string)) : gmap string string :=
  foldl (fun m layer => <[layer.1 := layer.2]> m) ∅ layers.

(** The body of the [try] block on a text node of the clone: the new text,
    and the alignment turned over for a locale read from right to left. *)
Definition setText (rtl : bool) (newText : string) (cloneText : SceneNode) : SceneNode :=
  match cloneText with
  | Node id name type _ align children =>
      let align' :=
        if rtl then
          if String.eqb align "LEFT" then "RIGHT"
          else if String.eqb align "RIGHT" then "LEFT"
          else align
        else align in
      Node id name type newText align' children
  end.

(** The loop that matches the text nodes of the clone with those of the
    source by index.  [fontsLoad] tells of a text node whether its fonts
    can be loaded: when they cannot, the [try] block is left before the
    text is set.  The result is the text nodes of the clone after the
    loop. *)
Fixpoint applyLayers (fontsLoad : SceneNode -> bool) (rtl : bool)
    (layerMap : gmap string string) (sourceTextNodes cloneTextNodes : list SceneNode)
    : list SceneNode :=
  match sourceTextNodes, cloneTextNodes with
  | source :: sources, cloneText :: clones =>
      match layerMap !! nodeId source with
      | None => cloneText
      | Some newText =>
          if String.eqb (characters cloneText) EmptyString then cloneText
          else if fontsLoad cloneText then setText rtl newText cloneText
          else cloneText
      end :: applyLayers fontsLoad rtl layerMap sources clones
  | _, _ => cloneTextNodes
  end.

End Plugin.

(** ** More vocabulary *)

(** Every count in the namespace is one [checkRateLimit] can have written:
    between 1 and the limit. *)
Definition countsInRange (σ : State) : Prop :=
  map_Forall (fun _ e => (1 <= value e <= DAILY_LIMIT)%Z) (RATE_LIMIT σ).

(** The place in the Azure batch of the item at index [j]: the number of
    misses before it. *)
Definition batchPosition {rt : Runtime} (targetLocale : string) (layers : list TextItem.t)
    (j : nat) : nat :=
  length (List.filter (misses targetLocale) (take j layers)).

(** An element of a [Uint8Array]. *)
Definition isByte (x : Z) : Prop := (0 <= x < 256)%Z.

(** The value of a character of the base64 alphabet: its place in
    [CHARS]; [None] for the padding character and for any other. *)
Fixpoint sextetFrom (i : Z) (alphabet : string) (c : ascii) : option Z :=
  match alphabet with
  | EmptyString => None
  | String x rest => if Ascii.eqb x c then Some i else sextetFrom (i + 1)%Z rest c
  end.

Definition sextet (c : ascii) : option Z := sextetFrom 0 Plugin.CHARS c.

(** The bytes a base64 text stands for: four characters give three bytes,
    two with one padding character, one with two. *)
Fixpoint base64Bytes (s : string) : list Z :=
  match s with
  | String c0 (String c1 (String c2 (String c3 rest))) =>
      match sextet c0, sextet c1 with
      | Some i0, Some i1 =>
          let a := (i0 * 4 + i1 / 16)%Z in
          match sextet c2 with
          | None => [a]
          | Some i2 =>
              let b := (i1 mod 16 * 16 + i2 / 4)%Z in
              match sextet c3 with
              | None => [a; b]
              | Some i3 => a :: b :: (i2 mod 4 * 64 + i3)%Z :: base64Bytes rest
              end
          end
      | _, _ => []
      end
  | _ => []
  end.

(** Two subtrees of the same shape: the same types at the same places. A
    clone of a node has the shape of the node. *)
Fixpoint sameShape (a b : Plugin.SceneNode) : bool :=
  match a, b with
  | Plugin.Node _ _ typeA _ _ childrenA, Plugin.Node _ _ typeB _ _ childrenB =>
      String.eqb typeA typeB
      && match childrenA, childrenB with
         | None, None => true
         | Some childrenA, Some childrenB =>
             (fix all (xs : list Plugin.SceneNode) (ys : list Plugin.SceneNode) : bool :=
                match xs, ys with
                | [], [] => true
                | x :: xs', y :: ys' => sameShape x y && all xs' ys'
                | _, _ => false
                end) childrenA childrenB
         | _, _ => false
         end
  end.

(** [sameShape] along two lists of children. *)
Fixpoint sameShapes (xs ys : list Plugin.SceneNode) : bool :=
  match xs, ys with
  | [], [] => true
  | x :: xs', y :: ys' => sameShape x y && sameShapes xs' ys'
  | _, _ => false
  end.

(** The node at a place of a subtree: a place is the list of the indices
    to follow among the children, from the root of the subtree down. *)
Fixpoint nodeAt (path : list nat) (node : Plugin.SceneNode) : option Plugin.SceneNode :=
  match path with
  | [] => Some node
  | i :: rest =>
      match node with
      | Plugin.Node _ _ _ _ _ (Some children) => children !! i ≫= nodeAt rest
      | Plugin.Node _ _ _ _ _ None => None
      end
  end.

(** The places of the text nodes of a subtree, in the order of the
    document: a node before its children, the children from the first to
    the last. *)
Fixpoint textPaths (node : Plugin.SceneNode) : list (list nat) :=
  match node with
  | Plugin.Node _ _ type _ _ children =>
      (if String.eqb type "TEXT" then [[]] else [])
      ++ match children with
         | Some children =>
             (fix from (i : nat) (xs : list Plugin.SceneNode) : list (list nat) :=
                match xs with
                | [] => []
                | x :: xs' => (cons i <$> textPaths x) ++ from (S i) xs'
                end) 0%nat children
         | None => []
         end
  end.

(** [textPaths] along a list of children, the first of which is the
    child of index [i]. *)
Fixpoint textPathsFrom (i : nat) (xs : list Plugin.SceneNode) : list (list nat) :=
  match xs with
  | [] => []
  | x :: xs' => (cons i <$> textPaths x) ++ textPathsFrom (S i) xs'
  end.

(** ** More requests and states to run the handler on *)

Module Cases.

(** The caller [u] has used up the day; the record expires at 86400. *)
Definition atLimit : State :=
  {| RATE_LIMIT := {["rate:u" := {| value := 25; expiration := 86400 |}]}; outbound := [] |}.

Definition getPrivacy : Request :=
  {| method := "GET"; pathname := "/privacy"; X_User_Id := None; body := NotJson |}.

(** A payload with a label and currencies for the refinement. *)
Definition labelled (items : list TextItem.t) (locale : string) : Payload :=
  {| textLayers := LayersArr items; targetLocale := JStr locale;
     localeLabel := LabelTruthy "English (UK)"; localeCurrencies := CurrenciesArr ["GBP"] |}.

(** A body with a [null] among its items, and a body with a text where
    the list of currencies should be. *)
Definition nullItem : Payload :=
  {| textLayers := LayersArrNull; targetLocale := JStr "en";
     localeLabel := LabelFalsy; localeCurrencies := CurrenciesNone |}.

Definition currenciesText (items : list TextItem.t) (locale : string) : Payload :=
  {| textLayers := LayersArr items; targetLocale := JStr locale;
     localeLabel := LabelTruthy "English (UK)"; localeCurrencies := CurrenciesNoJoin |}.

(** Azure answers with an empty array; Azure refuses the key. *)
Definition silent : Network :=
  {| azure := fun _ _ => AzureJson (Some (JArr [])); openai := fun _ => OpenAIUnreachable |}.

Definition refusing : Network :=
  {| azure := fun _ _ => AzureStatus 401 "Access denied";
     openai := fun _ => OpenAIUnreachable |}.

(** An answer of the refinement whose list has a [null] before a record. *)
Definition partial : list jsval :=
  [JNull; JObj [("id", JStr "a"); ("translated", JStr "Salut")]].

Definition parse (s : string) : option jsval :=
  if String.eqb s "[partial]" then Some (JArr partial) else None.

Definition rt : Runtime := asciiRuntime parse.

Definition answering : Network :=
  {| azure := fun _ _ => AzureUnreachable;
     openai := fun _ =>
       OpenAIJson (Some (JObj [("choices", JArr [JObj [("message",
         JObj [("content", JStr "[partial]")])]])])) |}.

(** A frame with a title, a group of two texts and a rectangle, and a
    clone of it, with ids of its own. *)
Definition frame : Plugin.SceneNode :=
  Plugin.Node "1:1" "Card" "FRAME" EmptyString EmptyString
    (Some [Plugin.Node "1:2" "Title" "TEXT" "Welcome" "LEFT" None;
           Plugin.Node "1:3" "Row" "GROUP" EmptyString EmptyString
             (Some [Plugin.Node "1:4" "Date" "TEXT" "JAN" "RIGHT" None;
                    Plugin.Node "1:5" "Price" "TEXT" "$5" "CENTER" None]);
           Plugin.Node "1:6" "Box" "RECTANGLE" EmptyString EmptyString None]).

Definition clone : Plugin.SceneNode :=
  Plugin.Node "2:1" "Card — ar" "FRAME" EmptyString EmptyString
    (Some [Plugin.Node "2:2" "Title" "TEXT" "Welcome" "LEFT" None;
           Plugin.Node "2:3" "Row" "GROUP" EmptyString EmptyString
             (Some [Plugin.Node "2:4" "Date" "TEXT" "JAN" "RIGHT" None;
                    Plugin.Node "2:5" "Price" "TEXT" "$5" "CENTER" None]);
           Plugin.Node "2:6" "Box" "RECTANGLE" EmptyString EmptyString None]).

End Cases.

(** * Properties *)

(** ** Rate limiting *)

Section RateLimit.

Implicit Types (σ : State) (userId : string) (now : Z).

Lemma checkRateLimit_below σ now userId :
  (currentCount now userId σ < DAILY_LIMIT)%Z ->
  checkRateLimit now userId σ =
    (Ok {| allowed := true; remaining := (DAILY_LIMIT - currentCount now userId σ - 1)%Z |},
     {| RATE_LIMIT :=
          <["rate:" +:+ userId :=
              {| value := (currentCount now userId σ + 1)%Z;
                 expiration := (now + DAY_IN_SECONDS)%Z |}]> (RATE_LIMIT σ);
        outbound := outbound σ |}).
Proof.
  intros Hlt. unfold checkRateLimit, currentCount in *.
  unfold mbind, Eff_bind, kvGet, kvPut, mret, Eff_ret.
  destruct (Z.leb_spec DAILY_LIMIT (default 0%Z (kvRead now ("rate:" +:+ userId) (RATE_LIMIT σ))));
    [lia | reflexivity].
Qed.

Lemma checkRateLimit_reached σ now userId :
  (DAILY_LIMIT <= currentCount now userId σ)%Z ->
  checkRateLimit now userId σ = (Ok {| allowed := false; remaining := 0 |}, σ).
Proof.
  intros Hge. unfold checkRateLimit, currentCount in *.
  unfold mbind, Eff_bind, kvGet, mret, Eff_ret.
  destruct (Z.leb_spec DAILY_LIMIT (default 0%Z (kvRead now ("rate:" +:+ userId) (RATE_LIMIT σ))));
    [reflexivity | lia].
Qed.

(** The two outcomes of a call, read off its result. *)
Lemma checkRateLimit_inv σ now userId r σ' :
  checkRateLimit now userId σ = (Ok r, σ') ->
  (allowed r = false /\ remaining r = 0%Z /\ σ' = σ
     /\ (DAILY_LIMIT <= currentCount now userId σ)%Z)
  \/ (allowed r = true
     /\ remaining r = (DAILY_LIMIT - currentCount now userId σ - 1)%Z
     /\ (currentCount now userId σ < DAILY_LIMIT)%Z
     /\ RATE_LIMIT σ' =
          <["rate:" +:+ userId :=
              {| value := (currentCount now userId σ + 1)%Z;
                 expiration := (now + DAY_IN_SECONDS)%Z |}]> (RATE_LIMIT σ)
     /\ outbound σ' = outbound σ).
Proof.
  intros Hrun.
  destruct (Z.lt_ge_cases (currentCount now userId σ) DAILY_LIMIT) as [Hlt | Hge].
  - rewrite (checkRateLimit_below _ _ _ Hlt) in Hrun. inversion Hrun; subst; clear Hrun.
    right. simpl. auto.
  - rewrite (checkRateLimit_reached _ _ _ Hge) in Hrun. inversion Hrun; subst; clear Hrun.
    left. simpl. auto.
Qed.

Lemma checkRateLimit_never_throws σ now userId :
  exists r σ', checkRateLimit now userId σ = (Ok r, σ').
Proof.
  destruct (Z.lt_ge_cases (currentCount now userId σ) DAILY_LIMIT) as [Hlt | Hge].
  - rewrite (checkRateLimit_below _ _ _ Hlt). eauto.
  - rewrite (checkRateLimit_reached _ _ _ Hge). eauto.
Qed.

(** A live record read inside its day. *)
Lemma currentCount_live σ now userId c e :
  RATE_LIMIT σ !! ("rate:" +:+ userId) = Some {| value := c; expiration := e |} ->
  (now < e)%Z ->
  currentCount now userId σ = c.
Proof.
  intros Hlook Hnow. unfold currentCount, kvRead. rewrite Hlook. simpl.
  destruct (Z.ltb_spec now e); [reflexivity | lia].
Qed.



(** [checkRateLimit] is its two steps run back to back. *)
Lemma checkRateLimit_steps σ now userId :
  runSchedule [(0%nat, now); (0%nat, now)] [AwaitGet userId] σ =
    let '(o, σ') := checkRateLimit now userId σ in
    ((fun r => [Returned r]) <$> o, σ').
Proof.
  destruct (Z.lt_ge_cases (currentCount now userId σ) DAILY_LIMIT) as [Hlt | Hge].
  - rewrite (checkRateLimit_below _ _ _ Hlt). unfold currentCount in *.
    simpl. unfold mbind, Eff_bind, kvGet, kvPut, mret, Eff_ret. simpl.
    destruct (Z.leb_spec DAILY_LIMIT
                (default 0%Z (kvRead now ("rate:" +:+ userId) (RATE_LIMIT σ)))); [lia |].
    reflexivity.
  - rewrite (checkRateLimit_reached _ _ _ Hge). unfold currentCount in *.
    simpl. unfold mbind, Eff_bind, kvGet, mret, Eff_ret. simpl.
    destruct (Z.leb_spec DAILY_LIMIT
                (default 0%Z (kvRead now ("rate:" +:+ userId) (RATE_LIMIT σ)))); [| lia].
    reflexivity.
Qed.

(** Two calls whose steps do not interleave are two calls in sequence. *)
Lemma runSchedule_serial σ t1 t2 userId1 userId2 :
  runSchedule [(0%nat, t1); (0%nat, t1); (1%nat, t2); (1%nat, t2)]
    [AwaitGet userId1; AwaitGet userId2] σ =
    (r1 ← checkRateLimit t1 userId1;
     r2 ← checkRateLimit t2 userId2;
     mret [Returned r1; Returned r2]) σ.
Proof.
  unfold checkRateLimit. simpl.
  unfold mbind, Eff_bind, kvGet, kvPut, mret, Eff_ret. simpl.
  destruct (DAILY_LIMIT <=? default 0 (kvRead t1 ("rate:" +:+ userId1) (RATE_LIMIT σ)))%Z;
    simpl;
    match goal with
    | |- context [(DAILY_LIMIT <=? ?c)%Z] => destruct (DAILY_LIMIT <=? c)%Z
    end; reflexivity.
Qed.


(** The handler on a request whose caller is under the limit: the count
    goes up, then the [try] block runs. *)
Lemma fetch_admitted {rt : Runtime} (net : Network) σ now request env :
  method request = "POST" ->
  configured (AZURE_TRANSLATOR_KEY env) = true ->
  configured (AZURE_TRANSLATOR_REGION env) = true ->
  (currentCount now (userIdOf request) σ < DAILY_LIMIT)%Z ->
  fetch net now request env σ =
    try_catch
      (translation net env request
         {| allowed := true;
            remaining := (DAILY_LIMIT - currentCount now (userIdOf request) σ - 1)%Z |})
      (fun err =>
         mret {| status := 502; content := JsonError (TranslationError err) false;
                 X_RateLimit_Remaining := None |})
      {| RATE_LIMIT :=
           <["rate:" +:+ userIdOf request :=
               {| value := (currentCount now (userIdOf request) σ + 1)%Z;
                  expiration := (now + DAY_IN_SECONDS)%Z |}]> (RATE_LIMIT σ);
         outbound := outbound σ |}.
Proof.
  intros Hpost Hkey Hregion Hroom. unfold fetch.
  rewrite Hpost, Hkey, Hregion. simpl.
  unfold mbind, Eff_bind. rewrite (checkRateLimit_below _ _ _ Hroom). reflexivity.
Qed.

End RateLimit.




(** C4, as the worker does it. An allowed call reads the count [c] of the
    identity, answers [{allowed: true, remaining: 25 - c - 1}] and stores
    [c + 1] with an expiry one day after this very call: the time to live is
    set again by every allowed call. *)
Theorem allowed_admission_restarts_the_day (σ σ' : State) (now : Z) (userId : string)
    (r : RateCheck) :
  checkRateLimit now userId σ = (Ok r, σ') ->
  allowed r = true ->
  remaining r = (DAILY_LIMIT - currentCount now userId σ - 1)%Z
  /\ RATE_LIMIT σ' !! ("rate:" +:+ userId)
       = Some {| value := (currentCount now userId σ + 1)%Z;
                 expiration := (now + DAY_IN_SECONDS)%Z |}.
Proof.
  intros Hrun Hallowed.
  destruct (checkRateLimit_inv _ _ _ _ _ Hrun) as [(Hden & _) | (_ & Hrem & _ & Hkv & _)];
    [congruence |].
  split; [exact Hrem |]. rewrite Hkv. apply lookup_insert_eq.
Qed.

(** C4 on the first call of a fresh identity. *)
Lemma allowed_admission_restarts_the_day_at_scenario :
  remaining {| allowed := true; remaining := 24 |}
    = (DAILY_LIMIT - currentCount 0%Z "u" Scenario.fresh - 1)%Z
  /\ RATE_LIMIT (checkRateLimit 0%Z "u" Scenario.fresh).2 !! ("rate:" +:+ "u")
       = Some {| value := (currentCount 0%Z "u" Scenario.fresh + 1)%Z;
                 expiration := (0 + DAY_IN_SECONDS)%Z |}.
Proof.
  apply (allowed_admission_restarts_the_day Scenario.fresh
           (checkRateLimit 0%Z "u" Scenario.fresh).2 0%Z "u"
           {| allowed := true; remaining := 24 |}).
  - vm_compute. reflexivity.
  - reflexivity.
Defined.

(** C4 as stated fails: a second allowed call 1000 seconds into the day
    moves the expiry from 86400 to 87400. *)
Lemma second_admission_moves_the_expiry :
  let first := checkRateLimit 0%Z "u" Scenario.fresh in
  let second := checkRateLimit 1000%Z "u" first.2 in
  first.1 = Ok {| allowed := true; remaining := 24 |}
  /\ RATE_LIMIT first.2 !! "rate:u" = Some {| value := 1; expiration := 86400 |}
  /\ second.1 = Ok {| allowed := true; remaining := 23 |}
  /\ RATE_LIMIT second.2 !! "rate:u" = Some {| value := 2; expiration := 87400 |}.
Proof. vm_compute. repeat split; reflexivity. Qed.

(** C9, as the worker does it. The admission is a read ([get]) followed by
    a separate write ([put]), not one atomic operation. When two calls for
    one identity run one after the other, the second inside the day of the
    first, the second reads the count the first wrote: they are allowed on
    the counts [c] and [c + 1], and the store ends at [c + 2]. When the two
    reads come before the two writes, both calls read the same count [c],
    both are allowed on it with the same remaining, and the store ends at
    [c + 1]. *)
Theorem admission_is_a_read_then_a_write (σ : State) (userId : string) (t1 t2 : Z) :
  let c := currentCount t1 userId σ in
  ((t2 < t1 + DAY_IN_SECONDS)%Z -> (c + 1 < DAILY_LIMIT)%Z ->
   exists σ',
     runSchedule [(0%nat, t1); (0%nat, t1); (1%nat, t2); (1%nat, t2)]
       [AwaitGet userId; AwaitGet userId] σ
     = (Ok [Returned {| allowed := true; remaining := (DAILY_LIMIT - c - 1)%Z |};
            Returned {| allowed := true; remaining := (DAILY_LIMIT - (c + 1) - 1)%Z |}], σ')
     /\ RATE_LIMIT σ' !! ("rate:" +:+ userId)
          = Some {| value := (c + 2)%Z; expiration := (t2 + DAY_IN_SECONDS)%Z |})
  /\ ((c < DAILY_LIMIT)%Z ->
      exists σ',
        runSchedule [(0%nat, t1); (1%nat, t1); (0%nat, t1); (1%nat, t2)]
          [AwaitGet userId; AwaitGet userId] σ
        = (Ok [Returned {| allowed := true; remaining := (DAILY_LIMIT - c - 1)%Z |};
               Returned {| allowed := true; remaining := (DAILY_LIMIT - c - 1)%Z |}], σ')
        /\ RATE_LIMIT σ' !! ("rate:" +:+ userId)
             = Some {| value := (c + 1)%Z; expiration := (t2 + DAY_IN_SECONDS)%Z |}).
Proof.
  intros c. split.
  - intros Hday Hroom. rewrite runSchedule_serial. unfold mbind, Eff_bind.
    assert (Hfirst : (currentCount t1 userId σ < DAILY_LIMIT)%Z) by (fold c; lia).
    rewrite (checkRateLimit_below _ _ _ Hfirst). fold c.
    set (σ1 := {| RATE_LIMIT := _; outbound := _ |}).
    assert (Hc : currentCount t2 userId σ1 = (c + 1)%Z).
    { apply (currentCount_live _ _ _ _ (t1 + DAY_IN_SECONDS)%Z); [| exact Hday].
      unfold σ1. simpl. apply lookup_insert_eq. }
    assert (Hsecond : (currentCount t2 userId σ1 < DAILY_LIMIT)%Z) by lia.
    rewrite (checkRateLimit_below _ _ _ Hsecond). rewrite Hc. unfold mret, Eff_ret.
    eexists. split; [reflexivity |]. simpl. rewrite lookup_insert_eq.
    f_equal. f_equal. lia.
  - intros Hroom. subst c. unfold currentCount in *.
    assert (Hleb : (DAILY_LIMIT <=? default 0 (kvRead t1 ("rate:" +:+ userId) (RATE_LIMIT σ)))%Z
                   = false) by (apply Z.leb_gt; exact Hroom).
    simpl. unfold mbind, Eff_bind, kvGet, kvPut, mret, Eff_ret. simpl.
    rewrite Hleb. simpl. rewrite Hleb. simpl.
    eexists. split; [reflexivity |]. simpl. apply lookup_insert_eq.
Qed.

(** C9 on two calls of a fresh identity, five seconds apart. *)
Lemma admission_is_a_read_then_a_write_at_scenario :
  (exists σ',
     runSchedule [(0%nat, 0%Z); (0%nat, 0%Z); (1%nat, 5%Z); (1%nat, 5%Z)]
       [AwaitGet "u"; AwaitGet "u"] Scenario.fresh
     = (Ok [Returned {| allowed := true; remaining := 24 |};
            Returned {| allowed := true; remaining := 23 |}], σ')
     /\ RATE_LIMIT σ' !! ("rate:" +:+ "u") = Some {| value := 2; expiration := 86405 |})
  /\ (exists σ',
        runSchedule [(0%nat, 0%Z); (1%nat, 0%Z); (0%nat, 0%Z); (1%nat, 5%Z)]
          [AwaitGet "u"; AwaitGet "u"] Scenario.fresh
        = (Ok [Returned {| allowed := true; remaining := 24 |};
               Returned {| allowed := true; remaining := 24 |}], σ')
        /\ RATE_LIMIT σ' !! ("rate:" +:+ "u") = Some {| value := 1; expiration := 86405 |}).
Proof.
  destruct (admission_is_a_read_then_a_write Scenario.fresh "u" 0%Z 5%Z) as [Hserial Hrace].
  split.
  - apply Hserial; [unfold DAY_IN_SECONDS; lia | vm_compute; reflexivity].
  - apply Hrace. vm_compute. reflexivity.
Defined.

(** C9 as stated fails: two calls for one identity whose reads both come
    before either write read the same count 0, are both allowed with
    remaining 24, and leave the stored count at 1. *)
Lemma interleaved_admissions_share_a_count :
  let calls := [AwaitGet "u"; AwaitGet "u"] in
  let afterReads := runSchedule [(0%nat, 0%Z); (1%nat, 0%Z)] calls Scenario.fresh in
  let afterWrites :=
    runSchedule [(0%nat, 0%Z); (1%nat, 0%Z); (0%nat, 0%Z); (1%nat, 0%Z)] calls Scenario.fresh in
  afterReads.1 = Ok [AwaitPut "u" 0; AwaitPut "u" 0]
  /\ afterWrites.1 = Ok [Returned {| allowed := true; remaining := 24 |};
                         Returned {| allowed := true; remaining := 24 |}]
  /\ RATE_LIMIT afterWrites.2 !! "rate:u" = Some {| value := 1; expiration := 86400 |}.
Proof. vm_compute. repeat split; reflexivity. Qed.

(** ** The dictionary pass and the Azure batch *)

Section Azure.
Context {rt : Runtime} (net : Network).

Implicit Types (layers : list TextItem.t) (results : list (option Translation.t)).

Lemma arraySet_length {A : Type} (a : list (option A)) (i : nat) (x : A) :
  (i < length a)%nat -> length (arraySet a i x) = length a.
Proof.
  intros Hi. unfold arraySet. rewrite bool_decide_eq_true_2 by exact Hi. apply length_insert.
Qed.

Lemma arraySet_lookup_eq {A : Type} (a : list (option A)) (i : nat) (x : A) :
  (i < length a)%nat -> arraySet a i x !! i = Some (Some x).
Proof.
  intros Hi. unfold arraySet. rewrite bool_decide_eq_true_2 by exact Hi.
  apply list_lookup_insert_eq. exact Hi.
Qed.

Lemma arraySet_lookup_ne {A : Type} (a : list (option A)) (i j : nat) (x : A) :
  (i < length a)%nat -> i <> j -> arraySet a i x !! j = a !! j.
Proof.
  intros Hi Hne. unfold arraySet. rewrite bool_decide_eq_true_2 by exact Hi.
  apply list_lookup_insert_ne. exact Hne.
Qed.

(** Filling the first hole after a filled prefix. *)
Lemma arraySet_next_hole {A : Type} (filled rest : list (option A)) (x : A) :
  arraySet (filled ++ None :: rest) (length filled) x = filled ++ Some x :: rest.
Proof.
  unfold arraySet. rewrite bool_decide_eq_true_2.
  - pose proof (insert_app_r filled (None :: rest) 0 (Some x)) as Hins.
    rewrite Nat.add_0_r in Hins. exact Hins.
  - rewrite length_app. simpl. lia.
Qed.

Lemma missesFrom_items i targetLocale layers :
  (missesFrom i targetLocale layers).*2 = List.filter (misses targetLocale) layers.
Proof.
  revert i. induction layers as [| layer rest IH]; intros i; simpl; [reflexivity |].
  destruct (misses targetLocale layer); simpl; rewrite IH; reflexivity.
Qed.

Lemma missesFrom_elem i targetLocale layers j layer :
  (j, layer) ∈ missesFrom i targetLocale layers <->
  (i <= j)%nat /\ layers !! (j - i)%nat = Some layer /\ misses targetLocale layer = true.
Proof.
  revert i. induction layers as [| l rest IH]; intros i; simpl.
  - split; [intros H; inversion H | intros (_ & H & _); discriminate].
  - assert (Hrest : (j, layer) ∈ missesFrom (S i) targetLocale rest <->
              (i < j)%nat /\ rest !! (j - S i)%nat = Some layer
              /\ misses targetLocale layer = true).
    { rewrite IH. split; intros (? & ? & ?); repeat split; try done; lia. }
    assert (Hhere : forall k, (i < k)%nat -> (l :: rest) !! (k - i)%nat = rest !! (k - S i)%nat).
    { intros k Hk. replace (k - i)%nat with (S (k - S i)) by lia. reflexivity. }
    destruct (misses targetLocale l) eqn:Hl.
    + rewrite elem_of_cons, Hrest. split.
      * intros [Heq | (Hlt & Hlook & Hmiss)].
        -- inversion Heq; subst. rewrite Nat.sub_diag. simpl. auto.
        -- rewrite Hhere by exact Hlt. split; [lia | auto].
      * intros (Hle & Hlook & Hmiss).
        destruct (decide (j = i)) as [-> | Hne].
        -- rewrite Nat.sub_diag in Hlook. simpl in Hlook. left. congruence.
        -- right. rewrite Hhere in Hlook by lia. split; [lia | auto].
    + rewrite Hrest. split.
      * intros (Hlt & Hlook & Hmiss). rewrite Hhere by exact Hlt. split; [lia | auto].
      * intros (Hle & Hlook & Hmiss).
        destruct (decide (j = i)) as [-> | Hne].
        -- rewrite Nat.sub_diag in Hlook. simpl in Hlook. congruence.
        -- rewrite Hhere in Hlook by lia. split; [lia | auto].
Qed.

(** The first loop, when it does not throw: every item has its
    dictionary result or a hole at its position, the misses are queued in
    order with their positions, and no lookup threw. *)
Lemma splitLayers_spec targetLocale layers : forall i filled azureLayers results' azureLayers',
  length filled = i ->
  splitLayers i layers targetLocale (filled ++ replicate (length layers) None) azureLayers
    = Ok (results', azureLayers') ->
  results' = filled ++ (dictionaryResult targetLocale <$> layers)
  /\ azureLayers' = azureLayers ++ missesFrom i targetLocale layers
  /\ Forall (fun l => resolves targetLocale l || misses targetLocale l = true) layers.
Proof.
  induction layers as [| layer rest IH]; intros i filled azureLayers results' azureLayers' Hlen Hrun.
  - simpl in *. inversion Hrun; subst. rewrite !app_nil_r. auto.
  - simpl in Hrun. unfold dictionaryResult at 1. simpl.
    unfold mbind, outcome_bind in Hrun.
    destruct (lookupAbbrev (TextItem.text layer) targetLocale) as [[m |] | e] eqn:Hlook;
      [| | discriminate].
    + rewrite <- Hlen, arraySet_next_hole in Hrun.
      replace (filled ++ Some (Translation.mk (TextItem.id layer) m) :: replicate (length rest) None)
        with ((filled ++ [Some (Translation.mk (TextItem.id layer) m)])
                ++ replicate (length rest) None) in Hrun
        by (rewrite <- app_assoc; reflexivity).
      apply IH in Hrun as (Hres & Haz & Hall); [| rewrite length_app; simpl; lia].
      repeat split.
      * rewrite Hres, <- app_assoc. reflexivity.
      * rewrite Haz. unfold misses. rewrite Hlook, Hlen. reflexivity.
      * constructor; [unfold resolves; rewrite Hlook; reflexivity | exact Hall].
    + replace (filled ++ None :: replicate (length rest) None)
        with ((filled ++ [None]) ++ replicate (length rest) None) in Hrun
        by (rewrite <- app_assoc; reflexivity).
      apply IH in Hrun as (Hres & Haz & Hall); [| rewrite length_app; simpl; lia].
      repeat split.
      * rewrite Hres, <- app_assoc. reflexivity.
      * rewrite Haz, <- app_assoc. unfold misses. rewrite Hlook. reflexivity.
      * constructor; [unfold resolves, misses; rewrite Hlook; reflexivity | exact Hall].
Qed.

(** The first loop throws only where a lookup throws. *)
Lemma splitLayers_total targetLocale layers : forall i results azureLayers,
  Forall (fun l => resolves targetLocale l || misses targetLocale l = true) layers ->
  exists results' azureLayers',
    splitLayers i layers targetLocale results azureLayers = Ok (results', azureLayers').
Proof.
  induction layers as [| layer rest IH]; intros i results azureLayers Hall; simpl.
  - eauto.
  - apply Forall_cons in Hall as [Hl Hall]. unfold resolves, misses in Hl.
    unfold mbind, outcome_bind.
    destruct (lookupAbbrev (TextItem.text layer) targetLocale) as [[m |] | e];
      [apply IH, Hall | apply IH, Hall | discriminate].
Qed.

Lemma resolves_not_misses targetLocale (layer : TextItem.t) :
  resolves targetLocale layer = true -> misses targetLocale layer = false.
Proof.
  unfold resolves, misses.
  destruct (lookupAbbrev (TextItem.text layer) targetLocale) as [[m |] | e]; congruence.
Qed.

Lemma filter_misses_resolved targetLocale layers :
  Forall (fun l => resolves targetLocale l = true) layers ->
  List.filter (misses targetLocale) layers = [].
Proof.
  induction 1 as [| layer rest Hl _ IH]; simpl; [reflexivity |].
  rewrite (resolves_not_misses _ _ Hl). exact IH.
Qed.

Lemma filter_misses_unresolved targetLocale layers :
  Forall (fun l => resolves targetLocale l = false) (List.filter (misses targetLocale) layers).
Proof.
  induction layers as [| layer rest IH]; simpl; [constructor |].
  destruct (misses targetLocale layer) eqn:Hmiss; [| exact IH].
  constructor; [| exact IH]. unfold resolves, misses in *.
  destruct (lookupAbbrev (TextItem.text layer) targetLocale) as [[m |] | e]; congruence.
Qed.

(** What [translateWithAzure] sends out: nothing, or one request whose
    body is made of the dictionary misses, in order. *)
Lemma translateWithAzure_outbound env targetLocale layers σ :
  let σ' := (translateWithAzure net env layers targetLocale σ).2 in
  let batch := List.filter (misses targetLocale) layers in
  RATE_LIMIT σ' = RATE_LIMIT σ
  /\ (outbound σ' = outbound σ
      /\ (batch = []
          \/ ~ Forall (fun l => resolves targetLocale l || misses targetLocale l = true) layers)
      \/ outbound σ' =
           outbound σ ++ [AzureCall (AZURE_TRANSLATOR_KEY env) (AZURE_TRANSLATOR_REGION env)
                            targetLocale (contextText <$> batch)]
         /\ batch <> []
         /\ Forall (fun l => resolves targetLocale l || misses targetLocale l = true) layers).
Proof.
  unfold translateWithAzure. unfold mbind, Eff_bind, lift. simpl.
  pose proof (splitLayers_spec targetLocale layers 0 [] []) as Hspec.
  pose proof (splitLayers_total targetLocale layers 0
                (replicate (length layers) None) []) as Htotal.
  simpl in Hspec.
  destruct (splitLayers 0 layers targetLocale (replicate (length layers) None) [])
    as [[results azureLayers] | e].
  - destruct (Hspec _ _ eq_refl eq_refl) as (_ & Haz & Hall). simpl in Haz.
    pose proof (missesFrom_items 0 targetLocale layers) as Hitems. rewrite <- Haz in Hitems.
    destruct azureLayers as [| [i0 layer0] azureLayers].
    + simpl in *. split; [reflexivity |]. left. split; [reflexivity |]. left. congruence.
    + unfold call. simpl.
      assert (Hbody : contextText layer0 :: map (fun '(_, layer) => contextText layer) azureLayers
                      = contextText <$> List.filter (misses targetLocale) layers).
      { rewrite <- Hitems. simpl. f_equal. clear.
        induction azureLayers as [| [i l] rest IH]; simpl; [reflexivity |]. f_equal. exact IH. }
      simpl in Hbody. rewrite Hbody.
      assert (Hne : List.filter (misses targetLocale) layers <> []).
      { rewrite <- Hitems. discriminate. }
      destruct (azure net targetLocale (contextText <$> List.filter (misses targetLocale) layers))
        as [| status errText | [azureResults |]]; simpl;
        (split; [reflexivity | right; repeat split; [exact Hne | exact Hall]]).
  - simpl. split; [reflexivity |]. left. split; [reflexivity |]. right.
    intros Hall. destruct (Htotal Hall) as (? & ? & ?). discriminate.
Qed.

Lemma mergeAzure_fills layers azureResults : forall azureLayers i results results',
  mergeAzure i azureLayers azureResults results = Ok results' ->
  (forall j layer, (j, layer) ∈ azureLayers -> layers !! j = Some layer) ->
  filledOrQueued layers results azureLayers ->
  filledOrQueued layers results' [].
Proof.
  induction azureLayers as [| [originalIndex layer] rest IH];
    intros i results results' Hrun Hqueue Hinv; simpl in Hrun.
  - inversion Hrun; subst. exact Hinv.
  - unfold mbind, outcome_bind in Hrun.
    destruct (azureText azureResults i) as [found | e]; [| discriminate].
    destruct (jsOr found (JStr (TextItem.text layer))) as [| | | | translated | | |];
      try discriminate.
    destruct Hinv as [Hlen Hslots].
    assert (Hin : layers !! originalIndex = Some layer) by (apply Hqueue; left).
    assert (Hlt : (originalIndex < length results)%nat).
    { rewrite Hlen. apply lookup_lt_Some in Hin. exact Hin. }
    apply IH in Hrun; [exact Hrun | |].
    + intros j l Hj. apply Hqueue. right. exact Hj.
    + split; [rewrite arraySet_length by exact Hlt; exact Hlen |].
      intros j l Hl. destruct (decide (originalIndex = j)) as [<- | Hne].
      * left. eexists. split; [apply arraySet_lookup_eq; exact Hlt |]. simpl. congruence.
      * rewrite arraySet_lookup_ne by done.
        destruct (Hslots j l Hl) as [Hfilled | Hq]; [left; exact Hfilled |].
        right. apply elem_of_cons in Hq as [Heq | Hq]; [congruence | exact Hq].
Qed.

(** An array in which every item has its id in its slot. *)
Lemma filled_ids layers results :
  filledOrQueued layers results [] ->
  ids results = Some ∘ TextItem.id <$> layers.
Proof.
  intros [Hlen Hslots]. apply list_eq. intros j. unfold ids. rewrite !list_lookup_fmap.
  destruct (layers !! j) as [layer |] eqn:Hlayer; simpl.
  - destruct (Hslots j layer Hlayer) as [(r & Hr & Hid) | Hq]; [| inversion Hq].
    rewrite Hr. simpl. rewrite Hid. reflexivity.
  - apply lookup_ge_None in Hlayer. rewrite <- Hlen in Hlayer.
    apply lookup_ge_None in Hlayer. rewrite Hlayer. reflexivity.
Qed.

(** The array [translateWithAzure] returns has no hole and carries, at
    every index, the id of the item at that index. *)
Lemma translateWithAzure_ids env targetLocale layers σ results σ' :
  translateWithAzure net env layers targetLocale σ = (Ok results, σ') ->
  ids results = Some ∘ TextItem.id <$> layers.
Proof.
  unfold translateWithAzure. unfold mbind, Eff_bind, lift, throw, mret, Eff_ret. simpl.
  pose proof (splitLayers_spec targetLocale layers 0 [] []) as Hspec. simpl in Hspec.
  destruct (splitLayers 0 layers targetLocale (replicate (length layers) None) [])
    as [[results0 azureLayers] | e]; [| discriminate].
  destruct (Hspec _ _ eq_refl eq_refl) as (Hres & Haz & Hall). simpl in Haz.
  assert (Hinv : filledOrQueued layers results0 azureLayers).
  { split; [rewrite Hres, length_fmap; reflexivity |]. intros j layer Hlayer.
    rewrite Hres, list_lookup_fmap, Hlayer. simpl.
    rewrite Forall_forall in Hall. specialize (Hall layer (list_elem_of_lookup_2 _ _ _ Hlayer)).
    unfold dictionaryResult. unfold resolves, misses in Hall.
    destruct (lookupAbbrev (TextItem.text layer) targetLocale) as [[m |] | e] eqn:Hlook;
      [| | discriminate].
    - left. eexists. split; reflexivity.
    - right. rewrite Haz. apply missesFrom_elem. rewrite Nat.sub_0_r.
      repeat split; [lia | exact Hlayer |]. unfold misses. rewrite Hlook. reflexivity. }
  assert (Hqueue : forall j layer, (j, layer) ∈ azureLayers -> layers !! j = Some layer).
  { intros j layer Hj. rewrite Haz in Hj. apply missesFrom_elem in Hj as (_ & Hj & _).
    rewrite Nat.sub_0_r in Hj. exact Hj. }
  destruct azureLayers as [| [i0 layer0] azureLayers].
  - intros Hrun. injection Hrun as <- <-. apply filled_ids. exact Hinv.
  - unfold call. cbv beta iota.
    remember ((i0, layer0) :: azureLayers) as queue eqn:Hq.
    destruct (azure net targetLocale _) as [| status errText | [azureResults |]];
      try discriminate.
    destruct (mergeAzure 0 queue azureResults results0) as [merged | e] eqn:Hmerge;
      [| discriminate].
    intros Hrun. injection Hrun as <- <-. apply filled_ids.
    apply (mergeAzure_fills layers azureResults _ _ _ _ Hmerge Hqueue Hinv).
Qed.

End Azure.

(** C7. Whatever [translateWithAzure] sends to the provider is a single
    request whose body holds exactly the items the dictionary misses, in
    their order: no item that the dictionary resolves is in it. When every
    item resolves, no request is sent at all; when no lookup throws and
    some item is missed, the request is sent. *)
Theorem provider_batch_is_the_dictionary_misses {rt : Runtime} (net : Network) (env : Env)
    (targetLocale : string) (layers : list TextItem.t) (σ : State) :
  let σ' := (translateWithAzure net env layers targetLocale σ).2 in
  let batch := List.filter (misses targetLocale) layers in
  let request :=
    AzureCall (AZURE_TRANSLATOR_KEY env) (AZURE_TRANSLATOR_REGION env) targetLocale
      (contextText <$> batch) in
  (outbound σ' = outbound σ \/ outbound σ' = outbound σ ++ [request])
  /\ Forall (fun l => resolves targetLocale l = false) batch
  /\ (Forall (fun l => resolves targetLocale l = true) layers -> outbound σ' = outbound σ)
  /\ (Forall (fun l => resolves targetLocale l || misses targetLocale l = true) layers ->
      batch <> [] -> outbound σ' = outbound σ ++ [request]).
Proof.
  intros σ' batch request. subst σ' batch request.
  destruct (translateWithAzure_outbound net env targetLocale layers σ)
    as (_ & [(Hsame & Hwhy) | (Hsent & Hne & Hall)]).
  - split; [left; exact Hsame |]. split; [| split].
    + apply filter_misses_unresolved.
    + intros _. exact Hsame.
    + intros Hall Hne. destruct Hwhy as [Hnil | Hthrows]; [congruence | contradiction].
  - split; [right; exact Hsent |]. split; [| split].
    + apply filter_misses_unresolved.
    + intros Hres. exfalso. apply Hne. apply filter_misses_resolved. exact Hres.
    + intros _ _. exact Hsent.
Qed.

(** ** The refinement stage *)

Section Refine.
Context {rt : Runtime} (net : Network).

Implicit Types (azureResults : list (option Translation.t)) (rs : list jsval).

Lemma sameValueZero_eq (a b : jsval) : sameValueZero a b = true -> a = b.
Proof.
  destruct a, b; simpl; try discriminate; intros H; try reflexivity.
  - apply Bool.eqb_prop in H. congruence.
  - apply Z.eqb_eq in H. congruence.
  - apply String.eqb_eq in H. congruence.
  - apply String.eqb_eq in H. congruence.
Qed.

(** [m.get] after [m.set], at a string key. *)
Lemma mapGet_mapSet (m : list (jsval * string)) (k : jsval) (v : string) (i : string) :
  mapGet (mapSet m k v) (JStr i) =
    if sameValueZero k (JStr i) then Some v else mapGet m (JStr i).
Proof.
  induction m as [| [k0 v0] rest IH]; simpl; [reflexivity |].
  destruct (sameValueZero k0 k) eqn:Hk0; simpl.
  - apply sameValueZero_eq in Hk0 as ->.
    destruct (sameValueZero k (JStr i)); reflexivity.
  - rewrite IH. destruct (sameValueZero k0 (JStr i)) eqn:Hi; [| reflexivity].
    apply sameValueZero_eq in Hi as ->.
    destruct (sameValueZero k (JStr i)) eqn:Hki; [| reflexivity].
    apply sameValueZero_eq in Hki as ->. simpl in Hk0. rewrite String.eqb_refl in Hk0.
    discriminate.
Qed.

(** What the map built from the answer holds under a string key. *)
Lemma collectRefined_get (i : string) rs : forall m m',
  collectRefined rs m = Ok m' ->
  mapGet m' (JStr i) =
    match refinedText rs i with
    | Some t => Some t
    | None => mapGet m (JStr i)
    end.
Proof.
  induction rs as [| r rest IH]; intros m m' Hrun; simpl in Hrun.
  - inversion Hrun; subst. reflexivity.
  - unfold mbind, outcome_bind, getField in Hrun.
    destruct (nullish r) eqn:Hnull; [discriminate |].
    simpl refinedText. unfold refinedRecord.
    destruct (truthy (field r "id")) eqn:Htruthy.
    + destruct (field r "translated") as [| | | | t | | |] eqn:Htr;
        try (rewrite (IH _ _ Hrun); destruct (refinedText rest i); [reflexivity |];
             destruct (field r "id"); reflexivity).
      rewrite (IH _ _ Hrun). destruct (refinedText rest i); [reflexivity |].
      rewrite mapGet_mapSet.
      destruct (field r "id") as [| | | | i' | | |] eqn:Hid; simpl; try reflexivity.
      destruct (String.eqb_spec i' i) as [-> | Hne]; simpl; [| reflexivity].
      simpl in Htruthy. rewrite Htruthy. reflexivity.
    + rewrite (IH _ _ Hrun). destruct (refinedText rest i); [reflexivity |].
      destruct (field r "id") as [| | | | i' | | |] eqn:Hid; simpl; try reflexivity.
      destruct (field r "translated"); try reflexivity.
      destruct (String.eqb_spec i' i) as [-> | Hne]; simpl; [| reflexivity].
      simpl in Htruthy. apply negb_false_iff in Htruthy. rewrite Htruthy. reflexivity.
Qed.

(** The loop over the answer throws on a [null] element, and only there. *)
Lemma collectRefined_total rs : forall m,
  Forall (fun r => nullish r = false) rs <-> exists m', collectRefined rs m = Ok m'.
Proof.
  induction rs as [| r rest IH]; intros m; simpl.
  - split; [eauto | constructor].
  - unfold mbind, outcome_bind, getField. split.
    + intros Hall. apply Forall_cons in Hall as [Hr Hall]. rewrite Hr.
      destruct (truthy (field r "id")); [destruct (field r "translated") |]; apply IH, Hall.
    + destruct (nullish r) eqn:Hr; [intros [m' Hm']; discriminate |].
      intros Hrun. constructor; [exact Hr |].
      destruct (truthy (field r "id")); [destruct (field r "translated") |];
        apply IH in Hrun; exact Hrun.
Qed.

Lemma arrayMap_lookup {A B : Type} (f : nat -> A -> B) (a : list (option A)) (j : nat) :
  arrayMap f a !! j = fmap (f j) <$> a !! j.
Proof. unfold arrayMap. rewrite list_lookup_imap. reflexivity. Qed.

Lemma arrayMap_length {A B : Type} (f : nat -> A -> B) (a : list (option A)) :
  length (arrayMap f a) = length a.
Proof. unfold arrayMap. apply length_imap. Qed.

Lemma mergeRefined_ids (m : list (jsval * string)) azureResults :
  ids (mergeRefined m azureResults) = ids azureResults.
Proof.
  apply list_eq. intros j. unfold ids, mergeRefined.
  rewrite !list_lookup_fmap, arrayMap_lookup.
  destruct (azureResults !! j) as [[r |] |]; reflexivity.
Qed.

(** The two ways out of the [try] of [refineWithLLM]: the provider
    results as they came, or their merge with a list the answer parsed
    to. It does not throw and never touches the KV namespace. *)
Lemma refineRequest_shape env prompt azureResults σ :
  let run := refineRequest net env prompt azureResults σ in
  RATE_LIMIT run.2 = RATE_LIMIT σ
  /\ (run.1 = Ok azureResults
      \/ exists data rs refinedMap,
           openai net prompt = OpenAIJson (Some data)
           /\ refinedList data = Some rs
           /\ collectRefined rs [] = Ok refinedMap
           /\ run.1 = Ok (mergeRefined refinedMap azureResults)).
Proof.
  intros run. subst run. unfold refineRequest.
  unfold try_catch, mbind, Eff_bind, call, lift, throw, mret, Eff_ret. simpl.
  destruct (openai net prompt) as [| status | [data |]] eqn:Hreply; simpl; auto.
  unfold refinedList.
  destruct (contentOf data) as [[content |] | e] eqn:Hcontent; simpl; auto.
  destruct (String.eqb content EmptyString) eqn:Hempty; simpl; auto.
  destruct (JSON_parse (trim (replaceFenceClose (replaceFenceOpen content))))
    as [refined |] eqn:Hparse; simpl; auto.
  destruct refined as [| | | | | rs | |]; simpl; auto.
  unfold mbind, outcome_bind.
  destruct (collectRefined rs []) as [refinedMap | e] eqn:Hcollect; simpl; auto.
  split; [reflexivity |]. right. exists data, rs, refinedMap.
  rewrite Hcontent, Hempty, Hparse. auto.
Qed.

(** [refineWithLLM] on typed arguments: without a key the provider
    results, with a key the two ways out of its [try]. *)
Lemma refineWithLLM_shape env layers azureResults targetLocale localeLabel localeCurrencies σ :
  let prompt := refinementPrompt layers azureResults targetLocale localeLabel localeCurrencies in
  let run := refineWithLLM net env layers azureResults targetLocale localeLabel localeCurrencies σ in
  RATE_LIMIT run.2 = RATE_LIMIT σ
  /\ (run.1 = Ok azureResults
      \/ exists data rs refinedMap,
           configured (OPENAI_API_KEY env) = true
           /\ openai net prompt = OpenAIJson (Some data)
           /\ refinedList data = Some rs
           /\ collectRefined rs [] = Ok refinedMap
           /\ run.1 = Ok (mergeRefined refinedMap azureResults)).
Proof.
  intros prompt run. subst run. unfold refineWithLLM. fold prompt.
  destruct (configured (OPENAI_API_KEY env)) eqn:Hkey; cbn [negb]; [| simpl; auto].
  cbv zeta.
  destruct (refineRequest_shape env prompt azureResults σ)
    as (Hkv & [Hsame | (data & rs & refinedMap & Hreply & Hlist & Hcollect & Hmerged)]).
  - split; [exact Hkv | left; exact Hsame].
  - split; [exact Hkv |]. right. exists data, rs, refinedMap. auto.
Qed.

(** The merge, element by element. *)
Lemma mergeById_lookup rs azureResults out (j : nat) :
  mergeById (JArr rs) azureResults = Ok out ->
  out !! j =
    fmap (fun r =>
      Translation.mk (Translation.id r)
        match refinedText rs (Translation.id r) with
        | Some t => if String.eqb t EmptyString then Translation.translated r else JStr t
        | None => Translation.translated r
        end) <$> azureResults !! j.
Proof.
  unfold mergeById, mbind, outcome_bind.
  destruct (collectRefined rs []) as [refinedMap | e] eqn:Hcollect; [| discriminate].
  intros Hout. injection Hout as <-. unfold mergeRefined. rewrite arrayMap_lookup.
  destruct (azureResults !! j) as [[r |] |]; simpl; try reflexivity.
  rewrite (collectRefined_get (Translation.id r) _ _ _ Hcollect). simpl.
  destruct (refinedText rs (Translation.id r)) as [t |]; simpl; [| reflexivity].
  unfold jsOr. simpl. destruct (String.eqb t EmptyString); reflexivity.
Qed.

Lemma refinedText_absent rs (i : string) :
  Forall (fun x => field x "id" <> JStr i) rs -> refinedText rs i = None.
Proof.
  induction 1 as [| r rest Hr _ IH]; simpl; [reflexivity |]. rewrite IH.
  unfold refinedRecord. destruct (field r "id") as [| | | | i' | | |]; try reflexivity.
  destruct (field r "translated"); try reflexivity.
  destruct (String.eqb_spec i' i) as [-> | Hne]; [congruence | reflexivity].
Qed.

End Refine.

(** C5. When no OpenAI key is configured, when the call to OpenAI fails
    ([fetch] rejects, as on a network error or a timeout; the status is not
    a success; the body cannot be read), and when the answer has no content
    that parses to a list, [refineWithLLM] returns the provider results
    themselves. *)
Theorem refinement_falls_back_to_provider_results {rt : Runtime} (net : Network) (env : Env)
    (layers : list TextItem.t) (azureResults : list (option Translation.t))
    (targetLocale : string) (localeLabel : option string)
    (localeCurrencies : option (list string)) (σ : State) :
  let prompt := refinementPrompt layers azureResults targetLocale localeLabel localeCurrencies in
  configured (OPENAI_API_KEY env) = false
  \/ openai net prompt = OpenAIUnreachable
  \/ (exists status, openai net prompt = OpenAIStatus status)
  \/ openai net prompt = OpenAIJson None
  \/ (exists data, openai net prompt = OpenAIJson (Some data) /\ refinedList data = None) ->
  (refineWithLLM net env layers azureResults targetLocale localeLabel localeCurrencies σ).1
    = Ok azureResults.
Proof.
  intros prompt Hwhy.
  destruct (refineWithLLM_shape net env layers azureResults targetLocale localeLabel
              localeCurrencies σ) as (_ & [Hsame | (data & rs & m & Hkey & Hreply & Hlist & _)]);
    [exact Hsame |].
  fold prompt in Hreply. exfalso.
  destruct Hwhy as [Hno | [Hdown | [[status Hstatus] | [Hbody | (data' & Hdata & Hnone)]]]];
    congruence.
Qed.

(** C6, as the worker does it. On an answer that has no [null] element
    the merge completes and emits one element per provider result, with the
    same id at the same place. The refined text of an id is that of the
    last record of the answer that has this id, not empty, and a string
    under [translated]. An item whose id has a refined text that is not
    empty carries it; an item whose id has none, and so an item whose id
    no record of the answer has, keeps its provider translation; so does an
    item whose refined text is the empty string. *)
Theorem merge_by_id_keeps_every_provider_result (rs : list jsval)
    (azureResults : list (option Translation.t)) :
  Forall (fun x => nullish x = false) rs ->
  exists out,
    mergeById (JArr rs) azureResults = Ok out
    /\ length out = length azureResults
    /\ forall (j : nat) (r : Translation.t),
         azureResults !! j = Some (Some r) ->
         exists r',
           out !! j = Some (Some r')
           /\ Translation.id r' = Translation.id r
           /\ (forall t, refinedText rs (Translation.id r) = Some t -> t <> EmptyString ->
               Translation.translated r' = JStr t)
           /\ (refinedText rs (Translation.id r) = None ->
               Translation.translated r' = Translation.translated r)
           /\ (Forall (fun x => field x "id" <> JStr (Translation.id r)) rs ->
               Translation.translated r' = Translation.translated r)
           /\ (refinedText rs (Translation.id r) = Some EmptyString ->
               Translation.translated r' = Translation.translated r).
Proof.
  intros Hrecords.
  destruct (proj1 (collectRefined_total rs []) Hrecords) as [refinedMap Hcollect].
  assert (Hmerge : mergeById (JArr rs) azureResults = Ok (mergeRefined refinedMap azureResults)).
  { unfold mergeById, mbind, outcome_bind. rewrite Hcollect. reflexivity. }
  exists (mergeRefined refinedMap azureResults). split; [exact Hmerge |]. split.
  - unfold mergeRefined. apply arrayMap_length.
  - intros j r Hr. pose proof (mergeById_lookup rs azureResults _ j Hmerge) as Hj.
    rewrite Hr in Hj. simpl in Hj. eexists. split; [exact Hj |]. simpl.
    split; [reflexivity |]. repeat split.
    + intros t Ht Hne. rewrite Ht.
      destruct (String.eqb_spec t EmptyString); [contradiction | reflexivity].
    + intros Hnone. rewrite Hnone. reflexivity.
    + intros Habsent. rewrite (refinedText_absent _ _ Habsent). reflexivity.
    + intros Hempty. rewrite Hempty. reflexivity.
Qed.

(** C10. A record of the answer whose [translated] is the empty string
    counts as absent: when the map built from the answer holds the empty
    string under the id of a provider result, the merged output has that
    provider result, unchanged, at its place. *)
Theorem empty_refined_text_keeps_provider_translation (rs : list jsval)
    (refinedMap : list (jsval * string)) (azureResults : list (option Translation.t))
    (j : nat) (r : Translation.t) :
  collectRefined rs [] = Ok refinedMap ->
  azureResults !! j = Some (Some r) ->
  mapGet refinedMap (JStr (Translation.id r)) = Some EmptyString ->
  exists out,
    mergeById (JArr rs) azureResults = Ok out
    /\ out !! j = Some (Some r).
Proof.
  intros Hcollect Hr Hget. exists (mergeRefined refinedMap azureResults). split.
  - unfold mergeById, mbind, outcome_bind. rewrite Hcollect. reflexivity.
  - unfold mergeRefined. rewrite arrayMap_lookup, Hr. simpl. rewrite Hget. simpl.
    destruct r; reflexivity.
Qed.

(** ** The handler *)

Section Handler.
Context {rt : Runtime} (net : Network).

(** An array whose ids are those of the items has no hole. *)
Lemma ids_dense (a : list (option Translation.t)) : forall (items : list TextItem.t),
  ids a = Some ∘ TextItem.id <$> items ->
  exists rs, a = Some <$> rs /\ Translation.id <$> rs = TextItem.id <$> items.
Proof.
  induction a as [| o a IH]; intros [| item items] Hids; simpl in Hids; try discriminate.
  - exists []. auto.
  - injection Hids as Ho Ha. destruct (IH _ Ha) as (rs & -> & Hrs).
    destruct o as [r |]; [| discriminate]. simpl in Ho. injection Ho as Ho.
    exists (r :: rs). split; [reflexivity |]. rewrite !fmap_cons. f_equal; assumption.
Qed.

Lemma refineWithLLM_ids env layers azureResults targetLocale localeLabel localeCurrencies σ
    out σ' :
  refineWithLLM net env layers azureResults targetLocale localeLabel localeCurrencies σ
    = (out, σ') ->
  exists translations, out = Ok translations /\ ids translations = ids azureResults.
Proof.
  intros Hrun.
  destruct (refineWithLLM_shape net env layers azureResults targetLocale localeLabel
              localeCurrencies σ) as (_ & [Hsame | (data & rs & m & _ & _ & _ & _ & Hmerged)]);
    rewrite Hrun in *; simpl in *.
  - exists azureResults. auto.
  - exists (mergeRefined m azureResults). split; [exact Hmerged | apply mergeRefined_ids].
Qed.

Lemma refineRequest_ids env prompt azureResults σ out σ' :
  refineRequest net env prompt azureResults σ = (out, σ') ->
  exists translations, out = Ok translations /\ ids translations = ids azureResults.
Proof.
  intros Hrun.
  destruct (refineRequest_shape net env prompt azureResults σ)
    as (_ & [Hsame | (data & rs & m & _ & _ & _ & Hmerged)]);
    rewrite Hrun in *; simpl in *.
  - exists azureResults. auto.
  - exists (mergeRefined m azureResults). split; [exact Hmerged | apply mergeRefined_ids].
Qed.

(** The refinement as the handler calls it: it throws before it has sent
    anything, or returns what it was given when there is no key, or is
    the [try] of [refineWithLLM] on the prompt of the body. *)
Lemma refineStage_cases env layers azureResults targetLocale label currencies σ :
  (configured (OPENAI_API_KEY env) = true
   /\ (currencies = CurrenciesNoJoin \/ label = LabelNoText)
   /\ refineStage net env layers azureResults targetLocale label currencies σ
        = (Throw TypeError, σ))
  \/ (configured (OPENAI_API_KEY env) = false
      /\ refineStage net env layers azureResults targetLocale label currencies σ
           = (Ok azureResults, σ))
  \/ exists l cs,
       configured (OPENAI_API_KEY env) = true
       /\ labelOf label = Ok l /\ currenciesOf currencies = Ok cs
       /\ refineStage net env layers azureResults targetLocale label currencies σ
           = refineRequest net env (stagePrompt layers azureResults targetLocale l cs)
               azureResults σ.
Proof.
  unfold refineStage.
  destruct (configured (OPENAI_API_KEY env)) eqn:Hkey; cbn [negb].
  - unfold mbind, Eff_bind, lift.
    destruct currencies as [| cs |]; cbn [currenciesOf]; [| | left; auto];
      (destruct label as [| l |]; cbn [labelOf]; [| | left; auto]);
      right; right; eexists; eexists; repeat (split; [reflexivity |]); reflexivity.
  - right. left. split; reflexivity.
Qed.

(** On a label and currencies of the types the plugin sends, the
    refinement as the handler calls it is [refineWithLLM]. *)
Lemma refineStage_typed env layers azureResults targetLocale
    (localeLabel : option string) (localeCurrencies : option (list string)) σ :
  refineStage net env layers azureResults targetLocale (labelView localeLabel)
    (currenciesView localeCurrencies) σ
  = refineWithLLM net env layers azureResults targetLocale localeLabel localeCurrencies σ.
Proof.
  unfold refineStage, refineWithLLM.
  destruct (configured (OPENAI_API_KEY env)); cbn [negb]; [| reflexivity].
  cbv zeta. unfold mbind, Eff_bind, lift.
  assert (Hprompt : forall l cs,
            labelOf (labelView localeLabel) = Ok l ->
            currenciesOf (currenciesView localeCurrencies) = Ok cs ->
            stagePrompt layers azureResults targetLocale l cs
            = refinementPrompt layers azureResults targetLocale localeLabel localeCurrencies).
  { intros l cs Hl Hcs. unfold stagePrompt, refinementPrompt. cbn [currencyHint userPrompt].
    f_equal.
    - destruct localeLabel as [l' |]; cbn [labelView] in Hl;
        [destruct (String.eqb l' EmptyString) |]; cbn [labelOf] in Hl;
        injection Hl as <-; reflexivity.
    - destruct localeCurrencies as [[| c cs'] |]; cbn [currenciesView currenciesOf] in Hcs;
        injection Hcs as <-; reflexivity. }
  destruct (currenciesOf (currenciesView localeCurrencies)) as [cs | e] eqn:Hcs.
  - destruct (labelOf (labelView localeLabel)) as [l | e] eqn:Hl.
    + rewrite (Hprompt l cs eq_refl eq_refl). reflexivity.
    + destruct localeLabel as [l' |]; cbn [labelView] in Hl;
        [destruct (String.eqb l' EmptyString) |]; discriminate.
  - destruct localeCurrencies as [[| c cs'] |]; discriminate.
Qed.

Lemma refineStage_ids env layers azureResults targetLocale label currencies σ out σ' :
  refineStage net env layers azureResults targetLocale label currencies σ = (Ok out, σ') ->
  ids out = ids azureResults.
Proof.
  destruct (refineStage_cases env layers azureResults targetLocale label currencies σ)
    as [(_ & _ & ->) | [(_ & ->) | (l & cs & _ & _ & _ & ->)]]; [discriminate | |].
  - intros Hrun. injection Hrun as <- _. reflexivity.
  - intros Hrun. apply refineRequest_ids in Hrun as (translations & Hout & Hids).
    injection Hout as ->. exact Hids.
Qed.

(** What the [try] block answers with when it answers with translations. *)
Lemma translation_ids env request rateCheck σ resp σ' translations :
  translation net env request rateCheck σ = (Ok resp, σ') ->
  content resp = JsonTranslations translations ->
  exists p, body request = Json p
    /\ isArrayLayers (textLayers p) = true
    /\ ids translations = Some ∘ TextItem.id <$> elements (textLayers p).
Proof.
  unfold translation. unfold mbind at 1. unfold Eff_bind, lift.
  destruct (body request) as [| | p]; simpl; try discriminate.
  destruct (truthyLayers (textLayers p)); simpl;
    [| intros Hrun Hc; injection Hrun as <- _; discriminate].
  destruct (isArrayLayers (textLayers p)) eqn:Harr; simpl;
    [| intros Hrun Hc; injection Hrun as <- _; discriminate].
  destruct (truthy (targetLocale p)); simpl;
    [| intros Hrun Hc; injection Hrun as <- _; discriminate].
  destruct (targetLocale p) as [| | | | locale | | |]; try discriminate.
  destruct (hasNull (textLayers p)); [discriminate |].
  unfold mbind, Eff_bind.
  set (layers := elements (textLayers p)).
  destruct (String.eqb locale "en" || startsWith locale "en-").
  - unfold mret at 1. unfold Eff_ret.
    match goal with
    | |- context [refineStage net env layers ?az locale ?label ?cur σ] =>
        destruct (refineStage net env layers az locale label cur σ)
          as [[translations' | e] σ2] eqn:Hrefine; [| discriminate]
    end.
    apply refineStage_ids in Hrefine as Hids.
    unfold mret, Eff_ret. intros Hrun Hc. injection Hrun as <- _. simpl in Hc.
    injection Hc as <-. exists p. split; [reflexivity |]. split; [exact Harr |].
    rewrite Hids. unfold ids. rewrite <- list_fmap_compose. reflexivity.
  - destruct (translateWithAzure net env layers locale σ) as [[azureTranslations | e] σ1]
      eqn:Hazure; [| discriminate].
    apply translateWithAzure_ids in Hazure.
    destruct (refineStage net env layers azureTranslations locale (localeLabel p)
                (localeCurrencies p) σ1) as [[translations' | e] σ2] eqn:Hrefine;
      [| discriminate].
    apply refineStage_ids in Hrefine as Hids.
    unfold mret, Eff_ret. intros Hrun Hc. injection Hrun as <- _. simpl in Hc.
    injection Hc as <-. exists p. split; [reflexivity |]. split; [exact Harr |].
    rewrite Hids. exact Hazure.
Qed.

(** The handler answers with translations only from its [try] block. *)
Lemma fetch_translations now request env σ resp σ' translations :
  fetch net now request env σ = (Ok resp, σ') ->
  content resp = JsonTranslations translations ->
  exists rateCheck σ1, translation net env request rateCheck σ1 = (Ok resp, σ').
Proof.
  unfold fetch.
  destruct (String.eqb (method request) "OPTIONS");
    [intros Hrun Hc; injection Hrun as <- _; discriminate |].
  destruct (String.eqb (method request) "GET" && String.eqb (pathname request) "/privacy");
    [intros Hrun Hc; injection Hrun as <- _; discriminate |].
  destruct (negb (String.eqb (method request) "POST"));
    [intros Hrun Hc; injection Hrun as <- _; discriminate |].
  destruct (negb (configured (AZURE_TRANSLATOR_KEY env))
            || negb (configured (AZURE_TRANSLATOR_REGION env)));
    [intros Hrun Hc; injection Hrun as <- _; discriminate |].
  cbv zeta. unfold mbind, Eff_bind.
  destruct (checkRateLimit now (userIdOf request) σ) as [[rateCheck | e] σ1]; [| discriminate].
  destruct (negb (allowed rateCheck));
    [intros Hrun Hc; injection Hrun as <- _; discriminate |].
  unfold try_catch.
  destruct (translation net env request rateCheck σ1) as [[resp' | e] σ2] eqn:Htry.
  - intros Hrun Hc. injection Hrun as <- <-. eauto.
  - intros Hrun Hc. injection Hrun as <- _. discriminate.
Qed.

(** The [try] block answers 400 only from its validation, before any
    stage has run. *)
Lemma translation_invalid env request rateCheck σ resp σ' :
  translation net env request rateCheck σ = (Ok resp, σ') ->
  status resp = 400%Z ->
  resp = {| status := 400; content := JsonError InvalidRequest false;
            X_RateLimit_Remaining := None |}
  /\ σ' = σ
  /\ exists p, body request = Json p
       /\ (truthyLayers (textLayers p) = false
           \/ isArrayLayers (textLayers p) = false
           \/ truthy (targetLocale p) = false).
Proof.
  unfold translation. unfold mbind at 1. unfold Eff_bind, lift.
  destruct (body request) as [| | p]; simpl; try discriminate.
  destruct (truthyLayers (textLayers p)) eqn:Htruthy; simpl;
    [| intros Hrun _; injection Hrun as <- <-; eauto 10].
  destruct (isArrayLayers (textLayers p)) eqn:Harr; simpl;
    [| intros Hrun _; injection Hrun as <- <-; eauto 10].
  destruct (truthy (targetLocale p)) eqn:Hlocale; simpl;
    [| intros Hrun _; injection Hrun as <- <-; eauto 10].
  destruct (targetLocale p) as [| | | | locale | | |]; try discriminate.
  destruct (hasNull (textLayers p)); [discriminate |].
  unfold mbind, Eff_bind.
  match goal with
  | |- context [(if ?b then mret ?a else ?t) σ] =>
      destruct ((if b then mret a else t) σ) as [[azureTranslations | e] σ1]; [| discriminate]
  end.
  destruct (refineStage net env _ azureTranslations locale _ _ σ1) as [[translations | e] σ2];
    [| discriminate].
  unfold mret, Eff_ret. intros Hrun Hstatus. injection Hrun as <- _. discriminate.
Qed.

(** A request that fails the validation, from a caller under the limit. *)
Lemma fetch_invalid now request env σ p :
  method request = "POST" ->
  configured (AZURE_TRANSLATOR_KEY env) = true ->
  configured (AZURE_TRANSLATOR_REGION env) = true ->
  (currentCount now (userIdOf request) σ < DAILY_LIMIT)%Z ->
  body request = Json p ->
  truthyLayers (textLayers p) = false
  \/ isArrayLayers (textLayers p) = false
  \/ truthy (targetLocale p) = false ->
  fetch net now request env σ =
    (Ok {| status := 400; content := JsonError InvalidRequest false;
           X_RateLimit_Remaining := None |},
     {| RATE_LIMIT :=
          <["rate:" +:+ userIdOf request :=
              {| value := (currentCount now (userIdOf request) σ + 1)%Z;
                 expiration := (now + DAY_IN_SECONDS)%Z |}]> (RATE_LIMIT σ);
        outbound := outbound σ |}).
Proof.
  intros Hpost Hkey Hregion Hroom Hbody Hbad.
  rewrite fetch_admitted by assumption.
  unfold try_catch, translation. unfold mbind at 1. unfold Eff_bind, lift. rewrite Hbody. simpl.
  assert (Hcheck : negb (truthyLayers (textLayers p)) || negb (isArrayLayers (textLayers p))
                   || negb (truthy (targetLocale p)) = true).
  { destruct Hbad as [-> | [-> | ->]]; simpl; [reflexivity | |].
    - destruct (truthyLayers (textLayers p)); reflexivity.
    - destruct (truthyLayers (textLayers p)), (isArrayLayers (textLayers p)); reflexivity. }
  rewrite Hcheck. reflexivity.
Qed.

(** A request in the source language, without refinement, from a caller
    under the limit: every item is passed through, however many there are
    and however long their texts. *)
Lemma fetch_source_language now request env σ p items locale :
  method request = "POST" ->
  configured (AZURE_TRANSLATOR_KEY env) = true ->
  configured (AZURE_TRANSLATOR_REGION env) = true ->
  configured (OPENAI_API_KEY env) = false ->
  (currentCount now (userIdOf request) σ < DAILY_LIMIT)%Z ->
  body request = Json p ->
  textLayers p = LayersArr items ->
  targetLocale p = JStr locale ->
  String.eqb locale "en" || startsWith locale "en-" = true ->
  exists σ',
    fetch net now request env σ =
      (Ok {| status := 200;
             content := JsonTranslations
               ((fun l => Some (Translation.mk (TextItem.id l) (JStr (TextItem.text l))))
                  <$> items);
             X_RateLimit_Remaining :=
               Some (DAILY_LIMIT - currentCount now (userIdOf request) σ - 1)%Z |}, σ')
    /\ outbound σ' = outbound σ.
Proof.
  intros Hpost Hkey Hregion Hopenai Hroom Hbody Hlayers Hlocale Hen.
  rewrite fetch_admitted by assumption. eexists. split; [| shelve].
  unfold try_catch, translation. unfold mbind at 1. unfold Eff_bind, lift.
  rewrite Hbody. simpl. rewrite Hlayers, Hlocale. simpl.
  assert (Hloc : truthy (JStr locale) = true).
  { simpl. destruct locale; [discriminate | reflexivity]. }
  simpl in Hloc. rewrite Hloc. simpl. rewrite Hen.
  unfold refineStage. rewrite Hopenai. simpl.
  unfold mbind, Eff_bind, mret, Eff_ret. reflexivity.
  Unshelve. reflexivity.
Qed.

(** A 400 comes from the [try] block of an admitted caller. *)
Lemma fetch_rejected_inv now request env σ resp σ' :
  fetch net now request env σ = (Ok resp, σ') ->
  status resp = 400%Z ->
  exists rateCheck σ1,
    checkRateLimit now (userIdOf request) σ = (Ok rateCheck, σ1)
    /\ allowed rateCheck = true
    /\ translation net env request rateCheck σ1 = (Ok resp, σ').
Proof.
  unfold fetch.
  destruct (String.eqb (method request) "OPTIONS");
    [intros Hrun Hs; injection Hrun as <- _; discriminate |].
  destruct (String.eqb (method request) "GET" && String.eqb (pathname request) "/privacy");
    [intros Hrun Hs; injection Hrun as <- _; discriminate |].
  destruct (negb (String.eqb (method request) "POST"));
    [intros Hrun Hs; injection Hrun as <- _; discriminate |].
  destruct (negb (configured (AZURE_TRANSLATOR_KEY env))
            || negb (configured (AZURE_TRANSLATOR_REGION env)));
    [intros Hrun Hs; injection Hrun as <- _; discriminate |].
  cbv zeta. unfold mbind, Eff_bind.
  destruct (checkRateLimit now (userIdOf request) σ) as [[rateCheck | e] σ1]; [| discriminate].
  destruct (allowed rateCheck) eqn:Hallowed; simpl;
    [| intros Hrun Hs; injection Hrun as <- _; discriminate].
  unfold try_catch.
  destruct (translation net env request rateCheck σ1) as [[resp' | e] σ2] eqn:Htry.
  - intros Hrun Hs. injection Hrun as <- <-. eauto.
  - intros Hrun Hs. injection Hrun as <- _. discriminate.
Qed.

(** The handler always answers. *)
Lemma fetch_never_throws now request env σ :
  exists resp σ', fetch net now request env σ = (Ok resp, σ').
Proof.
  unfold fetch.
  destruct (String.eqb (method request) "OPTIONS"); [unfold mret, Eff_ret; eauto |].
  destruct (String.eqb (method request) "GET" && String.eqb (pathname request) "/privacy");
    [unfold mret, Eff_ret; eauto |].
  destruct (negb (String.eqb (method request) "POST")); [unfold mret, Eff_ret; eauto |].
  destruct (negb (configured (AZURE_TRANSLATOR_KEY env))
            || negb (configured (AZURE_TRANSLATOR_REGION env)));
    [unfold mret, Eff_ret; eauto |].
  cbv zeta. unfold mbind, Eff_bind.
  destruct (checkRateLimit_never_throws σ now (userIdOf request)) as (rateCheck & σ1 & ->).
  destruct (negb (allowed rateCheck)); [unfold mret, Eff_ret; eauto |].
  unfold try_catch.
  destruct (translation net env request rateCheck σ1) as [[resp | e] σ2];
    unfold mret, Eff_ret; eauto.
Qed.

End Handler.

(** C1. When the handler answers a request whose items have distinct ids
    with translations, the answer has one element per item and no hole, the
    element at each place has the id of the item at that place, and so the
    ids of the answer are the ids of the request, each exactly once. *)
Theorem response_ids_are_the_request_ids {rt : Runtime} (net : Network) (now : Z)
    (request : Request) (env : Env) (σ σ' : State) (resp : Response) (p : Payload)
    (items : list TextItem.t) (translations : list (option Translation.t)) :
  body request = Json p ->
  textLayers p = LayersArr items ->
  NoDup (TextItem.id <$> items) ->
  fetch net now request env σ = (Ok resp, σ') ->
  content resp = JsonTranslations translations ->
  exists rs,
    translations = Some <$> rs
    /\ Translation.id <$> rs = TextItem.id <$> items
    /\ Translation.id <$> rs ≡ₚ TextItem.id <$> items
    /\ NoDup (Translation.id <$> rs).
Proof.
  intros Hbody Hlayers Hdistinct Hrun Hcontent.
  destruct (fetch_translations net _ _ _ _ _ _ _ Hrun Hcontent) as (rateCheck & σ1 & Htry).
  destruct (translation_ids net _ _ _ _ _ _ _ Htry Hcontent) as (p' & Hbody' & _ & Hids).
  rewrite Hbody in Hbody'. injection Hbody' as <-. rewrite Hlayers in Hids. simpl in Hids.
  destruct (ids_dense _ _ Hids) as (rs & -> & Hrs).
  exists rs. rewrite Hrs. auto.
Qed.

(** C2, as the worker does it. A request that the validation rejects is
    answered 400 with the error of an invalid request, and its caller has
    been admitted first: the caller was under the limit, the stored count
    for the caller's identity is one more than before, with a new expiry,
    and nothing was sent out. *)
Theorem rejected_request_has_consumed_quota {rt : Runtime} (net : Network) (now : Z)
    (request : Request) (env : Env) (σ σ' : State) (resp : Response) :
  fetch net now request env σ = (Ok resp, σ') ->
  status resp = 400%Z ->
  content resp = JsonError InvalidRequest false
  /\ (exists p, body request = Json p
        /\ (truthyLayers (textLayers p) = false
            \/ isArrayLayers (textLayers p) = false
            \/ truthy (targetLocale p) = false))
  /\ (currentCount now (userIdOf request) σ < DAILY_LIMIT)%Z
  /\ RATE_LIMIT σ' !! ("rate:" +:+ userIdOf request)
       = Some {| value := (currentCount now (userIdOf request) σ + 1)%Z;
                 expiration := (now + DAY_IN_SECONDS)%Z |}
  /\ currentCount now (userIdOf request) σ' = (currentCount now (userIdOf request) σ + 1)%Z
  /\ outbound σ' = outbound σ.
Proof.
  intros Hrun Hstatus.
  destruct (fetch_rejected_inv net _ _ _ _ _ _ Hrun Hstatus)
    as (rateCheck & σ1 & Hadmit & Hallowed & Htry).
  destruct (checkRateLimit_inv _ _ _ _ _ Hadmit)
    as [(Hdenied & _) | (_ & _ & Hroom & Hkv & Hout)]; [congruence |].
  destruct (translation_invalid net _ _ _ _ _ _ Htry Hstatus) as (-> & -> & Hbad).
  assert (Hlook : RATE_LIMIT σ1 !! ("rate:" +:+ userIdOf request)
            = Some {| value := (currentCount now (userIdOf request) σ + 1)%Z;
                      expiration := (now + DAY_IN_SECONDS)%Z |}).
  { rewrite Hkv. apply lookup_insert_eq. }
  split; [reflexivity |]. split; [exact Hbad |]. split; [exact Hroom |].
  split; [exact Hlook |]. split; [| exact Hout].
  apply (currentCount_live _ _ _ _ _ Hlook). unfold DAY_IN_SECONDS. lia.
Qed.

(** C8, as the worker does it. For a caller that is admitted, the
    validation answers 400, with nothing sent out and no stage run, every
    request whose item list is missing or falsy, or is not an array, or
    whose target locale is missing or falsy; and it answers 400 no request
    that has an array of items and a truthy target locale, whatever the
    number of the items and the length of their texts. *)
Theorem validation_rejects_malformed_payloads {rt : Runtime} (net : Network) (now : Z)
    (request : Request) (env : Env) (σ : State) (p : Payload) :
  method request = "POST" ->
  configured (AZURE_TRANSLATOR_KEY env) = true ->
  configured (AZURE_TRANSLATOR_REGION env) = true ->
  (currentCount now (userIdOf request) σ < DAILY_LIMIT)%Z ->
  body request = Json p ->
  (truthyLayers (textLayers p) = false
   \/ isArrayLayers (textLayers p) = false
   \/ truthy (targetLocale p) = false ->
   exists σ',
     fetch net now request env σ =
       (Ok {| status := 400; content := JsonError InvalidRequest false;
              X_RateLimit_Remaining := None |}, σ')
     /\ outbound σ' = outbound σ)
  /\ (forall items : list TextItem.t,
        textLayers p = LayersArr items ->
        truthy (targetLocale p) = true ->
        exists resp σ',
          fetch net now request env σ = (Ok resp, σ') /\ status resp <> 400%Z).
Proof.
  intros Hpost Hkey Hregion Hroom Hbody. split.
  - intros Hbad. rewrite (fetch_invalid net now request env σ p) by assumption.
    eexists. split; reflexivity.
  - intros items Hitems Hlocale.
    destruct (fetch_never_throws net now request env σ) as (resp & σ' & Hrun).
    exists resp, σ'. split; [exact Hrun |]. intros Hstatus.
    destruct (fetch_rejected_inv net _ _ _ _ _ _ Hrun Hstatus) as (rateCheck & σ1 & _ & _ & Htry).
    destruct (translation_invalid net _ _ _ _ _ _ Htry Hstatus) as (_ & _ & p' & Hbody' & Hbad).
    rewrite Hbody in Hbody'. injection Hbody' as <-. rewrite Hitems, Hlocale in Hbad.
    simpl in Hbad. destruct Hbad as [? | [? | ?]]; discriminate.
Qed.

(** ** The properties on the deployment of [Scenario] *)

Import Scenario.

(** The unit tests of the repository for [lookupAbbrev] and
    [stripContext], run on the ASCII engine. *)
Example lookupAbbrev_unknown :
  @lookupAbbrev rt "XYZ" "fr" = Ok None /\ @lookupAbbrev rt "Hello" "fr" = Ok None.
Proof. split; vm_compute; reflexivity. Qed.

Example lookupAbbrev_unsupported_locale :
  @lookupAbbrev rt "JAN" "xx" = Ok None /\ @lookupAbbrev rt "JAN" "zz-ZZ" = Ok None.
Proof. split; vm_compute; reflexivity. Qed.

Example lookupAbbrev_exact_locale :
  @lookupAbbrev rt "JAN" "fr" = Ok (Some (JStr "JANV"))
  /\ @lookupAbbrev rt "JAN" "de" = Ok (Some (JStr "JAN"))
  /\ @lookupAbbrev rt "JAN" "es" = Ok (Some (JStr "ENE")).
Proof. repeat split; vm_compute; reflexivity. Qed.

Example lookupAbbrev_base_language :
  @lookupAbbrev rt "JAN" "fr-ca" = Ok (Some (JStr "JANV"))
  /\ @lookupAbbrev rt "JAN" "de-AT" = Ok (Some (JStr "JAN")).
Proof. split; vm_compute; reflexivity. Qed.

Example lookupAbbrev_casing :
  @lookupAbbrev rt "MON" "de" = Ok (Some (JStr "MO"))
  /\ @lookupAbbrev rt "jan" "fr" = Ok (Some (JStr "janv"))
  /\ @lookupAbbrev rt "mon" "es" = Ok (Some (JStr "lun"))
  /\ @lookupAbbrev rt "Jan" "fr" = Ok (Some (JStr "Janv"))
  /\ @lookupAbbrev rt "Mon" "de" = Ok (Some (JStr "Mo")).
Proof. repeat split; vm_compute; reflexivity. Qed.

Example lookupAbbrev_trims :
  @lookupAbbrev rt "  JAN  " "fr" = Ok (Some (JStr "JANV")).
Proof. vm_compute. reflexivity. Qed.

Example lookupAbbrev_non_latin :
  @lookupAbbrev rt "JAN" "ja" = Ok (Some (JStr "1月"))
  /\ @lookupAbbrev rt "JAN" "ar" = Ok (Some (JStr "يناير")).
Proof. split; vm_compute; reflexivity. Qed.

(** A locale named like a member of [Object.prototype]: the lookup throws,
    or hands out the member itself when the text is in mixed case. *)
Example lookupAbbrev_inherited :
  @lookupAbbrev rt "JAN" "constructor" = Throw TypeError
  /\ @lookupAbbrev rt "jAN" "constructor" = Ok (Some (JNative "constructor")).
Proof. split; vm_compute; reflexivity. Qed.

Example stripContext_prefix :
  @stripContext rt "[Title] Bienvenue" "Title" = "Bienvenue"
  /\ @stripContext rt "[Header Text] Bonjour le monde" "Header Text" = "Bonjour le monde"
  /\ @stripContext rt "[] text" EmptyString = "text".
Proof. repeat split; vm_compute; reflexivity. Qed.

Example stripContext_no_bracket :
  @stripContext rt "Bienvenue" "Title" = "Bienvenue"
  /\ @stripContext rt "  no brackets  " "Y" = "no brackets"
  /\ @stripContext rt "  [X] hello  " "X" = "hello".
Proof. repeat split; vm_compute; reflexivity. Qed.

Example stripContext_far_bracket :
  @stripContext rt "AAAAAAAAAAAAAAAAAAAAAAAAAAAAAAAAAAAAAAAAAAAAAAAAAA] rest of text" "abc"
    = "AAAAAAAAAAAAAAAAAAAAAAAAAAAAAAAAAAAAAAAAAAAAAAAAAA] rest of text".
Proof. vm_compute. reflexivity. Qed.

Example stripContext_bracket_in_content :
  @stripContext rt "[Titre] Le resultat [est] bon" "Titre" = "Le resultat [est] bon".
Proof. vm_compute. reflexivity. Qed.

(** The keys of the dictionary and of each of its entries are distinct, so
    that the first binding of a key is its only one. *)
Example ABBREV_DICT_keys_distinct :
  NoDup ABBREV_DICT.*1 /\ Forall (fun entry => NoDup entry.2.*1) ABBREV_DICT.
Proof.
  split.
  - apply (bool_decide_unpack (NoDup ABBREV_DICT.*1)). vm_compute. exact I.
  - apply (bool_decide_unpack (Forall (fun entry => NoDup entry.2.*1) ABBREV_DICT)).
    vm_compute. exact I.
Qed.

(** The request of the specification: [b] is resolved by the dictionary,
    [a] alone goes to Azure, the refinement rewrites [a], and the answer
    has both ids. *)
Example fetch_welcome_jan :
  let run := @fetch rt net 0%Z (post "u" (translate "fr")) env fresh in
  run.1 = Ok {| status := 200;
                content := JsonTranslations
                  [Some (Translation.mk "a" (JStr "Bienvenue !"));
                   Some (Translation.mk "b" (JStr "JANV"))];
                X_RateLimit_Remaining := Some 24%Z |}
  /\ outbound run.2 =
       [AzureCall (Some "key") (Some "westeurope") "fr" ["[Heading] Welcome"];
        OpenAICall (Some "sk")
          {| promptLocale := "fr"; promptLabel := "unknown"; currencyHint := EmptyString;
             userPrompt :=
               [Some (Pair.mk "a" "Heading" "Welcome" (JStr "Bienvenue"));
                Some (Pair.mk "b" "Date" "JAN" (JStr "JANV"))] |}].
Proof. vm_compute. split; reflexivity. Qed.

(** When Azure is down the request fails with a 502; when only OpenAI is
    down the provider results are the answer. *)
Example fetch_provider_down :
  (@fetch rt offline 0%Z (post "u" (translate "fr")) env fresh).1
    = Ok {| status := 502; content := JsonError (TranslationError NetworkError) false;
            X_RateLimit_Remaining := None |}.
Proof. vm_compute. reflexivity. Qed.

Example fetch_refinement_down :
  (@fetch rt {| azure := azure net; openai := openai offline |} 0%Z
     (post "u" (translate "fr")) env fresh).1
    = Ok {| status := 200;
            content := JsonTranslations
              [Some (Translation.mk "a" (JStr "Bienvenue"));
               Some (Translation.mk "b" (JStr "JANV"))];
            X_RateLimit_Remaining := Some 24%Z |}.
Proof. vm_compute. reflexivity. Qed.

(** C1 on the request of the specification. *)
Lemma response_ids_are_the_request_ids_at_scenario :
  exists rs,
    [Some (Translation.mk "a" (JStr "Bienvenue !")); Some (Translation.mk "b" (JStr "JANV"))]
      = Some <$> rs
    /\ Translation.id <$> rs = TextItem.id <$> layers
    /\ Translation.id <$> rs ≡ₚ TextItem.id <$> layers
    /\ NoDup (Translation.id <$> rs).
Proof.
  apply (@response_ids_are_the_request_ids rt net 0%Z (post "u" (translate "fr")) env fresh
           (@fetch rt net 0%Z (post "u" (translate "fr")) env fresh).2
           {| status := 200;
              content := JsonTranslations
                [Some (Translation.mk "a" (JStr "Bienvenue !"));
                 Some (Translation.mk "b" (JStr "JANV"))];
              X_RateLimit_Remaining := Some 24%Z |}
           (payload layers "fr") layers).
  - reflexivity.
  - reflexivity.
  - apply (bool_decide_unpack (NoDup (TextItem.id <$> layers))). vm_compute. exact I.
  - vm_compute. reflexivity.
  - reflexivity.
Defined.

(** C2 on a request without [textLayers]. *)
Lemma rejected_request_has_consumed_quota_at_scenario :
  JsonError InvalidRequest false = JsonError InvalidRequest false
  /\ (exists p, Json noLayers = Json p
        /\ (truthyLayers (textLayers p) = false
            \/ isArrayLayers (textLayers p) = false
            \/ truthy (targetLocale p) = false))
  /\ (currentCount 0%Z "u" fresh < DAILY_LIMIT)%Z
  /\ RATE_LIMIT (@fetch rt offline 0%Z (post "u" (Json noLayers)) env fresh).2
       !! ("rate:" +:+ "u")
       = Some {| value := (currentCount 0%Z "u" fresh + 1)%Z;
                 expiration := (0 + DAY_IN_SECONDS)%Z |}
  /\ currentCount 0%Z "u" (@fetch rt offline 0%Z (post "u" (Json noLayers)) env fresh).2
       = (currentCount 0%Z "u" fresh + 1)%Z
  /\ outbound (@fetch rt offline 0%Z (post "u" (Json noLayers)) env fresh).2 = outbound fresh.
Proof.
  apply (@rejected_request_has_consumed_quota rt offline 0%Z (post "u" (Json noLayers)) env fresh
           (@fetch rt offline 0%Z (post "u" (Json noLayers)) env fresh).2
           {| status := 400; content := JsonError InvalidRequest false;
              X_RateLimit_Remaining := None |}).
  - vm_compute. reflexivity.
  - reflexivity.
Defined.

(** C2 as stated fails: a request without [textLayers] is answered 400,
    and the count stored for its caller has gone from 0 to 1. *)
Lemma rejected_request_increments_the_count :
  let run := @fetch rt offline 0%Z (post "u" (Json noLayers)) env fresh in
  (status <$> run.1) = Ok 400%Z
  /\ currentCount 0%Z "u" fresh = 0%Z
  /\ currentCount 0%Z "u" run.2 = 1%Z
  /\ RATE_LIMIT fresh !! "rate:u" = None
  /\ RATE_LIMIT run.2 !! "rate:u" = Some {| value := 1; expiration := 86400 |}.
Proof. vm_compute. repeat split; reflexivity. Qed.

(** C5 when OpenAI cannot be reached. *)
Lemma refinement_falls_back_to_provider_results_at_scenario :
  (@refineWithLLM rt offline env layers provided "fr" None None fresh).1 = Ok provided.
Proof.
  apply (@refinement_falls_back_to_provider_results rt offline env layers provided "fr"
           None None fresh).
  right. left. reflexivity.
Defined.

(** C6 on the answer of [Scenario]: [a] is refined, [b] is kept. *)
Lemma merge_by_id_keeps_every_provider_result_at_scenario :
  exists out,
    mergeById refined provided = Ok out
    /\ length out = length provided
    /\ forall (j : nat) (r : Translation.t),
         provided !! j = Some (Some r) ->
         exists r',
           out !! j = Some (Some r')
           /\ Translation.id r' = Translation.id r
           /\ (forall t, refinedText refinedRecords (Translation.id r) = Some t ->
               t <> EmptyString -> Translation.translated r' = JStr t)
           /\ (refinedText refinedRecords (Translation.id r) = None ->
               Translation.translated r' = Translation.translated r)
           /\ (Forall (fun x => field x "id" <> JStr (Translation.id r)) refinedRecords ->
               Translation.translated r' = Translation.translated r)
           /\ (refinedText refinedRecords (Translation.id r) = Some EmptyString ->
               Translation.translated r' = Translation.translated r).
Proof.
  apply (merge_by_id_keeps_every_provider_result refinedRecords provided).
  repeat constructor.
Defined.

(** C6 as stated fails: the answer has a record for the id [a], its text
    is the empty string, and the merged item for [a] does not carry that
    text: it keeps the provider translation. *)
Lemma refined_empty_text_is_not_carried :
  field (JObj [("id", JStr "a"); ("translated", JStr EmptyString)]) "id" = JStr "a"
  /\ field (JObj [("id", JStr "a"); ("translated", JStr EmptyString)]) "translated"
       = JStr EmptyString
  /\ mergeById (JArr emptied) provided = Ok provided
  /\ provided !! 0%nat = Some (Some (Translation.mk "a" (JStr "Bienvenue")))
  /\ JStr "Bienvenue" <> JStr EmptyString.
Proof. repeat split; try (vm_compute; reflexivity). discriminate. Qed.

(** C10 on an answer that empties the text of [a]. *)
Lemma empty_refined_text_keeps_provider_translation_at_scenario :
  exists out,
    mergeById (JArr emptied) provided = Ok out
    /\ out !! 0%nat = Some (Some (Translation.mk "a" (JStr "Bienvenue"))).
Proof.
  apply (empty_refined_text_keeps_provider_translation emptied
           [(JStr "a", EmptyString)] provided 0 (Translation.mk "a" (JStr "Bienvenue"))).
  - vm_compute. reflexivity.
  - reflexivity.
  - vm_compute. reflexivity.
Defined.

(** C7 on the request of the specification: the batch is the one miss. *)
Lemma provider_batch_is_the_dictionary_misses_at_scenario :
  outbound (@translateWithAzure rt net env layers "fr" fresh).2
    = outbound fresh
        ++ [AzureCall (AZURE_TRANSLATOR_KEY env) (AZURE_TRANSLATOR_REGION env) "fr"
              (@contextText <$> List.filter (@misses rt "fr") layers)].
Proof.
  destruct (@provider_batch_is_the_dictionary_misses rt net env "fr" layers fresh)
    as (_ & _ & _ & Hsent).
  apply Hsent.
  - repeat constructor.
  - vm_compute. discriminate.
Defined.

(** C8 on a request without [textLayers], and on the request of the
    specification. *)
Lemma validation_rejects_malformed_payloads_at_scenario :
  (exists σ',
     @fetch rt offline 0%Z (post "u" (Json noLayers)) env fresh =
       (Ok {| status := 400; content := JsonError InvalidRequest false;
              X_RateLimit_Remaining := None |}, σ')
     /\ outbound σ' = outbound fresh)
  /\ (exists resp σ',
        @fetch rt net 0%Z (post "u" (translate "fr")) env fresh = (Ok resp, σ')
        /\ status resp <> 400%Z).
Proof.
  split.
  - destruct (@validation_rejects_malformed_payloads rt offline 0%Z (post "u" (Json noLayers))
                env fresh noLayers) as [Hrejects _];
      [reflexivity | reflexivity | reflexivity | vm_compute; reflexivity | reflexivity |].
    apply Hrejects. left. reflexivity.
  - destruct (@validation_rejects_malformed_payloads rt net 0%Z (post "u" (translate "fr"))
                env fresh (payload layers "fr")) as [_ Haccepts];
      [reflexivity | reflexivity | reflexivity | vm_compute; reflexivity | reflexivity |].
    apply (Haccepts layers); reflexivity.
Defined.

(** C8 as stated fails: whatever the bounds, a request in the source
    language with more items than the one and a text longer than the other
    is answered 200. *)
Lemma no_bound_on_items_nor_on_text_length :
  ~ exists maxItems maxChars : nat,
      forall (items : list TextItem.t) (resp : Response) (σ' : State),
        (maxItems < length items)%nat
        \/ Exists (fun l => (Z.of_nat maxChars < @strLength rt (TextItem.text l))%Z) items ->
        @fetch rt offline 0%Z (post "u" (Json (payload items "en"))) envNoOpenAI fresh
          = (Ok resp, σ') ->
        status resp = 400%Z.
Proof.
  intros (maxItems & maxChars & Hbound).
  set (long := TextItem.mk "a" "Title" (string_of_list_ascii (replicate (S maxChars) "x"%char))).
  set (items := replicate (S maxItems) long).
  destruct (@fetch_source_language rt offline 0%Z (post "u" (Json (payload items "en")))
              envNoOpenAI fresh (payload items "en") items "en")
    as (σ' & Hrun & _); try reflexivity.
  assert (Hover : (maxItems < length items)%nat
                  \/ Exists (fun l => (Z.of_nat maxChars < @strLength rt (TextItem.text l))%Z)
                       items).
  { left. unfold items. rewrite length_replicate. lia. }
  pose proof (Hbound items _ σ' Hover Hrun) as Hstatus. discriminate Hstatus.
Qed.

(** * More properties of the worker *)

(** ** Quota accounting of the handler *)

Section Accounting.
Context {rt : Runtime} (net : Network).

(** The [try] of the refinement always returns: it changes no count,
    sends its one request to OpenAI, and keeps the ids in their places. *)
Lemma refineRequest_effects env prompt azureResults σ :
  exists out σ',
    refineRequest net env prompt azureResults σ = (Ok out, σ')
    /\ RATE_LIMIT σ' = RATE_LIMIT σ
    /\ outbound σ' = outbound σ ++ [OpenAICall (OPENAI_API_KEY env) prompt]
    /\ ids out = ids azureResults.
Proof.
  destruct (refineRequest net env prompt azureResults σ) as [o σ'] eqn:Hrun.
  destruct (refineRequest_ids net _ _ _ _ _ _ Hrun) as (out & -> & Hids).
  exists out, σ'. split; [reflexivity |].
  revert Hrun. unfold refineRequest.
  unfold try_catch, mbind, Eff_bind, call, lift, throw, mret, Eff_ret. simpl.
  assert (Hsent : forall (o : outcome (list (option Translation.t))) σ0,
            σ0 = {| RATE_LIMIT := RATE_LIMIT σ;
                    outbound := outbound σ ++ [OpenAICall (OPENAI_API_KEY env) prompt] |} ->
            (o, σ0) = (Ok out, σ') ->
            RATE_LIMIT σ' = RATE_LIMIT σ
            /\ outbound σ' = outbound σ ++ [OpenAICall (OPENAI_API_KEY env) prompt]
            /\ ids out = ids azureResults).
  { intros o σ0 -> Heq. injection Heq as _ <-. simpl. auto. }
  destruct (openai net _) as [| status | [data |]]; simpl; try (apply Hsent; reflexivity).
  destruct (contentOf data) as [[content |] | e]; simpl; try (apply Hsent; reflexivity).
  destruct (String.eqb content EmptyString); simpl; try (apply Hsent; reflexivity).
  destruct (JSON_parse _) as [refined |]; simpl; try (apply Hsent; reflexivity).
  destruct (mergeById refined azureResults); simpl; apply Hsent; reflexivity.
Qed.

(** The refinement on typed arguments always returns: it changes no
    count, sends one request to OpenAI when a key is configured and
    nothing otherwise, and keeps the ids in their places. *)
Lemma refineWithLLM_effects env layers azureResults targetLocale localeLabel localeCurrencies σ :
  exists out σ',
    refineWithLLM net env layers azureResults targetLocale localeLabel localeCurrencies σ
      = (Ok out, σ')
    /\ RATE_LIMIT σ' = RATE_LIMIT σ
    /\ outbound σ' =
         outbound σ ++
           (if configured (OPENAI_API_KEY env)
            then [OpenAICall (OPENAI_API_KEY env)
                    (refinementPrompt layers azureResults targetLocale localeLabel
                       localeCurrencies)]
            else [])
    /\ ids out = ids azureResults.
Proof.
  unfold refineWithLLM. destruct (configured (OPENAI_API_KEY env)); cbn [negb].
  - cbv zeta. apply refineRequest_effects.
  - exists azureResults, σ. rewrite app_nil_r. auto.
Qed.

(** The refinement as the handler calls it: it throws before anything is
    sent, or it returns, having sent its one request when a key is
    configured. *)
Lemma refineStage_effects env layers azureResults targetLocale label currencies σ :
  (configured (OPENAI_API_KEY env) = true
   /\ (currencies = CurrenciesNoJoin \/ label = LabelNoText)
   /\ refineStage net env layers azureResults targetLocale label currencies σ
        = (Throw TypeError, σ))
  \/ exists l cs out σ',
       (configured (OPENAI_API_KEY env) = false
        \/ (labelOf label = Ok l /\ currenciesOf currencies = Ok cs))
       /\ refineStage net env layers azureResults targetLocale label currencies σ
            = (Ok out, σ')
       /\ RATE_LIMIT σ' = RATE_LIMIT σ
       /\ outbound σ' =
            outbound σ ++
              (if configured (OPENAI_API_KEY env)
               then [OpenAICall (OPENAI_API_KEY env)
                       (stagePrompt layers azureResults targetLocale l cs)]
               else [])
       /\ ids out = ids azureResults.
Proof.
  destruct (refineStage_cases net env layers azureResults targetLocale label currencies σ)
    as [Hthrows | [(Hkey & Hrun) | (l & cs & Hkey & Hl & Hcs & Hrun)]];
    [left; exact Hthrows | right | right].
  - exists EmptyString, None, azureResults, σ. rewrite Hkey, app_nil_r. auto.
  - destruct (refineRequest_effects env (stagePrompt layers azureResults targetLocale l cs)
                azureResults σ) as (out & σ' & Hrefine & Hkv & Hout & Hids).
    exists l, cs, out, σ'. rewrite Hrun, Hkey. auto.
Qed.

(** The [try] block leaves the counts alone and answers 200 with
    translations and the remaining quota, or 400. *)
Lemma translation_frame env request rateCheck σ o σ' :
  translation net env request rateCheck σ = (o, σ') ->
  RATE_LIMIT σ' = RATE_LIMIT σ
  /\ forall resp, o = Ok resp ->
       (exists translations,
          resp = {| status := 200; content := JsonTranslations translations;
                    X_RateLimit_Remaining := Some (remaining rateCheck) |})
       \/ resp = {| status := 400; content := JsonError InvalidRequest false;
                    X_RateLimit_Remaining := None |}.
Proof.
  unfold translation. unfold mbind at 1. unfold Eff_bind, lift.
  destruct (body request) as [| | p]; simpl;
    try (intros Hrun; injection Hrun as <- <-; split; [reflexivity | discriminate]).
  destruct (negb (truthyLayers (textLayers p)) || negb (isArrayLayers (textLayers p))
            || negb (truthy (targetLocale p))).
  { unfold mret, Eff_ret. intros Hrun. injection Hrun as <- <-. split; [reflexivity |].
    intros resp Hresp. injection Hresp as <-. right. reflexivity. }
  destruct (targetLocale p) as [| | | | locale | | |];
    try (unfold throw; intros Hrun; injection Hrun as <- <-; split; [reflexivity | discriminate]).
  destruct (hasNull (textLayers p));
    [unfold throw; intros Hrun; injection Hrun as <- <-; split; [reflexivity | discriminate] |].
  unfold mbind, Eff_bind.
  match goal with
  | |- context [match ?stage σ with _ => _ end] =>
      assert (Hfirst : forall o1 (σ1 : State), stage σ = (o1, σ1) ->
                RATE_LIMIT σ1 = RATE_LIMIT σ);
      [| destruct (stage σ) as [[azureTranslations | e] σ1] eqn:Hstage]
  end.
  - intros o1 σ1. destruct (String.eqb locale "en" || startsWith locale "en-").
    + unfold mret, Eff_ret. intros H. injection H as _ <-. reflexivity.
    + intros H.
      destruct (translateWithAzure_outbound net env locale (elements (textLayers p)) σ)
        as [Hkv _]. rewrite H in Hkv. exact Hkv.
  - specialize (Hfirst _ _ eq_refl).
    destruct (refineStage_effects env (elements (textLayers p)) azureTranslations locale
                (localeLabel p) (localeCurrencies p) σ1)
      as [(_ & _ & ->) | (l & cs & out & σ2 & _ & -> & Hkv & _)].
    + intros Hrun. injection Hrun as <- <-. split; [exact Hfirst | discriminate].
    + unfold mret, Eff_ret. intros Hrun. injection Hrun as <- <-.
      split; [congruence |]. intros resp Hresp. injection Hresp as <-. left. eauto.
  - specialize (Hfirst _ _ eq_refl). intros Hrun. injection Hrun as <- <-.
    split; [exact Hfirst | discriminate].
Qed.

(** The two ways a request leaves the handler: turned away with the state
    as it was, or admitted, with the count of the caller one up. *)
Lemma fetch_cases now request env σ resp σ' :
  fetch net now request env σ = (Ok resp, σ') ->
  (σ' = σ
   /\ (resp = {| status := 204; content := NoBody; X_RateLimit_Remaining := None |}
       \/ resp = {| status := 200; content := PrivacyPolicyHtml;
                    X_RateLimit_Remaining := None |}
       \/ resp = {| status := 405; content := PlainText "Method not allowed";
                    X_RateLimit_Remaining := None |}
       \/ resp = {| status := 500; content := JsonError ServerMisconfigured false;
                    X_RateLimit_Remaining := None |}
       \/ resp = {| status := 429; content := JsonError DailyLimitReached true;
                    X_RateLimit_Remaining := Some 0%Z |}))
  \/ ((currentCount now (userIdOf request) σ < DAILY_LIMIT)%Z
      /\ RATE_LIMIT σ' =
           <["rate:" +:+ userIdOf request :=
               {| value := (currentCount now (userIdOf request) σ + 1)%Z;
                  expiration := (now + DAY_IN_SECONDS)%Z |}]> (RATE_LIMIT σ)
      /\ ((exists translations,
             resp = {| status := 200; content := JsonTranslations translations;
                       X_RateLimit_Remaining :=
                         Some (DAILY_LIMIT - currentCount now (userIdOf request) σ - 1)%Z |})
          \/ resp = {| status := 400; content := JsonError InvalidRequest false;
                       X_RateLimit_Remaining := None |}
          \/ exists err,
               resp = {| status := 502; content := JsonError (TranslationError err) false;
                         X_RateLimit_Remaining := None |})).
Proof.
  unfold fetch.
  destruct (String.eqb (method request) "OPTIONS");
    [intros Hrun; injection Hrun as <- <-; left; auto |].
  destruct (String.eqb (method request) "GET" && String.eqb (pathname request) "/privacy");
    [intros Hrun; injection Hrun as <- <-; left; auto |].
  destruct (negb (String.eqb (method request) "POST"));
    [intros Hrun; injection Hrun as <- <-; left; auto |].
  destruct (negb (configured (AZURE_TRANSLATOR_KEY env))
            || negb (configured (AZURE_TRANSLATOR_REGION env)));
    [intros Hrun; injection Hrun as <- <-; left; auto 6 |].
  cbv zeta. unfold mbind, Eff_bind.
  destruct (checkRateLimit now (userIdOf request) σ) as [[rateCheck | e] σ1] eqn:Hadmit;
    [| discriminate].
  destruct (checkRateLimit_inv _ _ _ _ _ Hadmit)
    as [(Hdenied & _ & -> & _) | (Hallowed & Hremaining & Hroom & Hkv & _)].
  - rewrite Hdenied. simpl. intros Hrun. injection Hrun as <- <-. left. auto 7.
  - rewrite Hallowed. simpl. unfold try_catch.
    destruct (translation net env request rateCheck σ1) as [[resp' | e] σ2] eqn:Htry.
    + destruct (translation_frame _ _ _ _ _ _ Htry) as [Hsame Hresp].
      intros Hrun. injection Hrun as <- <-. right.
      split; [exact Hroom |]. split; [congruence |].
      destruct (Hresp _ eq_refl) as [[ts ->] | ->]; [left | right; left; reflexivity].
      exists ts. rewrite Hremaining. reflexivity.
    + destruct (translation_frame _ _ _ _ _ _ Htry) as [Hsame _].
      unfold mret, Eff_ret. intros Hrun. injection Hrun as <- <-. right.
      split; [exact Hroom |]. split; [congruence |]. right. right. eauto.
Qed.

(** What [get] reads from a namespace whose counts are in range. *)
Lemma currentCount_bounds now userId σ :
  countsInRange σ -> (0 <= currentCount now userId σ <= DAILY_LIMIT)%Z.
Proof.
  intros Hinv. unfold currentCount, kvRead.
  destruct (RATE_LIMIT σ !! ("rate:" +:+ userId)) as [e |] eqn:Hlook;
    [| simpl; unfold DAILY_LIMIT; lia].
  specialize (Hinv _ _ Hlook). simpl in Hinv.
  destruct (now <? expiration e)%Z; simpl; unfold DAILY_LIMIT in *; lia.
Qed.

End Accounting.

(** X1. The handler stores nothing and sends nothing unless it admits a
    POST: when it answers 204, 405, 500 or 429, or serves the privacy
    policy, the state after the request is the state before it. *)
Theorem only_admitted_requests_change_the_state {rt : Runtime} (net : Network) (now : Z)
    (request : Request) (env : Env) (σ σ' : State) (resp : Response) :
  fetch net now request env σ = (Ok resp, σ') ->
  status resp = 204%Z \/ status resp = 405%Z \/ status resp = 500%Z \/ status resp = 429%Z
  \/ content resp = PrivacyPolicyHtml ->
  σ' = σ.
Proof.
  intros Hrun Hwhich.
  destruct (fetch_cases net _ _ _ _ _ _ Hrun) as [[Hsame _] | (_ & _ & Hresp)];
    [exact Hsame | exfalso].
  destruct Hresp as [[ts ->] | [-> | [err ->]]]; simpl in Hwhich;
    repeat (destruct Hwhich as [Hwhich | Hwhich]; [discriminate |]); discriminate.
Qed.

(** X1 on a caller at the limit, and on the privacy policy. *)
Lemma only_admitted_requests_change_the_state_at_limit :
  (@fetch Scenario.rt Scenario.net 3600%Z (Scenario.post "u" (Scenario.translate "fr")) Scenario.env
     Cases.atLimit).2 = Cases.atLimit
  /\ (@fetch Scenario.rt Scenario.net 0%Z Cases.getPrivacy Scenario.env Cases.atLimit).2 = Cases.atLimit.
Proof.
  split.
  - eapply (@only_admitted_requests_change_the_state Scenario.rt Scenario.net 3600%Z
              (Scenario.post "u" (Scenario.translate "fr")) Scenario.env Cases.atLimit).
    + vm_compute. reflexivity.
    + right. right. right. left. reflexivity.
  - eapply (@only_admitted_requests_change_the_state Scenario.rt Scenario.net 0%Z Cases.getPrivacy
              Scenario.env Cases.atLimit).
    + vm_compute. reflexivity.
    + right. right. right. right. reflexivity.
Defined.

(** X2. A POST to a configured worker from a caller under the limit costs
    one unit whatever comes of it: the answer is 200, 400 or 502, the count
    of the caller is one more, with its expiry a day after the request, and
    no other key of the namespace has changed. *)
Theorem admitted_post_costs_one_unit {rt : Runtime} (net : Network) (now : Z)
    (request : Request) (env : Env) (σ : State) :
  method request = "POST" ->
  configured (AZURE_TRANSLATOR_KEY env) = true ->
  configured (AZURE_TRANSLATOR_REGION env) = true ->
  (currentCount now (userIdOf request) σ < DAILY_LIMIT)%Z ->
  exists resp σ',
    fetch net now request env σ = (Ok resp, σ')
    /\ (status resp = 200%Z \/ status resp = 400%Z \/ status resp = 502%Z)
    /\ RATE_LIMIT σ' !! ("rate:" +:+ userIdOf request)
         = Some {| value := (currentCount now (userIdOf request) σ + 1)%Z;
                   expiration := (now + DAY_IN_SECONDS)%Z |}
    /\ forall key, key <> "rate:" +:+ userIdOf request ->
         RATE_LIMIT σ' !! key = RATE_LIMIT σ !! key.
Proof.
  intros Hpost Hkey Hregion Hroom. rewrite fetch_admitted by assumption.
  unfold try_catch.
  match goal with
  | |- context [translation net env request ?rc ?s] =>
      destruct (translation net env request rc s) as [[resp | e] σ2] eqn:Htry
  end.
  - destruct (translation_frame net _ _ _ _ _ _ Htry) as [Hkv Hstatus].
    exists resp, σ2. split; [reflexivity |]. split.
    { destruct (Hstatus _ eq_refl) as [[ts ->] | ->]; auto. }
    rewrite Hkv. simpl. split; [apply lookup_insert_eq |].
    intros key Hne. apply lookup_insert_ne. congruence.
  - destruct (translation_frame net _ _ _ _ _ _ Htry) as [Hkv _].
    eexists. exists σ2. unfold mret, Eff_ret. split; [reflexivity |]. simpl.
    split; [auto |]. rewrite Hkv. simpl. split; [apply lookup_insert_eq |].
    intros key Hne. apply lookup_insert_ne. congruence.
Qed.

(** X2 on a request that fails because Azure cannot be reached. *)
Lemma admitted_post_costs_one_unit_when_provider_is_down :
  exists resp σ',
    @fetch Scenario.rt Scenario.offline 100%Z (Scenario.post "u" (Scenario.translate "fr")) Scenario.env
      Scenario.fresh = (Ok resp, σ')
    /\ (status resp = 200%Z \/ status resp = 400%Z \/ status resp = 502%Z)
    /\ RATE_LIMIT σ' !! "rate:u" = Some {| value := 1; expiration := 86500 |}
    /\ forall key, key <> "rate:u" -> RATE_LIMIT σ' !! key = RATE_LIMIT Scenario.fresh !! key.
Proof.
  apply (@admitted_post_costs_one_unit Scenario.rt Scenario.offline 100%Z
           (Scenario.post "u" (Scenario.translate "fr")) Scenario.env Scenario.fresh);
    [reflexivity | reflexivity | reflexivity | vm_compute; reflexivity].
Defined.

(** X3. The counts of the namespace never leave the range the limiter
    writes: from a namespace whose counts are all between 1 and the daily
    limit, any request leaves such a namespace, and the remaining quota a
    response announces is between 0 and the limit minus one. *)
Theorem counts_stay_within_the_limit {rt : Runtime} (net : Network) (now : Z)
    (request : Request) (env : Env) (σ σ' : State) (resp : Response) :
  countsInRange σ ->
  fetch net now request env σ = (Ok resp, σ') ->
  countsInRange σ'
  /\ forall r, X_RateLimit_Remaining resp = Some r -> (0 <= r < DAILY_LIMIT)%Z.
Proof.
  intros Hinv Hrun. pose proof (currentCount_bounds now (userIdOf request) σ Hinv) as Hcount.
  destruct (fetch_cases net _ _ _ _ _ _ Hrun) as [[-> Hresp] | (Hroom & Hkv & Hresp)].
  - split; [exact Hinv |]. intros r.
    destruct Hresp as [-> | [-> | [-> | [-> | ->]]]]; simpl; try discriminate.
    intros Hr. injection Hr as <-. unfold DAILY_LIMIT. lia.
  - split.
    + unfold countsInRange. rewrite Hkv. apply map_Forall_insert_2; [| exact Hinv].
      simpl. lia.
    + intros r. destruct Hresp as [[ts ->] | [-> | [err ->]]]; simpl; try discriminate.
      intros Hr. injection Hr as <-. lia.
Qed.

(** X3 on the first request of a caller. *)
Lemma counts_stay_within_the_limit_at_scenario :
  countsInRange
    (@fetch Scenario.rt Scenario.net 0%Z (Scenario.post "u" (Scenario.translate "fr")) Scenario.env
       Scenario.fresh).2
  /\ forall r,
       X_RateLimit_Remaining
         {| status := 200;
            content := JsonTranslations
              [Some (Translation.mk "a" (JStr "Bienvenue !"));
               Some (Translation.mk "b" (JStr "JANV"))];
            X_RateLimit_Remaining := Some 24%Z |} = Some r ->
       (0 <= r < DAILY_LIMIT)%Z.
Proof.
  apply (@counts_stay_within_the_limit Scenario.rt Scenario.net 0%Z
           (Scenario.post "u" (Scenario.translate "fr")) Scenario.env Scenario.fresh).
  - apply map_Forall_empty.
  - vm_compute. reflexivity.
Defined.

(** X4. A caller at the limit waits for the expiry of the record and no
    longer: the calls made before the expiry are all denied and leave the
    record as it is (they do not push the expiry back), and the first call
    at or after the expiry is allowed, with the whole day's quota but one
    and a count of 1. *)
Theorem denied_calls_do_not_extend_the_wait (σ : State) (userId : string) (e : KvEntry)
    (times : list Z) (t : Z) :
  RATE_LIMIT σ !! ("rate:" +:+ userId) = Some e ->
  (DAILY_LIMIT <= value e)%Z ->
  Forall (fun now => (now < expiration e)%Z) times ->
  (expiration e <= t)%Z ->
  admissions userId times σ
    = (Ok (replicate (length times) {| allowed := false; remaining := 0 |}), σ)
  /\ checkRateLimit t userId σ =
       (Ok {| allowed := true; remaining := (DAILY_LIMIT - 1)%Z |},
        {| RATE_LIMIT :=
             <["rate:" +:+ userId := {| value := 1; expiration := (t + DAY_IN_SECONDS)%Z |}]>
               (RATE_LIMIT σ);
           outbound := outbound σ |}).
Proof.
  intros Hlook Hfull Hbefore Hafter. split.
  - induction Hbefore as [| now rest Hnow _ IH]; [reflexivity |].
    cbn [admissions length replicate]. unfold mbind, Eff_bind.
    rewrite checkRateLimit_reached.
    + fold (admissions userId rest). rewrite IH. reflexivity.
    + unfold currentCount, kvRead. rewrite Hlook.
      destruct (Z.ltb_spec now (expiration e)); [exact Hfull | lia].
  - assert (Hcount : currentCount t userId σ = 0%Z).
    { unfold currentCount, kvRead. rewrite Hlook.
      destruct (Z.ltb_spec t (expiration e)); [lia | reflexivity]. }
    rewrite checkRateLimit_below by (rewrite Hcount; reflexivity).
    rewrite Hcount. reflexivity.
Qed.

(** X4 on three calls before the expiry and one at the expiry. *)
Lemma denied_calls_do_not_extend_the_wait_at_limit :
  admissions "u" [10%Z; 3600%Z; 86399%Z] Cases.atLimit
    = (Ok (replicate 3 {| allowed := false; remaining := 0 |}), Cases.atLimit)
  /\ checkRateLimit 86400%Z "u" Cases.atLimit =
       (Ok {| allowed := true; remaining := (DAILY_LIMIT - 1)%Z |},
        {| RATE_LIMIT :=
             <["rate:u" := {| value := 1; expiration := (86400 + DAY_IN_SECONDS)%Z |}]>
               (RATE_LIMIT Cases.atLimit);
           outbound := [] |}).
Proof.
  apply (denied_calls_do_not_extend_the_wait Cases.atLimit "u"
           {| value := 25; expiration := 86400 |} [10%Z; 3600%Z; 86399%Z] 86400%Z).
  - vm_compute. reflexivity.
  - vm_compute. discriminate.
  - simpl. repeat constructor.
  - simpl. lia.
Defined.

(** X5. A request with an array of items whose target is the source
    language (en, or a locale that starts with en-) never reaches Azure
    and never consults the dictionary. When its items are text items and
    the refinement can build its prompt (or no OpenAI key is configured),
    the answer is a 200 with the ids in place; the texts handed to the
    refinement are the source texts themselves, the only call out is the
    one to OpenAI, with the prompt of these texts, when a key is
    configured, and without a key the answer is the source texts. When
    there is a [null] among the items, or when a key is configured and the
    currencies cannot be joined or the label has no text, the answer is a
    502 for a [TypeError] and nothing at all has been sent; the unit of
    quota is spent all the same. *)
Theorem source_language_requests_skip_the_provider {rt : Runtime} (net : Network) (now : Z)
    (request : Request) (env : Env) (σ : State) (p : Payload) (locale : string) :
  method request = "POST" ->
  configured (AZURE_TRANSLATOR_KEY env) = true ->
  configured (AZURE_TRANSLATOR_REGION env) = true ->
  (currentCount now (userIdOf request) σ < DAILY_LIMIT)%Z ->
  body request = Json p ->
  targetLocale p = JStr locale ->
  String.eqb locale "en" || startsWith locale "en-" = true ->
  let admitted :=
    {| RATE_LIMIT :=
         <["rate:" +:+ userIdOf request :=
             {| value := (currentCount now (userIdOf request) σ + 1)%Z;
                expiration := (now + DAY_IN_SECONDS)%Z |}]> (RATE_LIMIT σ);
       outbound := outbound σ |} in
  let failed :=
    {| status := 502; content := JsonError (TranslationError TypeError) false;
       X_RateLimit_Remaining := None |} in
  (forall (items : list TextItem.t) (label : string) (currencies : option (list string)),
     textLayers p = LayersArr items ->
     configured (OPENAI_API_KEY env) = false
     \/ (labelOf (localeLabel p) = Ok label
         /\ currenciesOf (localeCurrencies p) = Ok currencies) ->
     let verbatim :=
       (fun l => Some (Translation.mk (TextItem.id l) (JStr (TextItem.text l)))) <$> items in
     exists translations σ',
       fetch net now request env σ =
         (Ok {| status := 200; content := JsonTranslations translations;
                X_RateLimit_Remaining :=
                  Some (DAILY_LIMIT - currentCount now (userIdOf request) σ - 1)%Z |}, σ')
       /\ ids translations = Some ∘ TextItem.id <$> items
       /\ outbound σ' =
            outbound σ ++
              (if configured (OPENAI_API_KEY env)
               then [OpenAICall (OPENAI_API_KEY env)
                       (stagePrompt items verbatim locale label currencies)]
               else [])
       /\ (configured (OPENAI_API_KEY env) = false -> translations = verbatim))
  /\ (textLayers p = LayersArrNull -> fetch net now request env σ = (Ok failed, admitted))
  /\ (forall items : list TextItem.t,
        textLayers p = LayersArr items ->
        configured (OPENAI_API_KEY env) = true ->
        localeCurrencies p = CurrenciesNoJoin \/ localeLabel p = LabelNoText ->
        fetch net now request env σ = (Ok failed, admitted)).
Proof.
  intros Hpost Hkey Hregion Hroom Hbody Hlocale Hen admitted failed.
  assert (Hloc : negb (String.eqb locale EmptyString) = true).
  { destruct locale; [discriminate | reflexivity]. }
  assert (Htry : forall layersOf,
            textLayers p = layersOf -> isArrayLayers layersOf = true ->
            fetch net now request env σ =
              try_catch
                (if hasNull layersOf then throw TypeError
                 else
                   translations ←
                     refineStage net env (elements layersOf)
                       (map (fun l => Some (Translation.mk (TextItem.id l)
                                              (JStr (TextItem.text l))))
                            (elements layersOf))
                       locale (localeLabel p) (localeCurrencies p);
                   mret {| status := 200; content := JsonTranslations translations;
                           X_RateLimit_Remaining :=
                             Some (DAILY_LIMIT - currentCount now (userIdOf request) σ - 1)%Z |})
                (fun err =>
                   mret {| status := 502; content := JsonError (TranslationError err) false;
                           X_RateLimit_Remaining := None |})
                admitted).
  { intros layersOf Hlayers Harr. rewrite fetch_admitted by assumption. fold admitted.
    unfold try_catch, translation. unfold mbind at 1. unfold Eff_bind, lift.
    rewrite Hbody. cbn [requestJson]. rewrite Hlocale, Hlayers. cbn [truthy].
    rewrite Hloc, Harr.
    assert (Htruthy : truthyLayers layersOf = true) by (destruct layersOf; auto; discriminate).
    rewrite Htruthy. cbn [negb orb]. cbv zeta. rewrite Hen.
    destruct (hasNull layersOf); reflexivity. }
  split; [| split].
  - intros items label currencies Hlayers Htyped verbatim.
    rewrite (Htry _ Hlayers eq_refl). cbn [hasNull elements]. unfold try_catch.
    unfold mbind, Eff_bind.
    change (map ?f items) with (f <$> items). fold verbatim.
    destruct (refineStage_effects net env items verbatim locale (localeLabel p)
                (localeCurrencies p) admitted)
      as [(Hopenai & Hbad & _) | (l & cs & out & σ2 & Hok & Hrun & _ & Hout & Hids)].
    { exfalso. destruct Htyped as [Hnone | [Hl Hc]]; [congruence |].
      destruct Hbad as [Hbad | Hbad]; rewrite Hbad in *; discriminate. }
    rewrite Hrun. exists out, σ2. unfold mret, Eff_ret. split; [reflexivity |].
    split.
    { rewrite Hids. unfold ids, verbatim. rewrite <- list_fmap_compose. reflexivity. }
    split.
    { rewrite Hout. destruct (configured (OPENAI_API_KEY env)) eqn:Hopenai; [| reflexivity].
      destruct Htyped as [Hnone | [Hl Hc]]; [discriminate |].
      destruct Hok as [Hnone | [Hl' Hc']]; [discriminate |].
      rewrite Hl in Hl'. rewrite Hc in Hc'. injection Hl' as <-. injection Hc' as <-.
      reflexivity. }
    intros Hnone. revert Hrun. unfold refineStage. rewrite Hnone. cbn [negb].
    unfold mret, Eff_ret. intros H. injection H as <- _. reflexivity.
  - intros Hlayers. rewrite (Htry _ Hlayers eq_refl). reflexivity.
  - intros items Hlayers Hopenai Hbad.
    rewrite (Htry _ Hlayers eq_refl). cbn [hasNull elements]. unfold try_catch.
    unfold mbind, Eff_bind.
    match goal with
    | |- context [refineStage net env items ?provided locale ?label ?cur admitted] =>
        destruct (refineStage_cases net env items provided locale label cur admitted)
          as [(_ & _ & ->) | [(Hnone & _) | (l & cs & _ & Hl & Hc & _)]];
          [reflexivity | congruence | exfalso]
    end.
    destruct Hbad as [Hbad | Hbad]; rewrite Hbad in *; discriminate.
Qed.

(** X5 on a request for British English, with an OpenAI key; on the same
    with a [null] among its items; and on the same with a text where the
    list of currencies should be. *)
Lemma source_language_requests_skip_the_provider_at_en_GB :
  (exists translations σ',
     @fetch rt offline 0%Z (post "u" (Json (Cases.labelled layers "en-GB"))) env fresh =
       (Ok {| status := 200; content := JsonTranslations translations;
              X_RateLimit_Remaining := Some 24%Z |}, σ')
     /\ ids translations = Some ∘ TextItem.id <$> layers
     /\ outbound σ' =
          [OpenAICall (Some "sk")
             (refinementPrompt layers
                [Some (Translation.mk "a" (JStr "Welcome"));
                 Some (Translation.mk "b" (JStr "JAN"))]
                "en-GB" (Some "English (UK)") (Some ["GBP"]))])
  /\ @fetch rt offline 0%Z (post "u" (Json Cases.nullItem)) env fresh =
       (Ok {| status := 502; content := JsonError (TranslationError TypeError) false;
              X_RateLimit_Remaining := None |},
        {| RATE_LIMIT := {["rate:u" := {| value := 1; expiration := 86400 |}]};
           outbound := [] |})
  /\ @fetch rt offline 0%Z (post "u" (Json (Cases.currenciesText layers "en-GB"))) env fresh =
       (Ok {| status := 502; content := JsonError (TranslationError TypeError) false;
              X_RateLimit_Remaining := None |},
        {| RATE_LIMIT := {["rate:u" := {| value := 1; expiration := 86400 |}]};
           outbound := [] |}).
Proof.
  split; [| split].
  - destruct (@source_language_requests_skip_the_provider rt offline 0%Z
                (post "u" (Json (Cases.labelled layers "en-GB"))) env fresh
                (Cases.labelled layers "en-GB") "en-GB")
      as (Hanswered & _ & _);
      [reflexivity | reflexivity | reflexivity | vm_compute; reflexivity
       | reflexivity | reflexivity | vm_compute; reflexivity |].
    destruct (Hanswered layers "English (UK)" (Some ["GBP"]))
      as (translations & σ' & Hrun & Hids & Hout & _);
      [reflexivity | right; split; reflexivity |].
    exists translations, σ'. split; [exact Hrun |]. split; [exact Hids | exact Hout].
  - destruct (@source_language_requests_skip_the_provider rt offline 0%Z
                (post "u" (Json Cases.nullItem)) env fresh Cases.nullItem "en")
      as (_ & Hnull & _);
      [reflexivity | reflexivity | reflexivity | vm_compute; reflexivity
       | reflexivity | reflexivity | vm_compute; reflexivity |].
    apply Hnull. reflexivity.
  - destruct (@source_language_requests_skip_the_provider rt offline 0%Z
                (post "u" (Json (Cases.currenciesText layers "en-GB"))) env fresh
                (Cases.currenciesText layers "en-GB") "en-GB")
      as (_ & _ & Hthrows);
      [reflexivity | reflexivity | reflexivity | vm_compute; reflexivity
       | reflexivity | reflexivity | vm_compute; reflexivity |].
    apply (Hthrows layers); [reflexivity | reflexivity | left; reflexivity].
Defined.

(** ** The dictionary lookup *)

Section Lookup.
Context {rt : Runtime}.

Lemma assoc_Some_elem {A : Type} (props : list (string * A)) (k : string) (v : A) :
  assoc props k = Some v -> (k, v) ∈ props.
Proof.
  induction props as [| [k' v'] rest IH]; simpl; [discriminate |].
  destruct (String.eqb k' k) eqn:Hk.
  - intros Hv. injection Hv as ->. apply String.eqb_eq in Hk as ->. left.
  - intros Hv. right. apply IH. exact Hv.
Qed.

Lemma assoc_None {A : Type} (props : list (string * A)) (k : string) :
  Forall (fun kv => kv.1 <> k) props -> assoc props k = None.
Proof.
  induction 1 as [| [k' v'] rest Hne _ IH]; simpl; [reflexivity |].
  destruct (String.eqb k' k) eqn:Hk; [| exact IH].
  apply String.eqb_eq in Hk. simpl in Hne. contradiction.
Qed.

(** The language codes of the dictionary have no hyphen and none of them
    is a name of [Object.prototype]; neither has a name of the prototype
    a hyphen. *)
Lemma ABBREV_DICT_language_codes :
  Forall (fun entry : string * list (string * string) =>
            Forall (fun kv : string * string =>
                      beforeHyphen kv.1 = kv.1 /\ kv.1 ∉ objectPrototypeNames) entry.2)
         ABBREV_DICT.
Proof.
  apply (bool_decide_unpack
           (Forall (fun entry : string * list (string * string) =>
                      Forall (fun kv : string * string =>
                                beforeHyphen kv.1 = kv.1 /\ kv.1 ∉ objectPrototypeNames)
                             entry.2) ABBREV_DICT)).
  vm_compute. exact I.
Qed.

Lemma objectPrototypeNames_plain :
  Forall (fun k => beforeHyphen k = k) objectPrototypeNames.
Proof. repeat constructor. Qed.

Lemma entry_language_codes (upper : string) (entry : list (string * string)) :
  assoc ABBREV_DICT upper = Some entry ->
  Forall (fun kv : string * string =>
            beforeHyphen kv.1 = kv.1 /\ kv.1 ∉ objectPrototypeNames) entry.
Proof.
  intros Hentry. apply assoc_Some_elem in Hentry.
  pose proof ABBREV_DICT_language_codes as Hall. rewrite Forall_forall in Hall.
  exact (Hall _ Hentry).
Qed.

Lemma beforeHyphen_region (lang region : string) :
  beforeHyphen lang = lang -> beforeHyphen (lang +:+ "-" +:+ region) = lang.
Proof.
  induction lang as [| c rest IH]; simpl; [reflexivity |].
  destruct (Ascii.eqb c "-"); [discriminate |].
  intros Heq. injection Heq as Heq. rewrite (IH Heq). reflexivity.
Qed.

Lemma append_longer (s t : string) (c : ascii) : s <> s +:+ String c t.
Proof.
  induction s as [| a s IH]; simpl; [discriminate |].
  intros Heq. injection Heq as Heq. exact (IH Heq).
Qed.

(** A code with a region is no key without a hyphen. *)
Lemma region_not_plain (lang region k : string) :
  beforeHyphen lang = lang -> beforeHyphen k = k -> k <> lang +:+ "-" +:+ region.
Proof.
  intros Hlang Hk ->. rewrite (beforeHyphen_region _ _ Hlang) in Hk.
  exact (append_longer _ _ _ Hk).
Qed.

Lemma entryGet_region (entry : list (string * string)) (lang region : string) :
  Forall (fun kv : string * string =>
            beforeHyphen kv.1 = kv.1 /\ kv.1 ∉ objectPrototypeNames) entry ->
  beforeHyphen lang = lang ->
  entryGet entry (lang +:+ "-" +:+ region) = JUndefined.
Proof.
  intros Hcodes Hlang. unfold entryGet. rewrite assoc_None.
  - unfold inherited. rewrite bool_decide_eq_false_2; [reflexivity |].
    intros Hin. pose proof objectPrototypeNames_plain as Hplain.
    rewrite Forall_forall in Hplain.
    exact (region_not_plain lang region _ Hlang (Hplain _ Hin) eq_refl).
  - eapply Forall_impl; [exact Hcodes |]. intros kv [Hplain _].
    apply region_not_plain; assumption.
Qed.

Lemma entryGet_prototype (entry : list (string * string)) (k : string) :
  Forall (fun kv : string * string =>
            beforeHyphen kv.1 = kv.1 /\ kv.1 ∉ objectPrototypeNames) entry ->
  k ∈ objectPrototypeNames ->
  entryGet entry k = JNative k.
Proof.
  intros Hcodes Hin. unfold entryGet. rewrite assoc_None.
  - unfold inherited. rewrite bool_decide_eq_true_2 by exact Hin. reflexivity.
  - eapply Forall_impl; [exact Hcodes |]. intros kv [_ Hnot] Heq. simpl in Heq. rewrite Heq in Hnot. exact (Hnot Hin).
Qed.

(** What an entry has under a name that the prototype has not. *)
Lemma entryGet_own (entry : list (string * string)) (k : string) :
  k ∉ objectPrototypeNames ->
  entryGet entry k = JUndefined \/ exists s, entryGet entry k = JStr s.
Proof.
  intros Hnot. unfold entryGet. destruct (assoc entry k) as [s |]; [right; eauto |].
  left. unfold inherited. rewrite bool_decide_eq_false_2 by exact Hnot. reflexivity.
Qed.

End Lookup.

(** X6. A locale with a region resolves as its language: for a language
    code without a hyphen that is its own lower case, the lookup of any
    text under the code followed by a hyphen and a region is the lookup
    under the code alone. *)
Theorem regional_locale_resolves_as_its_language {rt : Runtime} (text lang region : string) :
  beforeHyphen lang = lang ->
  toLowerCase lang = lang ->
  lookupAbbrev text (lang +:+ "-" +:+ region) = lookupAbbrev text lang.
Proof.
  intros Hplain Hlower. unfold lookupAbbrev.
  destruct (assoc ABBREV_DICT (toUpperCase (trim text))) as [entry |] eqn:Hentry;
    [| reflexivity].
  pose proof (entry_language_codes _ _ Hentry) as Hcodes.
  rewrite (entryGet_region entry lang region Hcodes Hplain).
  rewrite (beforeHyphen_region lang region Hplain), Hplain, Hlower.
  assert (Hsame : jsOr JUndefined (entryGet entry lang)
                  = jsOr (entryGet entry lang) (entryGet entry lang)).
  { unfold jsOr. simpl. destruct (truthy (entryGet entry lang)); reflexivity. }
  rewrite Hsame. reflexivity.
Qed.

(** X6 on Canadian French. *)
Lemma regional_locale_resolves_as_its_language_at_fr_CA :
  @lookupAbbrev rt "Jan" ("fr" +:+ "-" +:+ "CA") = @lookupAbbrev rt "Jan" "fr".
Proof.
  apply (@regional_locale_resolves_as_its_language rt "Jan" "fr" "CA");
    [reflexivity | vm_compute; reflexivity].
Defined.

(** X7. Under a locale that is no property name of [Object.prototype]
    (nor is the lower case of its part before the hyphen), the lookup of a
    text that has a first character does not throw, and what it returns
    is null or a string. *)
Theorem dictionary_answers_are_strings {rt : Runtime} (text targetLocale : string) :
  targetLocale ∉ objectPrototypeNames ->
  toLowerCase (beforeHyphen targetLocale) ∉ objectPrototypeNames ->
  is_Some (codeUnitAt text 0) ->
  lookupAbbrev text targetLocale = Ok None
  \/ exists s, lookupAbbrev text targetLocale = Ok (Some (JStr s)).
Proof.
  intros Hlocale Hbase [c Hc]. unfold lookupAbbrev. rewrite Hc.
  destruct (assoc ABBREV_DICT (toUpperCase (trim text))) as [entry |]; [| left; reflexivity].
  assert (Hmatch : jsOr (entryGet entry targetLocale)
                     (entryGet entry (toLowerCase (beforeHyphen targetLocale))) = JUndefined
                   \/ exists s, jsOr (entryGet entry targetLocale)
                        (entryGet entry (toLowerCase (beforeHyphen targetLocale))) = JStr s).
  { destruct (entryGet_own entry _ Hlocale) as [-> | [s ->]].
    - unfold jsOr. simpl. apply entryGet_own. exact Hbase.
    - unfold jsOr. destruct (truthy (JStr s)); [right; eauto |].
      apply entryGet_own. exact Hbase. }
  destruct Hmatch as [-> | [s ->]]; [left; reflexivity |].
  destruct (truthy (JStr s)); simpl; [| left; reflexivity].
  destruct (String.eqb text (toUpperCase text)); [right; eexists; reflexivity |].
  destruct (String.eqb text (toLowerCase text)); [right; eexists; reflexivity |].
  destruct (String.eqb c (toUpperCase c)); right; eexists; reflexivity.
Qed.

(** X7 on a month under Brazilian Portuguese. *)
Lemma dictionary_answers_are_strings_at_Jan :
  @lookupAbbrev rt "Jan" "pt-BR" = Ok None
  \/ exists s, @lookupAbbrev rt "Jan" "pt-BR" = Ok (Some (JStr s)).
Proof.
  apply (@dictionary_answers_are_strings rt "Jan" "pt-BR").
  - apply (bool_decide_unpack ("pt-BR" ∉ objectPrototypeNames)). vm_compute. exact I.
  - apply (bool_decide_unpack
             (@toLowerCase rt (beforeHyphen "pt-BR") ∉ objectPrototypeNames)).
    vm_compute. exact I.
  - vm_compute. eexists. reflexivity.
Defined.

(** X8. Under a locale that is a property name of [Object.prototype]
    (constructor, toString, ...), a text of the dictionary is never a
    miss and never resolves to a string: the lookup finds the inherited
    member, so that it throws a [TypeError] for a text in upper case, and
    returns that member when it returns. *)
Theorem prototype_named_locale_breaks_the_lookup {rt : Runtime} (text targetLocale : string)
    (entry : list (string * string)) :
  targetLocale ∈ objectPrototypeNames ->
  assoc ABBREV_DICT (toUpperCase (trim text)) = Some entry ->
  (text = toUpperCase text -> lookupAbbrev text targetLocale = Throw TypeError)
  /\ (forall o, lookupAbbrev text targetLocale = Ok o -> o = Some (JNative targetLocale)).
Proof.
  intros Hproto Hentry. unfold lookupAbbrev. rewrite Hentry.
  rewrite (entryGet_prototype entry targetLocale (entry_language_codes _ _ Hentry) Hproto).
  unfold jsOr. simpl. split.
  - intros <-. rewrite String.eqb_refl. reflexivity.
  - intros o.
    destruct (String.eqb text (toUpperCase text)); [discriminate |].
    destruct (String.eqb text (toLowerCase text)); [discriminate |].
    destruct (codeUnitAt text 0) as [c |]; [| discriminate].
    destruct (String.eqb c (toUpperCase c)); [discriminate |].
    intros Ho. injection Ho as <-. reflexivity.
Qed.

(** X8 on a month under the locale [constructor]. *)
Lemma prototype_named_locale_breaks_the_lookup_at_constructor :
  ("JAN" = @toUpperCase rt "JAN" -> @lookupAbbrev rt "JAN" "constructor" = Throw TypeError)
  /\ (forall o, @lookupAbbrev rt "JAN" "constructor" = Ok o ->
      o = Some (JNative "constructor")).
Proof.
  eapply (@prototype_named_locale_breaks_the_lookup rt "JAN" "constructor").
  - apply (bool_decide_unpack ("constructor" ∈ objectPrototypeNames)). vm_compute. exact I.
  - vm_compute. reflexivity.
Defined.

(** ** The provider stage, item by item *)

Section Slots.
Context {rt : Runtime} (net : Network).

Lemma missesFrom_lower targetLocale layers : forall i,
  Forall (fun q : nat * TextItem.t => (i <= q.1)%nat) (missesFrom i targetLocale layers).
Proof.
  induction layers as [| layer rest IH]; intros i; simpl; [constructor |].
  assert (Hrest : Forall (fun q : nat * TextItem.t => (i <= q.1)%nat)
                    (missesFrom (S i) targetLocale rest)).
  { eapply Forall_impl; [apply IH |]. simpl. intros q Hq. lia. }
  destruct (misses targetLocale layer); [constructor; [simpl; lia | exact Hrest] | exact Hrest].
Qed.

(** No position is queued twice. *)
Lemma missesFrom_NoDup targetLocale layers : forall i,
  NoDup (missesFrom i targetLocale layers).*1.
Proof.
  induction layers as [| layer rest IH]; intros i; simpl; [constructor |].
  destruct (misses targetLocale layer); [| apply IH].
  simpl. constructor; [| apply IH].
  intros Hin. apply list_elem_of_fmap in Hin as (q & Hq & Hin).
  pose proof (missesFrom_lower targetLocale rest (S i)) as Hlow.
  rewrite Forall_forall in Hlow. specialize (Hlow _ Hin). lia.
Qed.

(** The place of a miss in the queue is the number of misses before it. *)
Lemma missesFrom_position targetLocale layers : forall i j layer,
  layers !! j = Some layer ->
  misses targetLocale layer = true ->
  missesFrom i targetLocale layers !! batchPosition targetLocale layers j
    = Some ((i + j)%nat, layer).
Proof.
  unfold batchPosition.
  induction layers as [| l rest IH]; intros i j layer Hlook Hmiss; [discriminate |].
  destruct j as [| j]; simpl in *.
  - injection Hlook as ->. rewrite Hmiss. simpl. rewrite Nat.add_0_r. reflexivity.
  - destruct (misses targetLocale l); simpl;
      rewrite (IH (S i) j layer Hlook Hmiss); f_equal; f_equal; lia.
Qed.

(** The second loop, slot by slot: the slots that are not queued are
    kept, and the slot of the [k]th queued item receives the [k]th answer,
    or the text of the item when that answer has no text. *)
Lemma mergeAzure_slots azureResults : forall azureLayers i results results',
  mergeAzure i azureLayers azureResults results = Ok results' ->
  NoDup azureLayers.*1 ->
  Forall (fun q : nat * TextItem.t => (q.1 < length results)%nat) azureLayers ->
  length results' = length results
  /\ (forall j, j ∉ azureLayers.*1 -> results' !! j = results !! j)
  /\ (forall k j layer, azureLayers !! k = Some (j, layer) ->
        exists found t,
          azureText azureResults (i + k) = Ok found
          /\ jsOr found (JStr (TextItem.text layer)) = JStr t
          /\ results' !! j =
               Some (Some (Translation.mk (TextItem.id layer)
                             (JStr (stripContext t (TextItem.layerName layer)))))).
Proof.
  induction azureLayers as [| [originalIndex layer] rest IH];
    intros i results results' Hrun Hdistinct Hbound; simpl in Hrun.
  - injection Hrun as <-. split; [reflexivity |]. split; [auto |].
    intros k j layer Hk. discriminate.
  - unfold mbind, outcome_bind in Hrun.
    destruct (azureText azureResults i) as [found | e] eqn:Hfound; [| discriminate].
    destruct (jsOr found (JStr (TextItem.text layer))) as [| | | | translated | | |] eqn:Hor;
      try discriminate.
    simpl in Hdistinct. apply NoDup_cons in Hdistinct as [Hfresh Hdistinct].
    apply Forall_cons in Hbound as [Hlt Hbound]. simpl in Hlt.
    apply IH in Hrun as (Hlen & Hkept & Hfilled); [| exact Hdistinct |].
    + rewrite arraySet_length in Hlen by exact Hlt. split; [exact Hlen |]. split.
      * intros j Hj. simpl in Hj. apply not_elem_of_cons in Hj as [Hne Hj].
        rewrite (Hkept j Hj). apply arraySet_lookup_ne; [exact Hlt | congruence].
      * intros k j l Hk. destruct k as [| k]; simpl in Hk.
        -- injection Hk as <- <-. exists found, translated.
           rewrite Nat.add_0_r. repeat split; [exact Hfound | exact Hor |].
           rewrite (Hkept _ Hfresh). apply arraySet_lookup_eq. exact Hlt.
        -- destruct (Hfilled k j l Hk) as (found' & t & Hf & Ho & Hr).
           exists found', t. replace (i + S k)%nat with (S i + k)%nat by lia. auto.
    + eapply Forall_impl; [exact Hbound |]. intros q Hq.
      rewrite arraySet_length by exact Hlt. exact Hq.
Qed.

(** [translateWithAzure] when no lookup throws. *)
Lemma translateWithAzure_unfold env targetLocale layers σ :
  Forall (fun l => resolves targetLocale l || misses targetLocale l = true) layers ->
  translateWithAzure net env layers targetLocale σ =
    match missesFrom 0 targetLocale layers with
    | [] => (Ok (dictionaryResult targetLocale <$> layers), σ)
    | _ :: _ =>
        let azureBody := contextText <$> List.filter (misses targetLocale) layers in
        let σ1 :=
          {| RATE_LIMIT := RATE_LIMIT σ;
             outbound := outbound σ ++
               [AzureCall (AZURE_TRANSLATOR_KEY env) (AZURE_TRANSLATOR_REGION env)
                  targetLocale azureBody] |} in
        match azure net targetLocale azureBody with
        | AzureUnreachable => (Throw NetworkError, σ1)
        | AzureStatus status errText =>
            (Throw (AzureTranslatorError status (sliceTo errText 200)), σ1)
        | AzureJson None => (Throw SyntaxError, σ1)
        | AzureJson (Some azureResults) =>
            (mergeAzure 0 (missesFrom 0 targetLocale layers) azureResults
               (dictionaryResult targetLocale <$> layers), σ1)
        end
    end.
Proof.
  intros Hall. unfold translateWithAzure. unfold mbind, Eff_bind, lift, throw, mret, Eff_ret.
  pose proof (splitLayers_spec targetLocale layers 0 [] []) as Hspec. simpl in Hspec.
  destruct (splitLayers_total targetLocale layers 0 (replicate (length layers) None) [] Hall)
    as (results0 & azureLayers & Hsplit).
  rewrite Hsplit. destruct (Hspec _ _ eq_refl Hsplit) as (-> & -> & _).
  pose proof (missesFrom_items 0 targetLocale layers) as Hitems.
  destruct (missesFrom 0 targetLocale layers) as [| [i0 layer0] queue] eqn:Hqueue;
    [reflexivity |].
  assert (Hbody : map (fun '(_, layer) => contextText layer) ((i0, layer0) :: queue)
                  = contextText <$> List.filter (misses targetLocale) layers).
  { rewrite <- Hitems. clear. generalize ((i0, layer0) :: queue).
    induction l as [| [i l0] rest IH]; simpl; [reflexivity |]. f_equal. exact IH. }
  cbv zeta. rewrite Hbody. unfold call.
  destruct (azure net targetLocale _) as [| status errText | [azureResults |]]; reflexivity.
Qed.

(** A run that returns has thrown in no lookup. *)
Lemma translateWithAzure_lookups env targetLocale layers σ results σ' :
  translateWithAzure net env layers targetLocale σ = (Ok results, σ') ->
  Forall (fun l => resolves targetLocale l || misses targetLocale l = true) layers.
Proof.
  unfold translateWithAzure. unfold mbind, Eff_bind, lift, throw, mret, Eff_ret.
  pose proof (splitLayers_spec targetLocale layers 0 [] []) as Hspec. simpl in Hspec.
  destruct (splitLayers 0 layers targetLocale (replicate (length layers) None) [])
    as [[results0 azureLayers] | e]; [| discriminate].
  intros _. destruct (Hspec _ _ eq_refl eq_refl) as (_ & _ & Hall). exact Hall.
Qed.

(** The slots of a run that returns. *)
Lemma translateWithAzure_slots env targetLocale layers σ results σ' :
  translateWithAzure net env layers targetLocale σ = (Ok results, σ') ->
  (missesFrom 0 targetLocale layers = []
   /\ results = dictionaryResult targetLocale <$> layers)
  \/ exists azureResults,
       azure net targetLocale (contextText <$> List.filter (misses targetLocale) layers)
         = AzureJson (Some azureResults)
       /\ (forall j, j ∉ (missesFrom 0 targetLocale layers).*1 ->
            results !! j = (dictionaryResult targetLocale <$> layers) !! j)
       /\ (forall k j layer, missesFrom 0 targetLocale layers !! k = Some (j, layer) ->
            exists found t,
              azureText azureResults k = Ok found
              /\ jsOr found (JStr (TextItem.text layer)) = JStr t
              /\ results !! j =
                   Some (Some (Translation.mk (TextItem.id layer)
                                 (JStr (stripContext t (TextItem.layerName layer)))))).
Proof.
  intros Hrun. pose proof (translateWithAzure_lookups _ _ _ _ _ _ Hrun) as Hall.
  rewrite (translateWithAzure_unfold env targetLocale layers σ Hall) in Hrun.
  destruct (missesFrom 0 targetLocale layers) as [| q queue] eqn:Hqueue.
  - injection Hrun as <- <-. left. auto.
  - cbv zeta in Hrun. rewrite <- Hqueue in *.
    destruct (azure net targetLocale _) as [| status errText | [azureResults |]];
      try discriminate.
    injection Hrun as Hmerge _. right. exists azureResults. split; [reflexivity |].
    apply mergeAzure_slots in Hmerge as (_ & Hkept & Hfilled).
    + split; [exact Hkept | exact Hfilled].
    + apply missesFrom_NoDup.
    + rewrite Forall_forall. intros [j layer] Hin.
      apply missesFrom_elem in Hin as (_ & Hlook & _). rewrite Nat.sub_0_r in Hlook.
      simpl. rewrite length_fmap. apply lookup_lt_Some in Hlook. exact Hlook.
Qed.

(** A miss is queued at its position. *)
Lemma miss_queued targetLocale layers j layer :
  layers !! j = Some layer ->
  lookupAbbrev (TextItem.text layer) targetLocale = Ok None ->
  missesFrom 0 targetLocale layers !! batchPosition targetLocale layers j = Some (j, layer).
Proof.
  intros Hlook Hnone.
  apply (missesFrom_position targetLocale layers 0 j layer Hlook).
  unfold misses. rewrite Hnone. reflexivity.
Qed.

End Slots.

(** X9. Every answer of the provider returns to the item it was asked
    for. In the array [translateWithAzure] returns, the slot of an item the
    dictionary resolves holds the dictionary's answer; the slot of an item
    the dictionary misses holds, stripped of its context prefix, the text
    of the answer whose place in Azure's array is the number of misses
    before the item, or the item's own text when that answer has none. *)
Theorem provider_answers_return_to_their_items {rt : Runtime} (net : Network) (env : Env)
    (targetLocale : string) (layers : list TextItem.t) (σ σ' : State)
    (results : list (option Translation.t)) (j : nat) (layer : TextItem.t) :
  translateWithAzure net env layers targetLocale σ = (Ok results, σ') ->
  layers !! j = Some layer ->
  (forall m, lookupAbbrev (TextItem.text layer) targetLocale = Ok (Some m) ->
     results !! j = Some (Some (Translation.mk (TextItem.id layer) m)))
  /\ (lookupAbbrev (TextItem.text layer) targetLocale = Ok None ->
      exists azureResults found t,
        azure net targetLocale (contextText <$> List.filter (misses targetLocale) layers)
          = AzureJson (Some azureResults)
        /\ azureText azureResults (batchPosition targetLocale layers j) = Ok found
        /\ jsOr found (JStr (TextItem.text layer)) = JStr t
        /\ results !! j =
             Some (Some (Translation.mk (TextItem.id layer)
                           (JStr (stripContext t (TextItem.layerName layer)))))).
Proof.
  intros Hrun Hlook. split.
  - intros m Hhit.
    assert (Hslot : (dictionaryResult targetLocale <$> layers) !! j
                    = Some (Some (Translation.mk (TextItem.id layer) m))).
    { rewrite list_lookup_fmap, Hlook. simpl. unfold dictionaryResult. rewrite Hhit.
      reflexivity. }
    destruct (translateWithAzure_slots net _ _ _ _ _ _ Hrun)
      as [[_ ->] | (azureResults & _ & Hkept & _)]; [exact Hslot |].
    rewrite Hkept; [exact Hslot |].
    intros Hin. apply list_elem_of_fmap in Hin as ([j' l] & Hj & Hin). simpl in Hj. subst j'.
    apply missesFrom_elem in Hin as (_ & Hl & Hmiss). rewrite Nat.sub_0_r in Hl.
    assert (l = layer) by congruence. subst l.
    unfold misses in Hmiss. rewrite Hhit in Hmiss. discriminate.
  - intros Hnone. pose proof (miss_queued targetLocale layers j layer Hlook Hnone) as Hqueued.
    destruct (translateWithAzure_slots net _ _ _ _ _ _ Hrun)
      as [[Hempty _] | (azureResults & Hreply & _ & Hfilled)].
    + rewrite Hempty in Hqueued. discriminate.
    + destruct (Hfilled _ _ _ Hqueued) as (found & t & Hfound & Hor & Hslot).
      exists azureResults, found, t. auto.
Qed.

(** X9 on the first item of the request of the specification. *)
Lemma provider_answers_return_to_their_items_at_scenario :
  (forall m, @lookupAbbrev rt "Welcome" "fr" = Ok (Some m) ->
     [Some (Translation.mk "a" (JStr "Bienvenue")); Some (Translation.mk "b" (JStr "JANV"))]
       !! 0%nat = Some (Some (Translation.mk "a" m)))
  /\ (@lookupAbbrev rt "Welcome" "fr" = Ok None ->
      exists azureResults found t,
        azure net "fr" (@contextText <$> List.filter (@misses rt "fr") layers)
          = AzureJson (Some azureResults)
        /\ @azureText rt azureResults (@batchPosition rt "fr" layers 0) = Ok found
        /\ jsOr found (JStr "Welcome") = JStr t
        /\ [Some (Translation.mk "a" (JStr "Bienvenue"));
            Some (Translation.mk "b" (JStr "JANV"))] !! 0%nat =
             Some (Some (Translation.mk "a" (JStr (@stripContext rt t "Heading"))))).
Proof.
  apply (@provider_answers_return_to_their_items rt net env "fr" layers fresh
           (@translateWithAzure rt net env layers "fr" fresh).2
           [Some (Translation.mk "a" (JStr "Bienvenue"));
            Some (Translation.mk "b" (JStr "JANV"))] 0
           (TextItem.mk "a" "Heading" "Welcome")).
  - vm_compute. reflexivity.
  - reflexivity.
Defined.

(** X10. An item the provider gives no text for keeps its source text.
    When the answer of Azure is an array that has no text at the place of
    an item (the array is too short, the element has no translations, or
    the text is empty), the slot of the item holds its own text, passed
    through [stripContext] like an answer. *)
Theorem unanswered_item_keeps_its_source_text {rt : Runtime} (net : Network) (env : Env)
    (targetLocale : string) (layers : list TextItem.t) (σ σ' : State)
    (results : list (option Translation.t)) (j : nat) (layer : TextItem.t)
    (answers : list jsval) :
  translateWithAzure net env layers targetLocale σ = (Ok results, σ') ->
  layers !! j = Some layer ->
  lookupAbbrev (TextItem.text layer) targetLocale = Ok None ->
  azure net targetLocale (contextText <$> List.filter (misses targetLocale) layers)
    = AzureJson (Some (JArr answers)) ->
  truthy (optField
            (optIndex
               (optField (default JUndefined (answers !! batchPosition targetLocale layers j))
                  "translations") 0) "text") = false ->
  results !! j =
    Some (Some (Translation.mk (TextItem.id layer)
                  (JStr (stripContext (TextItem.text layer) (TextItem.layerName layer))))).
Proof.
  intros Hrun Hlook Hnone Hreply Hsilent.
  pose proof (miss_queued targetLocale layers j layer Hlook Hnone) as Hqueued.
  destruct (translateWithAzure_slots net _ _ _ _ _ _ Hrun)
    as [[Hempty _] | (azureResults & Hreply' & _ & Hfilled)].
  - rewrite Hempty in Hqueued. discriminate.
  - rewrite Hreply in Hreply'. injection Hreply' as <-.
    destruct (Hfilled _ _ _ Hqueued) as (found & t & Hfound & Hor & Hslot).
    unfold azureText, getIndex in Hfound. simpl in Hfound. injection Hfound as <-.
    unfold jsOr in Hor. rewrite Hsilent in Hor. injection Hor as <-. exact Hslot.
Qed.

(** X10 when Azure answers with an empty array. *)
Lemma unanswered_item_keeps_its_source_text_at_silence :
  [Some (Translation.mk "a" (JStr "Welcome")); Some (Translation.mk "b" (JStr "JANV"))] !! 0%nat
    = Some (Some (Translation.mk "a" (JStr (@stripContext rt "Welcome" "Heading")))).
Proof.
  apply (@unanswered_item_keeps_its_source_text rt Cases.silent env "fr" layers fresh
           (@translateWithAzure rt Cases.silent env layers "fr" fresh).2
           [Some (Translation.mk "a" (JStr "Welcome")); Some (Translation.mk "b" (JStr "JANV"))]
           0 (TextItem.mk "a" "Heading" "Welcome") []).
  - vm_compute. reflexivity.
  - reflexivity.
  - vm_compute. reflexivity.
  - reflexivity.
  - reflexivity.
Defined.

(** X11. When Azure answers with a status that is not a success, the
    request fails as a whole with a 502 whose error carries the status and
    the first 200 characters of the answer; the caller has paid a unit of
    quota for it, the one request to Azure is the only call out, and the
    refinement is not tried. *)
Theorem provider_failure_is_a_502_that_costs_a_unit {rt : Runtime} (net : Network) (now : Z)
    (request : Request) (env : Env) (σ : State) (p : Payload) (items : list TextItem.t)
    (locale : string) (status : Z) (errText : string) :
  method request = "POST" ->
  configured (AZURE_TRANSLATOR_KEY env) = true ->
  configured (AZURE_TRANSLATOR_REGION env) = true ->
  (currentCount now (userIdOf request) σ < DAILY_LIMIT)%Z ->
  body request = Json p ->
  textLayers p = LayersArr items ->
  targetLocale p = JStr locale ->
  locale <> EmptyString ->
  String.eqb locale "en" || startsWith locale "en-" = false ->
  Forall (fun l => resolves locale l || misses locale l = true) items ->
  List.filter (misses locale) items <> [] ->
  azure net locale (contextText <$> List.filter (misses locale) items)
    = AzureStatus status errText ->
  fetch net now request env σ =
    (Ok {| status := 502;
           content :=
             JsonError (TranslationError (AzureTranslatorError status (sliceTo errText 200)))
               false;
           X_RateLimit_Remaining := None |},
     {| RATE_LIMIT :=
          <["rate:" +:+ userIdOf request :=
              {| value := (currentCount now (userIdOf request) σ + 1)%Z;
                 expiration := (now + DAY_IN_SECONDS)%Z |}]> (RATE_LIMIT σ);
        outbound :=
          outbound σ ++
            [AzureCall (AZURE_TRANSLATOR_KEY env) (AZURE_TRANSLATOR_REGION env) locale
               (contextText <$> List.filter (misses locale) items)] |}).
Proof.
  intros Hpost Hkey Hregion Hroom Hbody Hlayers Hlocale Hnonempty Hforeign Hall Hbatch Hreply.
  rewrite fetch_admitted by assumption.
  unfold try_catch, translation. unfold mbind at 1. unfold Eff_bind, lift.
  rewrite Hbody. simpl. rewrite Hlayers, Hlocale. simpl.
  assert (Hloc : negb (String.eqb locale EmptyString) = true).
  { destruct locale; [contradiction | reflexivity]. }
  rewrite Hloc. simpl. rewrite Hforeign.
  unfold mbind, Eff_bind.
  rewrite (translateWithAzure_unfold net env locale items _ Hall).
  pose proof (missesFrom_items 0 locale items) as Hitems.
  destruct (missesFrom 0 locale items) as [| q queue].
  - simpl in Hitems. symmetry in Hitems. contradiction.
  - cbv zeta. rewrite Hreply. reflexivity.
Qed.

(** X11 when Azure refuses the key. *)
Lemma provider_failure_is_a_502_that_costs_a_unit_at_401 :
  @fetch rt Cases.refusing 0%Z (post "u" (translate "fr")) env fresh =
    (Ok {| status := 502;
           content :=
             JsonError (TranslationError
                          (AzureTranslatorError 401 (@sliceTo rt "Access denied" 200))) false;
           X_RateLimit_Remaining := None |},
     {| RATE_LIMIT :=
          <["rate:" +:+ userIdOf (post "u" (translate "fr")) :=
              {| value := (currentCount 0%Z (userIdOf (post "u" (translate "fr"))) fresh + 1)%Z;
                 expiration := (0 + DAY_IN_SECONDS)%Z |}]> (RATE_LIMIT fresh);
        outbound :=
          outbound fresh ++
            [AzureCall (AZURE_TRANSLATOR_KEY env) (AZURE_TRANSLATOR_REGION env) "fr"
               (@contextText <$> List.filter (@misses rt "fr") layers)] |}).
Proof.
  apply (@provider_failure_is_a_502_that_costs_a_unit rt Cases.refusing 0%Z
           (post "u" (translate "fr")) env fresh (payload layers "fr") layers "fr" 401%Z
           "Access denied").
  - reflexivity.
  - reflexivity.
  - reflexivity.
  - vm_compute. reflexivity.
  - reflexivity.
  - reflexivity.
  - reflexivity.
  - discriminate.
  - reflexivity.
  - repeat constructor.
  - vm_compute. discriminate.
  - reflexivity.
Defined.

(** ** The refinement stage *)

(** X12. The refinement stage fails only before its request, and leaves
    the shape of what it is given as it is. Without an OpenAI key it
    returns the provider's results themselves and touches nothing. With a
    key, when [localeCurrencies] has a positive length and no [join] (a
    text, say) or [localeLabel] cannot be printed, it throws a TypeError
    while it builds the prompt, before its [try]: nothing is sent and the
    state is as before. With a key and a prompt that can be built it does
    not throw, whatever OpenAI answers: it returns an array of the same
    length with the same ids in the same places, changes no count of the
    namespace, and adds exactly one call to the calls out, the request to
    OpenAI with that key and the prompt of these items. *)
Theorem refinement_throws_only_before_its_request {rt : Runtime} (net : Network) (env : Env)
    (layers : list TextItem.t) (azureResults : list (option Translation.t))
    (targetLocale : string) (localeLabel : labelField)
    (localeCurrencies : currenciesField) (σ : State) :
  (configured (OPENAI_API_KEY env) = false ->
   refineStage net env layers azureResults targetLocale localeLabel localeCurrencies σ
     = (Ok azureResults, σ))
  /\ (configured (OPENAI_API_KEY env) = true ->
      localeCurrencies = CurrenciesNoJoin \/ localeLabel = LabelNoText ->
      refineStage net env layers azureResults targetLocale localeLabel localeCurrencies σ
        = (Throw TypeError, σ))
  /\ (forall (label : string) (currencies : option (list string)),
        configured (OPENAI_API_KEY env) = true ->
        labelOf localeLabel = Ok label ->
        currenciesOf localeCurrencies = Ok currencies ->
        exists out σ',
          refineStage net env layers azureResults targetLocale localeLabel
            localeCurrencies σ = (Ok out, σ')
          /\ length out = length azureResults
          /\ ids out = ids azureResults
          /\ RATE_LIMIT σ' = RATE_LIMIT σ
          /\ outbound σ' =
               outbound σ ++
                 [OpenAICall (OPENAI_API_KEY env)
                    (stagePrompt layers azureResults targetLocale label currencies)]).
Proof.
  split; [| split].
  - intros Hkey. unfold refineStage. rewrite Hkey. reflexivity.
  - intros Hkey Hbad. unfold refineStage. rewrite Hkey. cbn [negb].
    destruct Hbad as [-> | ->]; [reflexivity |].
    destruct localeCurrencies; reflexivity.
  - intros label currencies Hkey Hlabel Hcurrencies.
    assert (Hstage :
              refineStage net env layers azureResults targetLocale localeLabel
                localeCurrencies σ
              = refineRequest net env
                  (stagePrompt layers azureResults targetLocale label currencies)
                  azureResults σ).
    { unfold refineStage. rewrite Hkey. cbn [negb]. unfold mbind, Eff_bind, lift.
      rewrite Hcurrencies, Hlabel. reflexivity. }
    destruct (refineRequest_effects net env
                (stagePrompt layers azureResults targetLocale label currencies)
                azureResults σ) as (out & σ' & Hrun & Hkv & Hout & Hids).
    exists out, σ'. rewrite Hstage.
    split; [exact Hrun |]. split.
    { apply (f_equal length) in Hids. unfold ids in Hids. rewrite !length_fmap in Hids.
      exact Hids. }
    split; [exact Hids |]. split; [exact Hkv | exact Hout].
Qed.

(** X12 on the items of the scenario: the request that is sent when OpenAI
    cannot be reached, and the two ways of failing before it. *)
Lemma refinement_throws_only_before_its_request_at_scenario :
  (exists out σ',
     @refineStage Scenario.rt Scenario.offline Scenario.env Scenario.layers
       Scenario.provided "fr" (LabelTruthy "French") (CurrenciesArr ["EUR"]) Scenario.fresh
       = (Ok out, σ')
     /\ ids out = [Some "a"; Some "b"]
     /\ outbound σ' =
          [OpenAICall (Some "sk")
             (refinementPrompt Scenario.layers Scenario.provided "fr" (Some "French")
                (Some ["EUR"]))])
  /\ @refineStage Scenario.rt Scenario.net Scenario.env Scenario.layers
       Scenario.provided "fr" (LabelTruthy "French") CurrenciesNoJoin Scenario.fresh
     = (Throw TypeError, Scenario.fresh)
  /\ @refineStage Scenario.rt Scenario.net Scenario.env Scenario.layers
       Scenario.provided "fr" LabelNoText CurrenciesNone Scenario.fresh
     = (Throw TypeError, Scenario.fresh)
  /\ @refineStage Scenario.rt Scenario.net Scenario.envNoOpenAI Scenario.layers
       Scenario.provided "fr" LabelNoText CurrenciesNoJoin Scenario.fresh
     = (Ok Scenario.provided, Scenario.fresh).
Proof.
  split; [| split; [| split]].
  - destruct (@refinement_throws_only_before_its_request Scenario.rt Scenario.offline
                Scenario.env Scenario.layers Scenario.provided "fr" (LabelTruthy "French")
                (CurrenciesArr ["EUR"]) Scenario.fresh) as (_ & _ & Hsent).
    destruct (Hsent "French" (Some ["EUR"]))
      as (out & σ' & Hrun & _ & Hids & _ & Hout);
      [reflexivity | reflexivity | reflexivity |].
    exists out, σ'. split; [exact Hrun |]. split; [exact Hids | exact Hout].
  - destruct (@refinement_throws_only_before_its_request Scenario.rt Scenario.net
                Scenario.env Scenario.layers Scenario.provided "fr" (LabelTruthy "French")
                CurrenciesNoJoin Scenario.fresh) as (_ & Hthrows & _).
    apply Hthrows; [reflexivity | left; reflexivity].
  - destruct (@refinement_throws_only_before_its_request Scenario.rt Scenario.net
                Scenario.env Scenario.layers Scenario.provided "fr" LabelNoText
                CurrenciesNone Scenario.fresh) as (_ & Hthrows & _).
    apply Hthrows; [reflexivity | right; reflexivity].
  - destruct (@refinement_throws_only_before_its_request Scenario.rt Scenario.net
                Scenario.envNoOpenAI Scenario.layers Scenario.provided "fr" LabelNoText
                CurrenciesNoJoin Scenario.fresh) as (Hskipped & _).
    apply Hskipped. reflexivity.
Defined.

(** X13. One [null] in the list the refinement answers with discards the
    whole answer: the records before and after it are not applied, and the
    provider results are returned as they were. *)
Theorem null_record_discards_the_refinement {rt : Runtime} (net : Network) (env : Env)
    (layers : list TextItem.t) (azureResults : list (option Translation.t))
    (targetLocale : string) (localeLabel : option string)
    (localeCurrencies : option (list string)) (σ : State) (data : jsval) (rs : list jsval) :
  openai net (refinementPrompt layers azureResults targetLocale localeLabel localeCurrencies)
    = OpenAIJson (Some data) ->
  refinedList data = Some rs ->
  Exists (fun r => nullish r = true) rs ->
  (refineWithLLM net env layers azureResults targetLocale localeLabel localeCurrencies σ).1
    = Ok azureResults.
Proof.
  intros Hreply Hlist Hnull.
  destruct (refineWithLLM_shape net env layers azureResults targetLocale localeLabel
              localeCurrencies σ) as (_ & [Hsame | (data' & rs' & m & _ & Hreply' & Hlist' & Hm & _)]);
    [exact Hsame | exfalso].
  rewrite Hreply in Hreply'. injection Hreply' as <-.
  rewrite Hlist in Hlist'. injection Hlist' as <-.
  assert (Hall : Forall (fun r => nullish r = false) rs).
  { apply (collectRefined_total rs []). eauto. }
  apply Exists_exists in Hnull as (r & Hin & Hr).
  rewrite Forall_forall in Hall. specialize (Hall r Hin). congruence.
Qed.

(** X13 on an answer that has a [null] before a record for [a]. *)
Lemma null_record_discards_the_refinement_at_partial_answer :
  (@refineWithLLM Cases.rt Cases.answering env layers provided "fr" None None fresh).1
    = Ok provided.
Proof.
  apply (@null_record_discards_the_refinement Cases.rt Cases.answering env layers provided
           "fr" None None fresh
           (JObj [("choices", JArr [JObj [("message",
              JObj [("content", JStr "[partial]")])]])])
           Cases.partial).
  - reflexivity.
  - vm_compute. reflexivity.
  - left. reflexivity.
Defined.

(** X14. What the refinement is asked about an item is that item: when
    the provider results carry the ids of the items place by place, the
    tuple of the prompt at the place of an item has its id, its layer name
    and its source text, with the provider translation of that place. *)
Theorem refinement_pairs_describe_their_items (layers : list TextItem.t)
    (azureResults : list (option Translation.t)) (targetLocale : string)
    (localeLabel : option string) (localeCurrencies : option (list string))
    (j : nat) (layer : TextItem.t) :
  ids azureResults = Some ∘ TextItem.id <$> layers ->
  layers !! j = Some layer ->
  exists r,
    azureResults !! j = Some (Some r)
    /\ userPrompt (refinementPrompt layers azureResults targetLocale localeLabel
                     localeCurrencies) !! j
       = Some (Some (Pair.mk (TextItem.id layer) (TextItem.layerName layer)
                       (TextItem.text layer) (Translation.translated r))).
Proof.
  intros Hids Hlook.
  assert (Hid : ids azureResults !! j = Some (Some (TextItem.id layer))).
  { rewrite Hids, list_lookup_fmap, Hlook. reflexivity. }
  unfold ids in Hid. rewrite list_lookup_fmap in Hid.
  destruct (azureResults !! j) as [[r |] |] eqn:Hr; try discriminate.
  simpl in Hid. injection Hid as Hid.
  exists r. split; [reflexivity |].
  unfold refinementPrompt. cbn [userPrompt]. rewrite arrayMap_lookup, Hr, Hlook. simpl.
  rewrite Hid. reflexivity.
Qed.

(** X14 on the second item of the request of the specification. *)
Lemma refinement_pairs_describe_their_items_at_scenario :
  exists r,
    provided !! 1%nat = Some (Some r)
    /\ userPrompt (refinementPrompt layers provided "fr" None None) !! 1%nat
       = Some (Some (Pair.mk "b" "Date" "JAN" (Translation.translated r))).
Proof.
  apply (refinement_pairs_describe_their_items layers provided "fr" None None 1
           (TextItem.mk "b" "Date" "JAN")); reflexivity.
Defined.

(** ** The worker before the dictionary *)

Section Before.
Context {rt : Runtime} (net : Network).

Lemma all_misses_no_result targetLocale layers :
  Forall (fun l => misses targetLocale l = true) layers ->
  dictionaryResult targetLocale <$> layers = replicate (length layers) None
  /\ List.filter (misses targetLocale) layers = layers.
Proof.
  induction 1 as [| layer rest Hmiss _ [IHres IHfilter]]; [split; reflexivity |].
  simpl. rewrite Hmiss, IHfilter. split; [| reflexivity].
  change (dictionaryResult targetLocale layer :: (dictionaryResult targetLocale <$> rest)
          = None :: replicate (length rest) None).
  rewrite IHres. unfold dictionaryResult. unfold misses in Hmiss.
  destruct (lookupAbbrev (TextItem.text layer) targetLocale) as [[m |] | e];
    [discriminate | reflexivity | discriminate].
Qed.

(** The merge loop over a queue that holds every item is the [map] of
    the earlier worker. *)
Lemma mergeAzure_mapLayers targetLocale azureResults : forall layers filled,
  Forall (fun l => misses targetLocale l = true) layers ->
  mergeAzure (length filled) (missesFrom (length filled) targetLocale layers) azureResults
    (filled ++ replicate (length layers) None)
  = (fun out => filled ++ (Some <$> out))
      <$> AzureOnly.mapLayers (length filled) layers azureResults.
Proof.
  intros items. induction items as [| layer rest IH]; intros filled Hall.
  - reflexivity.
  - apply Forall_cons in Hall as [Hmiss Hall].
    cbn [missesFrom AzureOnly.mapLayers mergeAzure length replicate]. rewrite Hmiss.
    cbn [mergeAzure]. unfold mbind, outcome_bind.
    destruct (azureText azureResults (length filled)) as [found | e]; [| reflexivity].
    destruct (jsOr found (JStr (TextItem.text layer))) as [| | | | translated | | |];
      try reflexivity.
    rewrite arraySet_next_hole.
    set (x := Translation.mk (TextItem.id layer)
                (JStr (stripContext translated (TextItem.layerName layer)))).
    specialize (IH (filled ++ [Some x]) Hall).
    rewrite length_app in IH. simpl in IH. rewrite Nat.add_1_r in IH.
    rewrite <- app_assoc in IH. simpl in IH. rewrite IH.
    destruct (AzureOnly.mapLayers (S (length filled)) rest azureResults) as [mapped | e];
      simpl; [| reflexivity].
    unfold fmap, outcome_fmap. rewrite <- app_assoc. reflexivity.
Qed.

End Before.

(** X15. On a batch that is not empty and has no word of the dictionary
    in it, the worker translates as the earlier worker did, which had no
    dictionary: the same single request goes to Azure, the same error is
    thrown when it fails, and the same translations come back, item by
    item. *)
Theorem dictionary_free_batches_translate_as_before {rt : Runtime} (net : Network) (env : Env)
    (targetLocale : string) (layers : list TextItem.t) (σ : State) :
  layers <> [] ->
  Forall (fun l => misses targetLocale l = true) layers ->
  translateWithAzure net env layers targetLocale σ =
    let (o, σ') := AzureOnly.translateWithAzure net env layers targetLocale σ in
    ((fun out : list Translation.t => Some <$> out) <$> o, σ').
Proof.
  intros Hsome Hall.
  destruct (all_misses_no_result targetLocale layers Hall) as [Hres Hfilter].
  rewrite translateWithAzure_unfold.
  2:{ eapply Forall_impl; [exact Hall |]. intros l Hl. rewrite Hl. apply orb_true_r. }
  pose proof (missesFrom_items 0 targetLocale layers) as Hitems. rewrite Hfilter in Hitems.
  destruct (missesFrom 0 targetLocale layers) as [| q queue] eqn:Hqueue.
  { simpl in Hitems. symmetry in Hitems. contradiction. }
  rewrite <- Hqueue. cbv zeta. rewrite Hfilter, Hres.
  unfold AzureOnly.translateWithAzure, addContext.
  unfold mbind, Eff_bind, call, lift, throw. cbv zeta.
  rewrite map_map. cbn [ContextLayer.contextText].
  change (map (fun x : TextItem.t =>
                 "[" +:+ TextItem.layerName x +:+ "] " +:+ TextItem.text x) layers)
    with (contextText <$> layers).
  destruct (azure net targetLocale (contextText <$> layers))
    as [| status errText | [azureResults |]]; try reflexivity.
  pose proof (mergeAzure_mapLayers targetLocale azureResults layers [] Hall) as Hmerge.
  simpl in Hmerge. rewrite Hmerge.
  destruct (AzureOnly.mapLayers 0 layers azureResults); reflexivity.
Qed.

(** X15 on a request for one heading. *)
Lemma dictionary_free_batches_translate_as_before_at_welcome :
  @translateWithAzure rt net env [TextItem.mk "a" "Heading" "Welcome"] "fr" fresh =
    let (o, σ') :=
      @AzureOnly.translateWithAzure rt net env [TextItem.mk "a" "Heading" "Welcome"] "fr"
        fresh in
    ((fun out : list Translation.t => Some <$> out) <$> o, σ').
Proof.
  apply (@dictionary_free_batches_translate_as_before rt net env "fr"
           [TextItem.mk "a" "Heading" "Welcome"] fresh).
  - discriminate.
  - repeat constructor.
Defined.

(** ** The context prefix, on ASCII text *)

Section Prefix.

Lemma prefix_cons (a b : ascii) (s1 s2 : string) :
  String.prefix (String a s1) (String b s2)
    = if ascii_dec a b then String.prefix s1 s2 else false.
Proof. reflexivity. Qed.

Lemma prefix_empty (s : string) : String.prefix EmptyString s = true.
Proof. destruct s; reflexivity. Qed.

Lemma index_cons (t : string) (c : ascii) (s : string) :
  String.index 0 t (String c s) =
    if String.prefix t (String c s) then Some 0%nat
    else match String.index 0 t s with Some n => Some (S n) | None => None end.
Proof. reflexivity. Qed.

Lemma index_bracket_append (name text : string) :
  String.index 0 "] " name = None ->
  String.index 0 "] " (name +:+ "] " +:+ text) = Some (String.length name).
Proof.
  induction name as [| c rest IH].
  - intros _. change (EmptyString +:+ "] " +:+ text) with (String "]" (String " " text)).
    rewrite index_cons, !prefix_cons, prefix_empty.
    destruct (ascii_dec "]" "]"); [| contradiction].
    destruct (ascii_dec " " " "); [reflexivity | contradiction].
  - intros Hnone. rewrite index_cons in Hnone.
    destruct (String.prefix "] " (String c rest)) eqn:Hprefix; [discriminate |].
    destruct (String.index 0 "] " rest) eqn:Hrest; [discriminate |].
    change (String c rest +:+ "] " +:+ text) with (String c (rest +:+ "] " +:+ text)).
    rewrite index_cons, (IH eq_refl).
    assert (Hprefix' : String.prefix "] " (String c (rest +:+ "] " +:+ text)) = false).
    { rewrite prefix_cons in *. destruct (ascii_dec "]" c); [| reflexivity].
      destruct rest as [| d rest'].
      - change (EmptyString +:+ "] " +:+ text) with (String "]" (String " " text)).
        rewrite prefix_cons. destruct (ascii_dec " " "]"); [discriminate | reflexivity].
      - change (String d rest' +:+ "] " +:+ text) with (String d (rest' +:+ "] " +:+ text)).
        rewrite prefix_cons in *. destruct (ascii_dec " " d); [| reflexivity].
        rewrite prefix_empty in Hprefix. discriminate. }
    rewrite Hprefix'. reflexivity.
Qed.

Lemma substring_all (s : string) : String.substring 0 (String.length s) s = s.
Proof. induction s as [| c s IH]; simpl; [reflexivity | rewrite IH; reflexivity]. Qed.

Lemma substring_after (a b : string) :
  String.substring (String.length a) (String.length (a +:+ b) - String.length a) (a +:+ b) = b.
Proof.
  induction a as [| c a IH]; simpl.
  - rewrite Nat.sub_0_r. apply substring_all.
  - exact IH.
Qed.

Lemma length_append (a b : string) :
  String.length (a +:+ b) = (String.length a + String.length b)%nat.
Proof. induction a as [| c a IH]; simpl; [reflexivity | f_equal; exact IH]. Qed.

Lemma append_assoc (a b c : string) : (a +:+ b) +:+ c = a +:+ b +:+ c.
Proof.
  induction a as [| x a IH]; [reflexivity |].
  change (String x ((a +:+ b) +:+ c) = String x (a +:+ b +:+ c)). rewrite IH. reflexivity.
Qed.

End Prefix.

(** X16. On ASCII text, the prefix that [addContext] puts before a text
    is taken off again by [stripContext], also when Azure has translated
    the layer name inside the brackets: for a bracketed prefix that has no
    closing bracket followed by a space in it and is less than 19
    characters longer than the layer name, what is left is the text after
    the prefix, trimmed. In particular [stripContext] undoes the context of
    [addContext] for such a layer name. *)
Theorem translated_prefix_is_stripped (parse : string -> option jsval)
    (inBrackets layerName text : string) :
  @indexOf (asciiRuntime parse) inBrackets "] " = (-1)%Z ->
  (String.length inBrackets < String.length layerName + 19)%nat ->
  @stripContext (asciiRuntime parse) ("[" +:+ inBrackets +:+ "] " +:+ text) layerName
    = @trim (asciiRuntime parse) text.
Proof.
  intros Hnone Hshort.
  assert (Hindex : String.index 0 "] " inBrackets = None).
  { cbn [indexOf asciiRuntime] in Hnone. unfold Ascii7.indexOf in Hnone.
    destruct (String.index 0 "] " inBrackets); [lia | reflexivity]. }
  assert (Hfound : String.index 0 "] " ("[" +:+ inBrackets +:+ "] " +:+ text)
                   = Some (S (String.length inBrackets))).
  { change ("[" +:+ inBrackets +:+ "] " +:+ text)
      with (String "[" (inBrackets +:+ "] " +:+ text)).
    rewrite index_cons, prefix_cons. destruct (ascii_dec "]" "["); [discriminate |].
    rewrite (index_bracket_append inBrackets text Hindex). reflexivity. }
  unfold stripContext. cbn [indexOf strLength substringFrom trim asciiRuntime].
  unfold Ascii7.indexOf, Ascii7.strLength. rewrite Hfound.
  assert (Hnear : (negb (Z.of_nat (S (String.length inBrackets)) =? -1)%Z
                   && (Z.of_nat (S (String.length inBrackets))
                       <? Z.of_nat (String.length layerName) + 20)%Z) = true).
  { apply andb_true_intro. split.
    - apply negb_true_iff. apply Z.eqb_neq. lia.
    - apply Z.ltb_lt. lia. }
  rewrite Hnear. f_equal. unfold Ascii7.substringFrom.
  replace (Z.to_nat (Z.of_nat (S (String.length inBrackets)) + 2))
    with (String.length ("[" +:+ inBrackets +:+ "] ")).
  - rewrite <- (append_assoc inBrackets "] " text).
    change ("[" +:+ (inBrackets +:+ "] ") +:+ text)
      with (("[" +:+ inBrackets +:+ "] ") +:+ text).
    apply substring_after.
  - change ("[" +:+ inBrackets +:+ "] ") with (String "[" (inBrackets +:+ "] ")).
    cbn [String.length]. rewrite length_append. simpl. lia.
Qed.

(** X16 on a layer name that Azure has translated. *)
Lemma translated_prefix_is_stripped_at_Titre :
  @stripContext (asciiRuntime Scenario.parse) ("[" +:+ "Titre" +:+ "] " +:+ "Bienvenue ")
    "Heading"
    = @trim (asciiRuntime Scenario.parse) "Bienvenue ".
Proof.
  apply (translated_prefix_is_stripped Scenario.parse "Titre" "Heading" "Bienvenue ").
  - vm_compute. reflexivity.
  - simpl. lia.
Defined.

(** A layer name with a closing bracket and a space in it is cut at that
    place: the text comes back with the rest of the name before it. *)
Example stripContext_bracket_in_layer_name :
  @stripContext rt (contextText (TextItem.mk "a" "a] b" "hello")) "a] b" = "b] hello".
Proof. vm_compute. reflexivity. Qed.

(** ** One caller and another *)

Section Isolation.
Context {rt : Runtime} (net : Network).

(** The result of a computation that is the same from two states stays
    the same when a continuation with that property follows. *)
Lemma bind_result_frame {A B : Type} (m : Eff A) (f : A -> Eff B) (σa σb : State) :
  (m σa).1 = (m σb).1 ->
  (forall a s s', (f a s).1 = (f a s').1) ->
  ((m ≫= f) σa).1 = ((m ≫= f) σb).1.
Proof.
  unfold mbind, Eff_bind. intros Hm Hf.
  destruct (m σa) as [[a | e] sa], (m σb) as [[b | e'] sb]; simpl in Hm; try discriminate.
  - injection Hm as ->. apply Hf.
  - injection Hm as ->. reflexivity.
Qed.

Lemma translateWithAzure_result_frame env layers targetLocale (σa σb : State) :
  (translateWithAzure net env layers targetLocale σa).1
    = (translateWithAzure net env layers targetLocale σb).1.
Proof.
  unfold translateWithAzure. unfold mbind, Eff_bind, lift, throw, mret, Eff_ret, call.
  destruct (splitLayers 0 layers targetLocale (replicate (length layers) None) [])
    as [[results azureLayers] | e]; [| reflexivity].
  destruct azureLayers as [| q queue]; [reflexivity |].
  cbv zeta.
  destruct (azure net targetLocale _) as [| status errText | [azureResults |]]; reflexivity.
Qed.

Lemma refineRequest_result_frame env prompt azureResults (σa σb : State) :
  (refineRequest net env prompt azureResults σa).1
    = (refineRequest net env prompt azureResults σb).1.
Proof.
  unfold refineRequest.
  unfold try_catch, mbind, Eff_bind, call, lift, throw, mret, Eff_ret. simpl.
  destruct (openai net _) as [| status | [data |]]; simpl; try reflexivity.
  destruct (contentOf data) as [[content |] | e]; simpl; try reflexivity.
  destruct (String.eqb content EmptyString); simpl; try reflexivity.
  destruct (JSON_parse _) as [refined |]; simpl; try reflexivity.
  destruct (mergeById refined azureResults); reflexivity.
Qed.

Lemma refineWithLLM_result_frame env layers azureResults targetLocale localeLabel
    localeCurrencies (σa σb : State) :
  (refineWithLLM net env layers azureResults targetLocale localeLabel localeCurrencies σa).1
    = (refineWithLLM net env layers azureResults targetLocale localeLabel localeCurrencies
         σb).1.
Proof.
  unfold refineWithLLM.
  destruct (configured (OPENAI_API_KEY env)); cbn [negb]; [| reflexivity].
  apply refineRequest_result_frame.
Qed.

Lemma refineStage_result_frame env layers azureResults targetLocale label currencies
    (σa σb : State) :
  (refineStage net env layers azureResults targetLocale label currencies σa).1
    = (refineStage net env layers azureResults targetLocale label currencies σb).1.
Proof.
  unfold refineStage. destruct (configured (OPENAI_API_KEY env)); [| reflexivity].
  cbn [negb]. unfold mbind, Eff_bind, lift.
  destruct (currenciesOf currencies) as [cs | e]; [| reflexivity].
  destruct (labelOf label) as [l | e]; [| reflexivity].
  apply refineRequest_result_frame.
Qed.

Lemma translation_result_frame env request rateCheck (σa σb : State) :
  (translation net env request rateCheck σa).1 = (translation net env request rateCheck σb).1.
Proof.
  unfold translation. apply bind_result_frame; [reflexivity |].
  intros p s s'.
  destruct (negb (truthyLayers (textLayers p)) || negb (isArrayLayers (textLayers p))
            || negb (truthy (targetLocale p))); [reflexivity |].
  destruct (targetLocale p) as [| | | | locale | | |]; try reflexivity.
  cbv zeta. destruct (hasNull (textLayers p)); [reflexivity |].
  apply bind_result_frame.
  - destruct (String.eqb locale "en" || startsWith locale "en-"); [reflexivity |].
    apply translateWithAzure_result_frame.
  - intros azureTranslations s0 s0'. apply bind_result_frame; [| reflexivity].
    apply refineStage_result_frame.
Qed.

(** The response depends on the state through the count of the caller
    only. *)
Lemma fetch_result_frame now request env (σa σb : State) :
  currentCount now (userIdOf request) σa = currentCount now (userIdOf request) σb ->
  (fetch net now request env σa).1 = (fetch net now request env σb).1.
Proof.
  intros Hcount. unfold fetch.
  destruct (String.eqb (method request) "OPTIONS"); [reflexivity |].
  destruct (String.eqb (method request) "GET" && String.eqb (pathname request) "/privacy");
    [reflexivity |].
  destruct (negb (String.eqb (method request) "POST")); [reflexivity |].
  destruct (negb (configured (AZURE_TRANSLATOR_KEY env))
            || negb (configured (AZURE_TRANSLATOR_REGION env))); [reflexivity |].
  cbv zeta. unfold mbind, Eff_bind.
  destruct (Z.lt_ge_cases (currentCount now (userIdOf request) σa) DAILY_LIMIT) as [Hlt | Hge].
  - rewrite (checkRateLimit_below σa _ _ Hlt).
    rewrite Hcount in Hlt. rewrite (checkRateLimit_below σb _ _ Hlt). rewrite Hcount.
    cbn [allowed negb]. unfold try_catch.
    match goal with
    | |- context [translation net env request ?rc ?sa] =>
        match goal with
        | |- context [(match translation net env request rc ?sb with _ => _ end).1
                      = (match translation net env request rc ?sc with _ => _ end).1] =>
            pose proof (translation_result_frame env request rc sb sc) as Hsame;
            destruct (translation net env request rc sb) as [[ra | ea] sa'];
            destruct (translation net env request rc sc) as [[rb | eb] sb'];
            simpl in Hsame; try discriminate; inversion Hsame; reflexivity
        end
    end.
  - rewrite (checkRateLimit_reached σa _ _ Hge).
    rewrite Hcount in Hge. rewrite (checkRateLimit_reached σb _ _ Hge). reflexivity.
Qed.

Lemma rate_key_inj (u v : string) : "rate:" +:+ u = "rate:" +:+ v -> u = v.
Proof. intros H. unfold String.append in H. injection H as H. exact H. Qed.

End Isolation.

(** X17. No caller spends the quota of another: whatever a request of
    one identity is and whenever it comes, the response to a request of a
    different identity is the one it would have been without it. *)
Theorem callers_do_not_share_quota {rt : Runtime} (net : Network) (now1 now2 : Z)
    (request1 request2 : Request) (env1 env2 : Env) (σ : State) :
  userIdOf request1 <> userIdOf request2 ->
  (fetch net now2 request2 env2 (fetch net now1 request1 env1 σ).2).1
    = (fetch net now2 request2 env2 σ).1.
Proof.
  intros Hother.
  destruct (fetch_never_throws net now1 request1 env1 σ) as (resp & σ1 & Hfirst).
  rewrite Hfirst. apply fetch_result_frame. cbn [snd].
  destruct (fetch_cases net _ _ _ _ _ _ Hfirst) as [[-> _] | (_ & Hkv & _)]; [reflexivity |].
  unfold currentCount, kvRead. rewrite Hkv.
  rewrite lookup_insert_ne; [reflexivity |].
  intros Hkey. apply Hother. exact (rate_key_inj _ _ Hkey).
Qed.

(** X17 on two callers, a minute apart. *)
Lemma callers_do_not_share_quota_at_scenario :
  (@fetch rt net 60%Z (post "v" (translate "fr")) env
     (@fetch rt net 0%Z (post "u" (translate "fr")) env fresh).2).1
    = (@fetch rt net 60%Z (post "v" (translate "fr")) env fresh).1.
Proof.
  apply (@callers_do_not_share_quota rt net 0%Z 60%Z (post "u" (translate "fr"))
           (post "v" (translate "fr")) env env fresh).
  vm_compute. discriminate.
Defined.

(** X18. The callers that send no [X-User-Id], or an empty one, are one
    caller: two admitted requests of that kind, the second within the day
    of the first, raise one and the same count by two. *)
Theorem anonymous_callers_share_one_quota {rt : Runtime} (net : Network) (now1 now2 : Z)
    (request1 request2 : Request) (env : Env) (σ : State) :
  method request1 = "POST" ->
  method request2 = "POST" ->
  configured (AZURE_TRANSLATOR_KEY env) = true ->
  configured (AZURE_TRANSLATOR_REGION env) = true ->
  X_User_Id request1 = None \/ X_User_Id request1 = Some EmptyString ->
  X_User_Id request2 = None \/ X_User_Id request2 = Some EmptyString ->
  (currentCount now1 "anonymous" σ + 1 < DAILY_LIMIT)%Z ->
  (now2 < now1 + DAY_IN_SECONDS)%Z ->
  RATE_LIMIT (fetch net now2 request2 env (fetch net now1 request1 env σ).2).2
    !! "rate:anonymous"
    = Some {| value := (currentCount now1 "anonymous" σ + 2)%Z;
              expiration := (now2 + DAY_IN_SECONDS)%Z |}.
Proof.
  intros Hpost1 Hpost2 Hkey Hregion Hanon1 Hanon2 Hroom Hwithin.
  assert (Hid1 : userIdOf request1 = "anonymous").
  { unfold userIdOf. destruct Hanon1 as [-> | ->]; reflexivity. }
  assert (Hid2 : userIdOf request2 = "anonymous").
  { unfold userIdOf. destruct Hanon2 as [-> | ->]; reflexivity. }
  destruct (fetch net now1 request1 env σ) as [o1 σ1] eqn:Hfirst.
  rewrite fetch_admitted in Hfirst by (try assumption; rewrite Hid1; lia).
  unfold try_catch in Hfirst.
  match type of Hfirst with
  | context [translation net env request1 ?rc ?s] =>
      destruct (translation net env request1 rc s) as [o σt] eqn:Htry
  end.
  destruct (translation_frame net _ _ _ _ _ _ Htry) as [Hkv1 _].
  assert (Hσ1 : RATE_LIMIT σ1 = RATE_LIMIT σt).
  { destruct o; unfold mret, Eff_ret in Hfirst; injection Hfirst as _ <-; reflexivity. }
  rewrite Hkv1 in Hσ1. cbn [RATE_LIMIT] in Hσ1. rewrite Hid1 in Hσ1.
  assert (Hcount : currentCount now2 "anonymous" σ1
                   = (currentCount now1 "anonymous" σ + 1)%Z).
  { unfold currentCount at 1. unfold kvRead. rewrite Hσ1, lookup_insert_eq. cbn [expiration value].
    destruct (Z.ltb_spec now2 (now1 + DAY_IN_SECONDS)); [reflexivity | lia]. }
  cbn [snd].
  destruct (fetch net now2 request2 env σ1) as [o2 σ2] eqn:Hsecond.
  rewrite fetch_admitted in Hsecond by (try assumption; rewrite Hid2, Hcount; lia).
  unfold try_catch in Hsecond.
  match type of Hsecond with
  | context [translation net env request2 ?rc ?s] =>
      destruct (translation net env request2 rc s) as [o' σt'] eqn:Htry'
  end.
  destruct (translation_frame net _ _ _ _ _ _ Htry') as [Hkv2 _].
  assert (Hσ2 : RATE_LIMIT σ2 = RATE_LIMIT σt').
  { destruct o'; unfold mret, Eff_ret in Hsecond; injection Hsecond as _ <-; reflexivity. }
  cbn [snd]. rewrite Hσ2, Hkv2. cbn [RATE_LIMIT]. rewrite Hid2, Hcount.
  rewrite lookup_insert_eq. f_equal. f_equal. lia.
Qed.

(** X18 on a request without the header and one with an empty header. *)
Lemma anonymous_callers_share_one_quota_at_scenario :
  RATE_LIMIT
    (@fetch rt net 60%Z
       {| method := "POST"; pathname := "/"; X_User_Id := Some EmptyString;
          body := translate "fr" |} env
       (@fetch rt net 0%Z
          {| method := "POST"; pathname := "/"; X_User_Id := None; body := translate "de" |}
          env fresh).2).2
    !! "rate:anonymous"
    = Some {| value := (currentCount 0%Z "anonymous" fresh + 2)%Z;
              expiration := (60 + DAY_IN_SECONDS)%Z |}.
Proof.
  apply (@anonymous_callers_share_one_quota rt net 0%Z 60%Z
           {| method := "POST"; pathname := "/"; X_User_Id := None; body := translate "de" |}
           {| method := "POST"; pathname := "/"; X_User_Id := Some EmptyString;
              body := translate "fr" |} env fresh).
  - reflexivity.
  - reflexivity.
  - reflexivity.
  - reflexivity.
  - left. reflexivity.
  - right. reflexivity.
  - vm_compute. reflexivity.
  - vm_compute. reflexivity.
Defined.

(** * The plugin *)

(** ** The thumbnail in base64 *)

Section Base64.

Local Open Scope Z_scope.

Lemma byte_cases (P : Z -> bool) :
  forallb P (seqZ 0 256) = true -> forall a, isByte a -> P a = true.
Proof.
  intros Hall a Ha. rewrite forallb_forall in Hall. apply Hall.
  apply list_elem_of_In, elem_of_seqZ. exact Ha.
Qed.

Lemma sextet_cases (P : Z -> bool) :
  forallb P (seqZ 0 64) = true -> forall i, 0 <= i < 64 -> P i = true.
Proof.
  intros Hall i Hi. rewrite forallb_forall in Hall. apply Hall.
  apply list_elem_of_In, elem_of_seqZ. exact Hi.
Qed.

(** The four indices of a turn of the loop, as quotients and remainders. *)
Lemma index0 a : isByte a -> Z.shiftr a 2 = a / 4.
Proof.
  intros Ha. apply Z.eqb_eq.
  apply (byte_cases (fun a => Z.shiftr a 2 =? a / 4)); [vm_compute; reflexivity | exact Ha].
Qed.

Lemma index1 a b :
  isByte a -> isByte b ->
  Z.lor (Z.shiftl (Z.land a 3) 4) (Z.shiftr b 4) = a mod 4 * 16 + b / 16.
Proof.
  intros Ha Hb. apply Z.eqb_eq.
  apply (byte_cases (fun b => Z.lor (Z.shiftl (Z.land a 3) 4) (Z.shiftr b 4)
                              =? a mod 4 * 16 + b / 16)); [| exact Hb].
  apply (byte_cases
           (fun a => forallb (fun b => Z.lor (Z.shiftl (Z.land a 3) 4) (Z.shiftr b 4)
                                       =? a mod 4 * 16 + b / 16) (seqZ 0 256)));
    [vm_compute; reflexivity | exact Ha].
Qed.

Lemma index2 b c :
  isByte b -> isByte c ->
  Z.lor (Z.shiftl (Z.land b 15) 2) (Z.shiftr c 6) = b mod 16 * 4 + c / 64.
Proof.
  intros Hb Hc. apply Z.eqb_eq.
  apply (byte_cases (fun c => Z.lor (Z.shiftl (Z.land b 15) 2) (Z.shiftr c 6)
                              =? b mod 16 * 4 + c / 64)); [| exact Hc].
  apply (byte_cases
           (fun b => forallb (fun c => Z.lor (Z.shiftl (Z.land b 15) 2) (Z.shiftr c 6)
                                       =? b mod 16 * 4 + c / 64) (seqZ 0 256)));
    [vm_compute; reflexivity | exact Hb].
Qed.

Lemma index3 c : isByte c -> Z.land c 63 = c mod 64.
Proof.
  intros Hc. apply Z.eqb_eq.
  apply (byte_cases (fun c => Z.land c 63 =? c mod 64)); [vm_compute; reflexivity | exact Hc].
Qed.

(** The character at an index of the alphabet, and its value. *)
Lemma CHARS_at_sextet i :
  0 <= i < 64 ->
  exists ch, Plugin.CHARS_at i = String ch EmptyString /\ sextet ch = Some i.
Proof.
  intros Hi.
  assert (Hcheck : match String.get (Z.to_nat i) Plugin.CHARS with
                   | Some ch => match sextet ch with Some j => j =? i | None => false end
                   | None => false
                   end = true).
  { apply (sextet_cases
             (fun i => match String.get (Z.to_nat i) Plugin.CHARS with
                       | Some ch => match sextet ch with Some j => j =? i | None => false end
                       | None => false
                       end)); [vm_compute; reflexivity | exact Hi]. }
  unfold Plugin.CHARS_at. destruct (Z.ltb_spec i 0); [lia |].
  destruct (String.get (Z.to_nat i) Plugin.CHARS) as [ch |]; [| discriminate].
  exists ch. split; [reflexivity |].
  destruct (sextet ch) as [j |]; [| discriminate].
  apply Z.eqb_eq in Hcheck. congruence.
Qed.

Lemma sextet_padding : sextet "="%char = None.
Proof. vm_compute. reflexivity. Qed.

Lemma append_char (ch : ascii) (s : string) : String ch EmptyString +:+ s = String ch s.
Proof. reflexivity. Qed.

Lemma append_cons (ch : ascii) (s t : string) : String ch s +:+ t = String ch (s +:+ t).
Proof. reflexivity. Qed.

(** A turn of the loop writes four characters: the values of the first
    two, and of the others when their byte is there. *)
Lemma group_chars a (b c : option Z) :
  isByte a -> from_option isByte True b -> from_option isByte True c ->
  exists ch0 ch1 ch2 ch3,
    Plugin.group a b c = String ch0 (String ch1 (String ch2 (String ch3 EmptyString)))
    /\ sextet ch0 = Some (a / 4)
    /\ sextet ch1 = Some (a mod 4 * 16 + default 0 b / 16)
    /\ sextet ch2 = (fun _ => default 0 b mod 16 * 4 + default 0 c / 64) <$> b
    /\ sextet ch3 = (fun _ => default 0 c mod 64) <$> c.
Proof.
  intros Ha Hb Hc. unfold Plugin.group.
  assert (Hb' : isByte (default 0 b)) by (destruct b; [exact Hb | unfold isByte; simpl; lia]).
  assert (Hc' : isByte (default 0 c)) by (destruct c; [exact Hc | unfold isByte; simpl; lia]).
  cbv zeta. rewrite (index0 a Ha), (index1 a _ Ha Hb').
  unfold isByte in *.
  destruct (CHARS_at_sextet (a / 4)) as (ch0 & -> & H0);
    [Z.to_euclidean_division_equations; lia |].
  destruct (CHARS_at_sextet (a mod 4 * 16 + default 0 b / 16)) as (ch1 & -> & H1);
    [Z.to_euclidean_division_equations; lia |].
  assert (H2 : exists ch2,
             match b with
             | Some _ => Plugin.CHARS_at (Z.lor (Z.shiftl (Z.land (default 0 b) 15) 2)
                                            (Z.shiftr (default 0 c) 6))
             | None => "="%string
             end = String ch2 EmptyString
             /\ sextet ch2 = (fun _ => default 0 b mod 16 * 4 + default 0 c / 64) <$> b).
  { destruct b as [b |]; [| exists "="%char; split; [reflexivity | exact sextet_padding]].
    rewrite (index2 _ _ Hb' Hc').
    destruct (CHARS_at_sextet (default 0 (Some b) mod 16 * 4 + default 0 c / 64))
      as (ch2 & -> & H2); [Z.to_euclidean_division_equations; lia |].
    exists ch2. auto. }
  assert (H3 : exists ch3,
             match c with
             | Some _ => Plugin.CHARS_at (Z.land (default 0 c) 63)
             | None => "="%string
             end = String ch3 EmptyString
             /\ sextet ch3 = (fun _ => default 0 c mod 64) <$> c).
  { destruct c as [c |]; [| exists "="%char; split; [reflexivity | exact sextet_padding]].
    rewrite (index3 _ Hc').
    destruct (CHARS_at_sextet (default 0 (Some c) mod 64)) as (ch3 & -> & H3);
      [Z.to_euclidean_division_equations; lia |].
    exists ch3. auto. }
  destruct H2 as (ch2 & -> & H2). destruct H3 as (ch3 & -> & H3).
  exists ch0, ch1, ch2, ch3. rewrite !append_char. auto.
Qed.

(** Induction by three elements, as the loop goes. *)
Lemma list_ind3 {A : Type} (P : list A -> Prop) :
  P [] -> (forall a, P [a]) -> (forall a b, P [a; b]) ->
  (forall a b c rest, P rest -> P (a :: b :: c :: rest)) ->
  forall l, P l.
Proof.
  intros H0 H1 H2 H3.
  refine (fix go (l : list A) : P l :=
            match l with
            | [] => H0
            | [a] => H1 a
            | [a; b] => H2 a b
            | a :: b :: c :: rest => H3 a b c rest (go rest)
            end).
Qed.

Lemma base64Bytes_group (ch0 ch1 ch2 ch3 : ascii) (rest : string) :
  base64Bytes (String ch0 (String ch1 (String ch2 (String ch3 rest)))) =
    match sextet ch0, sextet ch1 with
    | Some i0, Some i1 =>
        match sextet ch2 with
        | None => [i0 * 4 + i1 / 16]
        | Some i2 =>
            match sextet ch3 with
            | None => [i0 * 4 + i1 / 16; i1 mod 16 * 16 + i2 / 4]
            | Some i3 =>
                (i0 * 4 + i1 / 16) :: (i1 mod 16 * 16 + i2 / 4) :: (i2 mod 4 * 64 + i3)
                  :: base64Bytes rest
            end
        end
    | _, _ => []
    end.
Proof. reflexivity. Qed.

Lemma uint8ArrayToBase64_decodes (bytes : list Z) :
  Forall isByte bytes -> base64Bytes (Plugin.uint8ArrayToBase64 bytes) = bytes.
Proof.
  induction bytes as [| a | a b | a b c rest IH] using list_ind3; intros Hbytes.
  - reflexivity.
  - apply Forall_cons in Hbytes as [Ha _].
    destruct (group_chars a None None Ha I I) as (ch0 & ch1 & ch2 & ch3 & Hg & H0 & H1 & H2 & H3).
    cbn [Plugin.uint8ArrayToBase64]. rewrite Hg, base64Bytes_group, H0, H1, H2. simpl.
    unfold isByte in Ha. f_equal. Z.to_euclidean_division_equations. lia.
  - apply Forall_cons in Hbytes as [Ha Hbytes]. apply Forall_cons in Hbytes as [Hb _].
    destruct (group_chars a (Some b) None Ha Hb I)
      as (ch0 & ch1 & ch2 & ch3 & Hg & H0 & H1 & H2 & H3).
    cbn [Plugin.uint8ArrayToBase64]. rewrite Hg, base64Bytes_group, H0, H1, H2, H3. simpl.
    unfold isByte in Ha, Hb.
    f_equal; [| f_equal]; Z.to_euclidean_division_equations; lia.
  - apply Forall_cons in Hbytes as [Ha Hbytes]. apply Forall_cons in Hbytes as [Hb Hbytes].
    apply Forall_cons in Hbytes as [Hc Hrest].
    destruct (group_chars a (Some b) (Some c) Ha Hb Hc)
      as (ch0 & ch1 & ch2 & ch3 & Hg & H0 & H1 & H2 & H3).
    cbn [Plugin.uint8ArrayToBase64]. rewrite Hg, !append_cons.
    change (EmptyString +:+ Plugin.uint8ArrayToBase64 rest)
      with (Plugin.uint8ArrayToBase64 rest).
    rewrite base64Bytes_group, H0, H1, H2, H3. simpl. rewrite (IH Hrest).
    unfold isByte in Ha, Hb, Hc.
    f_equal; [| f_equal; [| f_equal]]; Z.to_euclidean_division_equations; lia.
Qed.

Lemma uint8ArrayToBase64_length (bytes : list Z) :
  Forall isByte bytes ->
  Z.of_nat (String.length (Plugin.uint8ArrayToBase64 bytes))
    = 4 * ((Z.of_nat (length bytes) + 2) / 3).
Proof.
  induction bytes as [| a | a b | a b c rest IH] using list_ind3; intros Hbytes.
  - reflexivity.
  - apply Forall_cons in Hbytes as [Ha _].
    destruct (group_chars a None None Ha I I) as (ch0 & ch1 & ch2 & ch3 & Hg & _).
    cbn [Plugin.uint8ArrayToBase64]. rewrite Hg. reflexivity.
  - apply Forall_cons in Hbytes as [Ha Hbytes]. apply Forall_cons in Hbytes as [Hb _].
    destruct (group_chars a (Some b) None Ha Hb I) as (ch0 & ch1 & ch2 & ch3 & Hg & _).
    cbn [Plugin.uint8ArrayToBase64]. rewrite Hg. reflexivity.
  - apply Forall_cons in Hbytes as [Ha Hbytes]. apply Forall_cons in Hbytes as [Hb Hbytes].
    apply Forall_cons in Hbytes as [Hc Hrest].
    destruct (group_chars a (Some b) (Some c) Ha Hb Hc) as (ch0 & ch1 & ch2 & ch3 & Hg & _).
    cbn [Plugin.uint8ArrayToBase64]. rewrite Hg, !append_cons.
    change (EmptyString +:+ Plugin.uint8ArrayToBase64 rest)
      with (Plugin.uint8ArrayToBase64 rest).
    cbn [String.length length]. specialize (IH Hrest).
    Z.to_euclidean_division_equations. lia.
Qed.

End Base64.

(** X19. The thumbnail loses nothing in [uint8ArrayToBase64]: the text
    it writes for an array of bytes stands, read as base64, for these very
    bytes, so that two arrays with the same text are the same array. *)
Theorem image_bytes_survive_the_encoding (bytes : list Z) :
  Forall isByte bytes ->
  base64Bytes (Plugin.uint8ArrayToBase64 bytes) = bytes
  /\ forall other, Forall isByte other ->
       Plugin.uint8ArrayToBase64 other = Plugin.uint8ArrayToBase64 bytes -> other = bytes.
Proof.
  intros Hbytes. pose proof (uint8ArrayToBase64_decodes bytes Hbytes) as Hback.
  split; [exact Hback |].
  intros other Hother Hsame.
  rewrite <- (uint8ArrayToBase64_decodes other Hother), Hsame. exact Hback.
Qed.

(** X19 on the signature of a PNG file. *)
Lemma image_bytes_survive_the_encoding_at_PNG :
  base64Bytes (Plugin.uint8ArrayToBase64 [137; 80; 78; 71; 13; 10; 26; 10]%Z)
    = [137; 80; 78; 71; 13; 10; 26; 10]%Z
  /\ forall other, Forall isByte other ->
       Plugin.uint8ArrayToBase64 other
         = Plugin.uint8ArrayToBase64 [137; 80; 78; 71; 13; 10; 26; 10]%Z ->
       other = [137; 80; 78; 71; 13; 10; 26; 10]%Z.
Proof.
  apply (image_bytes_survive_the_encoding [137; 80; 78; 71; 13; 10; 26; 10]%Z).
  repeat constructor; unfold isByte; lia.
Defined.

(** X20. The text [uint8ArrayToBase64] writes has four characters for
    every three bytes, the last group filled up: its length is four times
    the number of bytes over three, rounded up. *)
Theorem base64_text_is_padded_to_groups_of_four (bytes : list Z) :
  Forall isByte bytes ->
  (Z.of_nat (String.length (Plugin.uint8ArrayToBase64 bytes))
     = 4 * ((Z.of_nat (length bytes) + 2) / 3))%Z
  /\ (Z.of_nat (String.length (Plugin.uint8ArrayToBase64 bytes)) mod 4 = 0)%Z.
Proof.
  intros Hbytes. pose proof (uint8ArrayToBase64_length bytes Hbytes) as Hlen.
  split; [exact Hlen |]. rewrite Hlen.
  rewrite Z.mul_comm. apply Z.mod_mul. discriminate.
Qed.

(** X20 on the signature of a PNG file. *)
Lemma base64_text_is_padded_to_groups_of_four_at_PNG :
  (Z.of_nat (String.length (Plugin.uint8ArrayToBase64 [137; 80; 78; 71; 13; 10; 26; 10]%Z))
     = 4 * ((Z.of_nat (length [137; 80; 78; 71; 13; 10; 26; 10]%Z) + 2) / 3))%Z
  /\ (Z.of_nat (String.length (Plugin.uint8ArrayToBase64 [137; 80; 78; 71; 13; 10; 26; 10]%Z))
        mod 4 = 0)%Z.
Proof.
  apply (base64_text_is_padded_to_groups_of_four [137; 80; 78; 71; 13; 10; 26; 10]%Z).
  repeat constructor; unfold isByte; lia.
Defined.

(** The encoding of the signature of a PNG file. *)
Example uint8ArrayToBase64_PNG :
  Plugin.uint8ArrayToBase64 [137; 80; 78; 71; 13; 10; 26; 10]%Z = "iVBORw0KGgo=".
Proof. vm_compute. reflexivity. Qed.

(** ** The text nodes of a frame and of its clone *)

Section TextNodes.

Lemma SceneNode_children_ind (P : Plugin.SceneNode -> Prop) :
  (forall id name type characters align, P (Plugin.Node id name type characters align None)) ->
  (forall id name type characters align children,
     Forall P children -> P (Plugin.Node id name type characters align (Some children))) ->
  forall node, P node.
Proof.
  intros Hleaf Hparent.
  refine (fix go (node : Plugin.SceneNode) : P node :=
            match node with
            | Plugin.Node id name type characters align None =>
                Hleaf id name type characters align
            | Plugin.Node id name type characters align (Some children) =>
                Hparent id name type characters align children
                  ((fix all (l : list Plugin.SceneNode) : Forall P l :=
                      match l with
                      | [] => Forall_nil_2 P
                      | x :: l' => Forall_cons_2 P x l' (go x) (all l')
                      end) children)
            end).
Qed.

Lemma sameShape_children id name type characters align children id' name' type' characters'
    align' children' :
  sameShape (Plugin.Node id name type characters align (Some children))
            (Plugin.Node id' name' type' characters' align' (Some children'))
  = String.eqb type type' && sameShapes children children'.
Proof. reflexivity. Qed.

Lemma collectTextNodes_children (children clones : list Plugin.SceneNode) :
  Forall (fun s => forall c, sameShape s c = true ->
            Forall2 (fun s' c' => sameShape s' c' = true)
              (Plugin.collectTextNodes s) (Plugin.collectTextNodes c)) children ->
  sameShapes children clones = true ->
  Forall2 (fun s' c' => sameShape s' c' = true)
    (concat (map Plugin.collectTextNodes children))
    (concat (map Plugin.collectTextNodes clones)).
Proof.
  intros Hall. revert clones.
  induction Hall as [| s rest Hs _ IH]; intros [| c clones] Hshape; try discriminate.
  - constructor.
  - cbn [sameShapes] in Hshape. apply andb_prop in Hshape as [Hhead Htail].
    cbn [map concat]. apply Forall2_app; [apply Hs; exact Hhead | apply IH; exact Htail].
Qed.

(** The text nodes of two subtrees of the same shape, pair by pair. *)
Lemma collectTextNodes_pairs (source : Plugin.SceneNode) : forall clone,
  sameShape source clone = true ->
  Forall2 (fun s c => sameShape s c = true)
    (Plugin.collectTextNodes source) (Plugin.collectTextNodes clone).
Proof.
  induction source as [id name type characters align
                      | id name type characters align children IH]
    using SceneNode_children_ind;
    intros [id' name' type' characters' align' [children' |]] Hshape.
  - cbn [sameShape] in Hshape. rewrite andb_false_r in Hshape. discriminate.
  - pose proof Hshape as Hnode. cbn [sameShape] in Hshape. rewrite andb_true_r in Hshape.
    apply String.eqb_eq in Hshape as <-. cbn [Plugin.collectTextNodes].
    rewrite !app_nil_r. destruct (String.eqb type "TEXT"); repeat constructor. exact Hnode.
  - pose proof Hshape as Hnode. rewrite sameShape_children in Hshape.
    apply andb_prop in Hshape as [Htype Hchildren].
    apply String.eqb_eq in Htype as <-. cbn [Plugin.collectTextNodes].
    apply Forall2_app.
    + destruct (String.eqb type "TEXT"); repeat constructor. exact Hnode.
    + apply collectTextNodes_children; assumption.
  - cbn [sameShape] in Hshape. rewrite andb_false_r in Hshape. discriminate.
Qed.

Lemma collectTextNodes_types (node : Plugin.SceneNode) :
  Forall (fun n => Plugin.nodeType n = "TEXT") (Plugin.collectTextNodes node).
Proof.
  induction node as [id name type characters align
                    | id name type characters align children IH]
    using SceneNode_children_ind; cbn [Plugin.collectTextNodes].
  - rewrite app_nil_r. destruct (String.eqb type "TEXT") eqn:Htype; [| constructor].
    apply String.eqb_eq in Htype. repeat constructor. exact Htype.
  - apply Forall_app. split.
    + destruct (String.eqb type "TEXT") eqn:Htype; [| constructor].
      apply String.eqb_eq in Htype. repeat constructor. exact Htype.
    + induction IH as [| x xs Hx _ IHxs]; cbn [map concat]; [constructor |].
      apply Forall_app. split; [exact Hx | exact IHxs].
Qed.

Lemma textPaths_children id name type characters align children :
  textPaths (Plugin.Node id name type characters align (Some children))
  = (if String.eqb type "TEXT" then [[]] else []) ++ textPathsFrom 0 children.
Proof. reflexivity. Qed.

(** The places of the text nodes depend on the shape only. *)
Lemma textPaths_same_shape (source : Plugin.SceneNode) : forall clone,
  sameShape source clone = true -> textPaths source = textPaths clone.
Proof.
  induction source as [id name type characters align
                      | id name type characters align children IH]
    using SceneNode_children_ind;
    intros [id' name' type' characters' align' [children' |]] Hshape.
  - cbn [sameShape] in Hshape. rewrite andb_false_r in Hshape. discriminate.
  - cbn [sameShape] in Hshape. rewrite andb_true_r in Hshape.
    apply String.eqb_eq in Hshape as <-. reflexivity.
  - rewrite sameShape_children in Hshape. apply andb_prop in Hshape as [Htype Hchildren].
    apply String.eqb_eq in Htype as <-. rewrite !textPaths_children. f_equal.
    generalize 0%nat. revert children' Hchildren.
    induction IH as [| x xs Hx _ IHxs]; intros [| y ys] Hchildren k; try discriminate;
      [reflexivity |].
    cbn [sameShapes] in Hchildren. apply andb_prop in Hchildren as [Hhead Htail].
    cbn [textPathsFrom]. rewrite (Hx y Hhead), (IHxs ys Htail (S k)). reflexivity.
  - cbn [sameShape] in Hshape. rewrite andb_false_r in Hshape. discriminate.
Qed.

(** The places of the text nodes under the children from the index [k]
    on begin with an index that is not below [k]. *)
Lemma textPathsFrom_heads (children : list Plugin.SceneNode) : forall k,
  Forall (fun path => exists i rest, path = i :: rest /\ (k <= i)%nat)
    (textPathsFrom k children).
Proof.
  induction children as [| x xs IH]; intros k; cbn [textPathsFrom]; [constructor |].
  apply Forall_app. split.
  - apply Forall_fmap. apply Forall_true. intros path. simpl. eauto.
  - eapply Forall_impl; [apply (IH (S k)) |]. intros path (i & rest & -> & Hi).
    exists i, rest. split; [reflexivity | lia].
Qed.

Lemma textPaths_NoDup (node : Plugin.SceneNode) : NoDup (textPaths node).
Proof.
  induction node as [id name type characters align
                    | id name type characters align children IH]
    using SceneNode_children_ind.
  - cbn [textPaths]. rewrite app_nil_r. destruct (String.eqb type "TEXT");
      repeat constructor. intros Hin. inversion Hin.
  - rewrite textPaths_children.
    assert (Hfrom : forall k, NoDup (textPathsFrom k children)).
    { induction IH as [| x xs Hx _ IHxs]; intros k; cbn [textPathsFrom]; [constructor |].
      apply NoDup_app. split; [| split].
      - apply NoDup_fmap; [| exact Hx]. intros a b Hab. injection Hab as ->. reflexivity.
      - intros path Hhere Hthere.
        apply list_elem_of_fmap in Hhere as (rest & -> & _).
        pose proof (textPathsFrom_heads xs (S k)) as Hheads.
        rewrite Forall_forall in Hheads.
        destruct (Hheads _ Hthere) as (i & rest' & Heq & Hi). injection Heq as -> _. lia.
      - apply IHxs. }
    destruct (String.eqb type "TEXT"); [| apply Hfrom].
    cbn [app]. constructor; [| apply Hfrom].
    intros Hin. pose proof (textPathsFrom_heads children 0) as Hheads.
    rewrite Forall_forall in Hheads. destruct (Hheads _ Hin) as (i & rest & Heq & _).
    discriminate.
Qed.

(** [collectTextNodes] returns the nodes at the places of the text nodes,
    in their order. *)
Lemma collectTextNodes_places (node : Plugin.SceneNode) :
  Some <$> Plugin.collectTextNodes node = (fun path => nodeAt path node) <$> textPaths node.
Proof.
  induction node as [id name type characters align
                    | id name type characters align children IH]
    using SceneNode_children_ind.
  - cbn [Plugin.collectTextNodes textPaths]. rewrite !app_nil_r.
    destruct (String.eqb type "TEXT"); reflexivity.
  - rewrite textPaths_children. cbn [Plugin.collectTextNodes]. rewrite !fmap_app. f_equal.
    { destruct (String.eqb type "TEXT"); reflexivity. }
    set (node := Plugin.Node id name type characters align (Some children)).
    assert (Hfrom : forall before rest,
              children = before ++ rest ->
              Forall (fun c => Some <$> Plugin.collectTextNodes c
                               = (fun path => nodeAt path c) <$> textPaths c) rest ->
              Some <$> concat (map Plugin.collectTextNodes rest)
              = (fun path => nodeAt path node) <$> textPathsFrom (length before) rest).
    { intros before rest. revert before.
      induction rest as [| c rest IHrest]; intros before Hsplit Hall; [reflexivity |].
      apply Forall_cons in Hall as [Hc Hall].
      cbn [map concat textPathsFrom]. rewrite !fmap_app. f_equal.
      - rewrite Hc, <- list_fmap_compose. apply list_fmap_ext. intros j path _.
        cbn [compose nodeAt]. unfold node. rewrite Hsplit.
        rewrite lookup_app_r by lia. rewrite Nat.sub_diag. reflexivity.
      - specialize (IHrest (before ++ [c])). rewrite length_app in IHrest.
        simpl in IHrest. rewrite Nat.add_1_r in IHrest. apply IHrest; [| exact Hall].
        rewrite <- app_assoc. exact Hsplit. }
    exact (Hfrom [] children eq_refl IH).
Qed.

End TextNodes.

(** X21. The text nodes of a frame and of a clone of it go by pairs, place
    by place. For two subtrees of the same shape, the text nodes have the
    same places in both, in the same order and each place once;
    [collectTextNodes] returns, for the one and for the other, the nodes at
    these places in that order, so that the nodes it returns at one index
    for the source and for the clone stand at one and the same place of
    the two trees; they are as many in both, and all of them are text
    nodes. This is what the plugin relies on when it matches the text
    nodes of the clone with those of the source by index. *)
Theorem clone_text_nodes_match_by_index (source clone : Plugin.SceneNode) :
  sameShape source clone = true ->
  textPaths clone = textPaths source
  /\ NoDup (textPaths source)
  /\ Some <$> Plugin.collectTextNodes source
       = (fun path => nodeAt path source) <$> textPaths source
  /\ Some <$> Plugin.collectTextNodes clone
       = (fun path => nodeAt path clone) <$> textPaths source
  /\ (forall (i : nat) (s c : Plugin.SceneNode),
        Plugin.collectTextNodes source !! i = Some s ->
        Plugin.collectTextNodes clone !! i = Some c ->
        exists path,
          textPaths source !! i = Some path
          /\ nodeAt path source = Some s /\ nodeAt path clone = Some c)
  /\ length (Plugin.collectTextNodes source) = length (Plugin.collectTextNodes clone)
  /\ Forall (fun n => Plugin.nodeType n = "TEXT") (Plugin.collectTextNodes clone).
Proof.
  intros Hshape.
  pose proof (textPaths_same_shape source clone Hshape) as Hpaths.
  pose proof (collectTextNodes_places source) as Hsource.
  pose proof (collectTextNodes_places clone) as Hclone. rewrite <- Hpaths in Hclone.
  split; [symmetry; exact Hpaths |]. split; [apply textPaths_NoDup |].
  split; [exact Hsource |]. split; [exact Hclone |]. split.
  - intros i s c Hs Hc.
    apply (f_equal (fun l => l !! i)) in Hsource, Hclone.
    rewrite !list_lookup_fmap in Hsource, Hclone. rewrite Hs in Hsource. rewrite Hc in Hclone.
    destruct (textPaths source !! i) as [path |]; [| discriminate].
    simpl in Hsource, Hclone. injection Hsource as Hsource. injection Hclone as Hclone.
    exists path. auto.
  - split; [| apply collectTextNodes_types].
    apply (f_equal length) in Hsource, Hclone. rewrite !length_fmap in Hsource, Hclone.
    congruence.
Qed.

(** X21 on a card and its clone. *)
Lemma clone_text_nodes_match_by_index_at_card :
  textPaths Cases.clone = textPaths Cases.frame
  /\ NoDup (textPaths Cases.frame)
  /\ Some <$> Plugin.collectTextNodes Cases.frame
       = (fun path => nodeAt path Cases.frame) <$> textPaths Cases.frame
  /\ Some <$> Plugin.collectTextNodes Cases.clone
       = (fun path => nodeAt path Cases.clone) <$> textPaths Cases.frame
  /\ (forall (i : nat) (s c : Plugin.SceneNode),
        Plugin.collectTextNodes Cases.frame !! i = Some s ->
        Plugin.collectTextNodes Cases.clone !! i = Some c ->
        exists path,
          textPaths Cases.frame !! i = Some path
          /\ nodeAt path Cases.frame = Some s /\ nodeAt path Cases.clone = Some c)
  /\ length (Plugin.collectTextNodes Cases.frame)
       = length (Plugin.collectTextNodes Cases.clone)
  /\ Forall (fun n => Plugin.nodeType n = "TEXT") (Plugin.collectTextNodes Cases.clone).
Proof.
  apply (clone_text_nodes_match_by_index Cases.frame Cases.clone).
  vm_compute. reflexivity.
Defined.

(** The places of the text nodes of the card. *)
Example textPaths_card : textPaths Cases.frame = [[0]; [1; 0]; [1; 1]]%nat.
Proof. reflexivity. Qed.

(** The text nodes of the card, in the order of the document. *)
Example collectTextNodes_card :
  Plugin.collectTextNodes Cases.frame =
    [Plugin.Node "1:2" "Title" "TEXT" "Welcome" "LEFT" None;
     Plugin.Node "1:4" "Date" "TEXT" "JAN" "RIGHT" None;
     Plugin.Node "1:5" "Price" "TEXT" "$5" "CENTER" None].
Proof. reflexivity. Qed.

(** ** The translations applied to a clone *)

Section Apply.

(** A key that is set once holds what it was set to. *)
Lemma layerMap_lookup (layers : list (string * string)) : forall (m : gmap string string) k t,
  NoDup layers.*1 ->
  (k, t) ∈ layers ->
  foldl (fun m layer => <[layer.1 := layer.2]> m) m layers !! k = Some t.
Proof.
  induction layers as [| [k' t'] rest IH]; intros m k t Hdistinct Hin.
  - inversion Hin.
  - cbn [foldl fst snd]. simpl in Hdistinct. apply NoDup_cons in Hdistinct as [Hfresh Hdistinct].
    apply elem_of_cons in Hin as [Hhead | Hin].
    + injection Hhead as -> ->. clear IH. revert m.
      induction rest as [| [k2 t2] rest IHrest]; intros m; cbn [foldl fst snd].
      * apply lookup_insert_eq.
      * simpl in Hfresh. apply not_elem_of_cons in Hfresh as [Hne Hfresh].
        simpl in Hdistinct. apply NoDup_cons in Hdistinct as [_ Hdistinct].
        rewrite insert_insert_ne by congruence. apply IHrest; assumption.
    + apply IH; assumption.
Qed.

(** The loop, when the map has a text for every source node and every
    text node of the clone can be written. *)
Lemma applyLayers_all fontsLoad rtl (layerMap : gmap string string) :
  forall sources clones texts,
    length clones = length sources ->
    length texts = length sources ->
    (forall i s t, sources !! i = Some s -> texts !! i = Some t ->
       layerMap !! Plugin.nodeId s = Some t) ->
    Forall (fun c => Plugin.characters c <> EmptyString /\ fontsLoad c = true) clones ->
    Plugin.applyLayers fontsLoad rtl layerMap sources clones
      = zip_with (Plugin.setText rtl) texts clones.
Proof.
  induction sources as [| s sources IH]; intros [| c clones] [| t texts] Hclones Htexts Hmap Hok;
    try discriminate; [reflexivity |].
  cbn [Plugin.applyLayers zip_with].
  rewrite (Hmap 0%nat s t eq_refl eq_refl).
  apply Forall_cons in Hok as [[Hfull Hfonts] Hok].
  apply String.eqb_neq in Hfull. rewrite Hfull, Hfonts. f_equal.
  apply IH; [simpl in *; lia | simpl in *; lia | | exact Hok].
  intros i s' t' Hs Ht. exact (Hmap (S i) s' t' Hs Ht).
Qed.

Lemma characters_setText rtl : forall texts clones,
  length texts = length clones ->
  Plugin.characters <$> zip_with (Plugin.setText rtl) texts clones = texts.
Proof.
  induction texts as [| t texts IH]; intros [| c clones] Hlen; try discriminate; [reflexivity |].
  cbn [zip_with fmap list_fmap]. f_equal; [destruct c; reflexivity |].
  apply IH. simpl in Hlen. lia.
Qed.

End Apply.

(** X22. Every text of the clone receives its translation. When the
    layers of a locale give one text for each text node of the source,
    under the id of that node (the ids being distinct), and every text node
    of the clone has a text and fonts that load, the loop over the two
    lists of text nodes writes to the text node of the clone at each index
    the translation given for the source node at that index: the texts of
    the clone are then the translations, in their order. *)
Theorem every_text_node_receives_its_translation (fontsLoad : Plugin.SceneNode -> bool)
    (rtl : bool) (source clone : Plugin.SceneNode) (texts : list string) :
  let sources := Plugin.collectTextNodes source in
  let clones := Plugin.collectTextNodes clone in
  let layers := zip (Plugin.nodeId <$> sources) texts in
  sameShape source clone = true ->
  NoDup (Plugin.nodeId <$> sources) ->
  length texts = length sources ->
  Forall (fun c => Plugin.characters c <> EmptyString /\ fontsLoad c = true) clones ->
  Plugin.applyLayers fontsLoad rtl (Plugin.layerMapOf layers) sources clones
    = zip_with (Plugin.setText rtl) texts clones
  /\ Plugin.characters <$>
       Plugin.applyLayers fontsLoad rtl (Plugin.layerMapOf layers) sources clones
     = texts.
Proof.
  intros sources clones layers Hshape Hdistinct Htexts Hok.
  pose proof (collectTextNodes_pairs source clone Hshape) as Hpairs.
  fold sources clones in Hpairs.
  assert (Hclones : length clones = length sources).
  { symmetry. exact (Forall2_length _ _ _ Hpairs). }
  assert (Hrun : Plugin.applyLayers fontsLoad rtl (Plugin.layerMapOf layers) sources clones
                 = zip_with (Plugin.setText rtl) texts clones).
  { apply applyLayers_all; [exact Hclones | exact Htexts | | exact Hok].
    intros i s t Hs Ht. unfold Plugin.layerMapOf. apply layerMap_lookup.
    - unfold layers. rewrite fst_zip; [exact Hdistinct |]. rewrite length_fmap. lia.
    - apply (list_elem_of_lookup_2 _ i). unfold layers. apply lookup_zip_Some.
      rewrite list_lookup_fmap, Hs. auto. }
  split; [exact Hrun |]. rewrite Hrun. apply characters_setText. lia.
Qed.

(** X22 on a card and its clone, under an Arabic locale. *)
Lemma every_text_node_receives_its_translation_at_card :
  Plugin.applyLayers (fun _ => true) (@Plugin.isRtlLocale rt "ar-SA")
    (Plugin.layerMapOf
       (zip (Plugin.nodeId <$> Plugin.collectTextNodes Cases.frame) ["Ahlan"; "YAN"; "5 SAR"]))
    (Plugin.collectTextNodes Cases.frame) (Plugin.collectTextNodes Cases.clone)
    = zip_with (Plugin.setText (@Plugin.isRtlLocale rt "ar-SA")) ["Ahlan"; "YAN"; "5 SAR"]
        (Plugin.collectTextNodes Cases.clone)
  /\ Plugin.characters <$>
       Plugin.applyLayers (fun _ => true) (@Plugin.isRtlLocale rt "ar-SA")
         (Plugin.layerMapOf
            (zip (Plugin.nodeId <$> Plugin.collectTextNodes Cases.frame)
               ["Ahlan"; "YAN"; "5 SAR"]))
         (Plugin.collectTextNodes Cases.frame) (Plugin.collectTextNodes Cases.clone)
     = ["Ahlan"; "YAN"; "5 SAR"].
Proof.
  apply (every_text_node_receives_its_translation (fun _ => true)
           (@Plugin.isRtlLocale rt "ar-SA") Cases.frame Cases.clone ["Ahlan"; "YAN"; "5 SAR"]).
  - vm_compute. reflexivity.
  - apply (bool_decide_unpack
             (NoDup (Plugin.nodeId <$> Plugin.collectTextNodes Cases.frame))).
    vm_compute. exact I.
  - reflexivity.
  - repeat constructor; discriminate.
Defined.

(** The clone of the card under an Arabic locale: the texts are set and
    the alignments left and right change places. *)
Example applyLayers_card_rtl :
  Plugin.applyLayers (fun _ => true) (@Plugin.isRtlLocale rt "ar-SA")
    (Plugin.layerMapOf [("1:2", "Ahlan"); ("1:4", "YAN"); ("1:5", "5 SAR")])
    (Plugin.collectTextNodes Cases.frame) (Plugin.collectTextNodes Cases.clone)
  = [Plugin.Node "2:2" "Title" "TEXT" "Ahlan" "RIGHT" None;
     Plugin.Node "2:4" "Date" "TEXT" "YAN" "LEFT" None;
     Plugin.Node "2:5" "Price" "TEXT" "5 SAR" "CENTER" None].
Proof. vm_compute. reflexivity. Qed.
